(** * URL shortener: a shallow embedding of the service and its properties

    The development follows the layout of the repository:
    - [src/utils.py]: the code generator and the URL validator;
    - [src/entities]: the two tables, [urls] and [clicks];
    - [src/schemas/models.py]: the request and response schemas;
    - [main.py]: the five request handlers.

    Python strings are sequences of Unicode code points, handlers are
    computations in a state-and-exception monad over the world they act
    on (the tables, the statements sent to the store, the random
    generator and the clock). *)

From Stdlib Require Import ZArith NArith List Ascii String Bool Lia.
From stdpp Require Import base decidable option numbers list sorting relations.

Import ListNotations.
Local Open Scope Z_scope.

(** ** Python strings *)

(** A [str] is a sequence of code points. *)
Abbreviation str := (list N).

(** The code points of a literal written in the source. *)
Definition py (s : string) : str := map N_of_ascii (list_ascii_of_string s).
Arguments py s%_string.

Definition ch (a : ascii) : N := N_of_ascii a.
Arguments ch a%_char.

Definition str_eqb (a b : str) : bool := bool_decide (a = b).

(** [c in s] for a character [c] and a string [s]. *)
Definition char_in (c : N) (s : str) : bool := existsb (N.eqb c) s.

Definition in_range (lo hi c : N) : bool := ((lo <=? c) && (c <=? hi))%N.

Definition ascii_lower (c : N) : bool := in_range (ch "a") (ch "z") c.
Definition ascii_upper (c : N) : bool := in_range (ch "A") (ch "Z") c.
Definition ascii_letter (c : N) : bool := ascii_lower c || ascii_upper c.
Definition ascii_digit (c : N) : bool := in_range (ch "0") (ch "9") c.
Definition isascii (c : N) : bool := (c <? 128)%N.

(** [s.rstrip(c)]: drop every trailing occurrence of [c]. *)
Fixpoint rstrip (c : N) (s : str) : str :=
  match s with
  | [] => []
  | x :: t =>
      match rstrip c t with
      | [] => if (x =? c)%N then [] else [x]
      | t' => x :: t'
      end
  end.

(** [s.lstrip(chars)]. *)
Fixpoint lstrip (chars : str) (s : str) : str :=
  match s with
  | [] => []
  | x :: t => if char_in x chars then lstrip chars t else s
  end.

(** [s.find(c)], as an option instead of -1. *)
Fixpoint find_char (c : N) (s : str) : option nat :=
  match s with
  | [] => None
  | x :: t => if (x =? c)%N then Some O else option_map S (find_char c t)
  end.

(** ** The parts of the Python library that are tables

    Unicode character data and two checks of [urllib.parse] are taken
    as given; the ASCII range is always written out. *)
Class PyLib := {
  (** [c.isalnum()] for a code point above 127 *)
  unicode_isalnum : N -> bool;
  (** [c.isalpha()] for a code point above 127: the letters *)
  unicode_isalpha : N -> bool;
  (** general category Nd for a code point above 127 (the class [\d]) *)
  unicode_isdecimal : N -> bool;
  (** [unicodedata.normalize('NFKC', s)] *)
  nfkc : str -> str;
  (** [urllib.parse._check_bracketed_host(host)] returns without raising *)
  bracketed_host_ok : str -> bool
}.

(** A library that knows nothing beyond ASCII, used to run examples. *)
Definition ascii_only : PyLib :=
  {| unicode_isalnum := fun _ => false;
     unicode_isalpha := fun _ => false;
     unicode_isdecimal := fun _ => false;
     nfkc := fun s => s;
     bracketed_host_ok := fun _ => false |}.

(** A library that knows one character beyond ASCII: U+00BD, the
    vulgar fraction one half.  It is numeric, so [str.isalnum] holds
    of it, and it is neither a letter nor a decimal digit. *)
Definition with_one_half : PyLib :=
  {| unicode_isalnum := fun c => (c =? 0xBD)%N;
     unicode_isalpha := fun _ => false;
     unicode_isdecimal := fun _ => false;
     nfkc := fun s => s;
     bracketed_host_ok := fun _ => false |}.

(** [c.isalnum()] *)
Definition isalnum `{PyLib} (c : N) : bool :=
  if isascii c then ascii_letter c || ascii_digit c else unicode_isalnum c.

(** [c.isalpha()] and [c.isdecimal()]: the letters and the digits. *)
Definition isalpha `{PyLib} (c : N) : bool :=
  if isascii c then ascii_letter c else unicode_isalpha c.
Definition isdecimal `{PyLib} (c : N) : bool :=
  if isascii c then ascii_digit c else unicode_isdecimal c.

(** ** Time *)

(** A [datetime]: the wall-clock reading in microseconds and, for an
    aware value, the offset of its zone from UTC. *)
Record datetime := { ticks : Z; tzinfo : option Z }.

Definition replace_tzinfo (d : datetime) (tz : option Z) : datetime :=
  {| ticks := ticks d; tzinfo := tz |}.

Definition timezone_utc : option Z := Some 0.

(** ** Exceptions and outcomes *)

Inductive Exn :=
| HTTPException (status_code : Z) (detail : string)
| RequestValidationError (errors : list (string * string))
| AttributeError
| IndexError
| TypeError
| ValueError
| IntegrityError.

Inductive outcome (A : Type) :=
| Return (a : A)
| Raise (e : Exn).
Arguments Return {A} a.
Arguments Raise {A} e.

(** [a < b] on datetimes: two aware values compare as instants, two
    naive ones by their readings, a mixed pair raises. *)
Definition datetime_lt (a b : datetime) : outcome bool :=
  match tzinfo a, tzinfo b with
  | Some oa, Some ob => Return (ticks a - oa <? ticks b - ob)
  | None, None => Return (ticks a <? ticks b)
  | _, _ => Raise TypeError
  end.

(** ** Entities: [src/entities/url.py], [src/entities/click.py] *)

Module URLModel.
Record t := {
  id : Z;
  original_url : str;
  short_code : str;
  created_at : datetime;
  expires_at : option datetime;
  click_count : Z;
  last_checked : option datetime
}.
End URLModel.

Module ClickModel.
Record t := {
  id : Z;
  url_id : Z;
  ip_address : option str;
  user_agent : option str;
  referer : option str;
  clicked_at : datetime
}.
End ClickModel.

(** Modelled from the spec: the store that [src/database/core.py]
    sets up, which is not among the sources.  It is relational: two
    tables, here in store order, with an integer identity "assigned by
    the store on creation", here by two counters. *)
Record Db := {
  urls : list URLModel.t;
  clicks : list ClickModel.t;
  next_url_id : Z;
  next_click_id : Z
}.

Definition empty_db : Db :=
  {| urls := []; clicks := []; next_url_id := 1; next_click_id := 1 |}.

(** What the store returns for a page statement whose [OFFSET] or
    [LIMIT] is below zero, of the rows it holds.  [list_urls] passes
    both numbers on as they come, the store is not among the sources,
    and stores differ on this: SQLite reads a negative limit as no
    limit and a negative offset as none, PostgreSQL refuses the
    statement. *)
Class Store := {
  negative_page : Z -> Z -> list URLModel.t -> outcome (list URLModel.t)
}.

(** A store that reads negative numbers the way SQLite does, used to
    run examples. *)
Definition sqlite_store : Store :=
  {| negative_page := fun skip limit rows =>
       let rest := drop (Z.to_nat skip) rows in
       Return (if limit <? 0 then rest else take (Z.to_nat limit) rest) |}.

(** The statements a handler sends to the store. *)
Inductive Statement :=
| SelectUrlByCode (code : str)
| SelectUrlPage (skip limit : Z)
| SelectRecentClicks (url_id : Z)
| InsertUrl (code : str)
| UpdateUrlInsertClick (url_id : Z)
| DeleteUrl (url_id : Z).

(** ** The world of a request *)

Record World := {
  tables : Db;
  (** statements sent so far, oldest first *)
  journal : list Statement;
  (** the random generator: an arbitrary stream and the position in it *)
  entropy : nat -> nat;
  drawn : nat;
  (** the system clock, in microseconds UTC: successive readings *)
  clock : nat -> Z;
  clock_reads : nat
}.

Definition set_tables (w : World) (db : Db) : World :=
  {| tables := db; journal := journal w; entropy := entropy w; drawn := drawn w;
     clock := clock w; clock_reads := clock_reads w |}.

Definition log (st : Statement) (w : World) : World :=
  {| tables := tables w; journal := journal w ++ [st]; entropy := entropy w;
     drawn := drawn w; clock := clock w; clock_reads := clock_reads w |}.

(** Handlers: state passing with exceptions. *)
Definition M (A : Type) : Type := World -> outcome A * World.

Definition ret {A} (a : A) : M A := fun w => (Return a, w).
Definition raise {A} (e : Exn) : M A := fun w => (Raise e, w).
Definition bind {A B} (m : M A) (k : A -> M B) : M B :=
  fun w =>
    match m w with
    | (Return a, w') => k a w'
    | (Raise e, w') => (Raise e, w')
    end.
Definition lift {A} (o : outcome A) : M A := fun w => (o, w).

Notation "'do' x <- m ; k" := (bind m (fun x => k))
  (at level 10, x name, m at level 100, k at level 200).
Notation "'run' m ; k" := (bind m (fun _ => k))
  (at level 10, m at level 100, k at level 200).

(** [random.random()] scaled to an index below [n]. *)
Definition randbelow (n : nat) : M nat :=
  fun w =>
    (Return (entropy w (drawn w) mod n)%nat,
     {| tables := tables w; journal := journal w; entropy := entropy w;
        drawn := S (drawn w); clock := clock w; clock_reads := clock_reads w |}).

(** One reading of the system clock. *)
Definition read_clock : M Z :=
  fun w =>
    (Return (clock w (clock_reads w)),
     {| tables := tables w; journal := journal w; entropy := entropy w;
        drawn := drawn w; clock := clock w; clock_reads := S (clock_reads w) |}).

(** [datetime.now(timezone.utc)] *)
Definition datetime_now_utc : M datetime :=
  do t <- read_clock; ret {| ticks := t; tzinfo := timezone_utc |}.

(** [datetime.utcnow()] *)
Definition datetime_utcnow : M datetime :=
  do t <- read_clock; ret {| ticks := t; tzinfo := None |}.

(** ** [src/utils.py]: the code generator *)

Definition ascii_lowercase : str := py "abcdefghijklmnopqrstuvwxyz".
Definition ascii_uppercase : str := py "ABCDEFGHIJKLMNOPQRSTUVWXYZ".
Definition ascii_letters : str := ascii_lowercase ++ ascii_uppercase.
Definition digits : str := py "0123456789".

(** [population[i]] *)
Definition item (population : str) (i : nat) : M N :=
  match nth_error population i with
  | Some c => ret c
  | None => raise IndexError
  end.

(** [random.choices(population, k=k)]: [k] independent draws. *)
Fixpoint random_choices (population : str) (k : nat) : M str :=
  match k with
  | O => ret []
  | S k' =>
      do i <- randbelow (length population);
      do c <- item population i;
      do rest <- random_choices population k';
      ret (c :: rest)
  end.

(** [generate_short_code(length)]; [length] defaults to 6. *)
Definition generate_short_code (length : nat) : M str :=
  let characters := ascii_letters ++ digits in
  random_choices characters length.

(** ** [src/utils.py]: the URL validator *)

(** *** The pattern language of [re], as far as the validator uses it *)

Inductive set_item :=
| CharItem (c : N)
| RangeItem (lo hi : N).

Inductive regex :=
| Lit (c : N)                                (* a literal character *)
| SetOf (items : list set_item)              (* [...] *)
| Digit                                      (* \d *)
| NotSpace                                   (* \S *)
| Eps
| Seq (a b : regex)
| Alt (a b : regex)                          (* a|b *)
| Rep (lo : nat) (hi : option nat) (a : regex).  (* a{lo,hi}; ? + * *)

Definition opt (a : regex) : regex := Rep 0 (Some 1%nat) a.
Definition plus (a : regex) : regex := Rep 1 None a.

(** A literal run of characters. *)
Definition lits (s : str) : regex := fold_right (fun c r => Seq (Lit c) r) Eps s.

(** [str.isspace] on one character, the complement of [\S]. *)
Definition isspace (c : N) : bool :=
  (in_range 0x09 0x0D c || in_range 0x1C 0x20 c || (c =? 0x85) || (c =? 0xA0)
   || (c =? 0x1680) || in_range 0x2000 0x200A c || (c =? 0x2028) || (c =? 0x2029)
   || (c =? 0x202F) || (c =? 0x205F) || (c =? 0x3000))%N.

(** The lower-case mapping the matcher applies under [re.IGNORECASE].
    Only the code points that lower-case to an ASCII letter matter to a
    pattern written in ASCII: the upper-case letters, U+0130 and the
    Kelvin sign U+212A; every other code point lower-cases outside
    ASCII and is left as it is. *)
Definition sre_lower (x : N) : N :=
  (if ascii_upper x then x + 32
   else if x =? 0x130 then ch "i"
   else if x =? 0x212A then ch "k"
   else x)%N.

(** Lower-case letters that share their upper case with an ASCII
    letter: dotless i with [i], long s with [s]. *)
Definition case_fixes (lo : N) : list N :=
  (if lo =? ch "i" then [0x131] else if lo =? ch "s" then [0x17F] else [])%N.

(** The characters a literal of the pattern stands for when case is
    ignored, as lower-case code points. *)
Definition folded (c : N) : list N := sre_lower c :: case_fixes (sre_lower c).

Definition codepoints (lo hi : N) : list N :=
  map N.of_nat (seq (N.to_nat lo) (S (N.to_nat hi) - N.to_nat lo)).

Definition item_chars (it : set_item) : list N :=
  match it with
  | CharItem c => folded c
  | RangeItem lo hi => flat_map folded (codepoints lo hi)
  end.

Section Matcher.
Context `{PyLib}.

Definition lit_ok (c x : N) : bool := char_in (sre_lower x) (folded c).
Definition set_ok (items : list set_item) (x : N) : bool :=
  existsb (fun it => char_in (sre_lower x) (item_chars it)) items.
Definition digit_ok (x : N) : bool :=
  if isascii x then ascii_digit x else unicode_isdecimal x.
Definition notspace_ok (x : N) : bool := negb (isspace x).

Definition one (p : N -> bool) (s : str) (k : str -> bool) : bool :=
  match s with
  | x :: s' => if p x then k s' else false
  | [] => false
  end.

(** Exactly [n] rounds of [step], then [k]. *)
Fixpoint rep_exact (step : str -> (str -> bool) -> bool) (n : nat)
    (s : str) (k : str -> bool) : bool :=
  match n with
  | O => k s
  | S n' => step s (fun s' => rep_exact step n' s' k)
  end.

(** At most [n] further rounds of [step], the longest first. *)
Fixpoint rep_upto (step : str -> (str -> bool) -> bool) (n : nat)
    (s : str) (k : str -> bool) : bool :=
  match n with
  | O => k s
  | S n' => if step s (fun s' => rep_upto step n' s' k) then true else k s
  end.

(** The backtracking matcher: [rmatch r s k] holds when [r] matches a
    prefix of [s] and [k] accepts what is left.  An open-ended
    repetition runs at most once per remaining character. *)
Fixpoint rmatch (r : regex) (s : str) (k : str -> bool) : bool :=
  match r with
  | Lit c => one (lit_ok c) s k
  | SetOf items => one (set_ok items) s k
  | Digit => one digit_ok s k
  | NotSpace => one notspace_ok s k
  | Eps => k s
  | Seq a b => rmatch a s (fun s' => rmatch b s' k)
  | Alt a b => if rmatch a s k then true else rmatch b s k
  | Rep lo hi a =>
      rep_exact (rmatch a) lo s (fun s' =>
        rep_upto (rmatch a)
          (match hi with Some h => h - lo | None => length s' end)%nat s' k)
  end.

(** [$] without [re.MULTILINE]: at the end, or before a final newline. *)
Definition at_end (s : str) : bool :=
  match s with
  | [] => true
  | [c] => (c =? 10)%N
  | _ => false
  end.

(** [pattern.match(s)] for a pattern that ends in [$]; the leading
    [^] is implied by [match]. *)
Definition re_match (r : regex) (s : str) : bool := rmatch r s at_end.
End Matcher.

(** The pattern of [is_valid_url], piece by piece as in the source. *)
Definition alnum_set : regex := SetOf [RangeItem (ch "A") (ch "Z"); RangeItem (ch "0") (ch "9")].
Definition alnum_hyphen_set : regex :=
  SetOf [RangeItem (ch "A") (ch "Z"); RangeItem (ch "0") (ch "9"); CharItem (ch "-")].
Definition letter_set : regex := SetOf [RangeItem (ch "A") (ch "Z")].

(** [[A-Z0-9](?:[A-Z0-9-]{0,61}[A-Z0-9])?\.] *)
Definition label_dot : regex :=
  Seq alnum_set
    (Seq (opt (Seq (Rep 0 (Some 61%nat) alnum_hyphen_set) alnum_set))
       (Lit (ch "."))).

(** [(?:label\.)+[A-Z]{2,6}\.?] *)
Definition domain_re : regex :=
  Seq (plus label_dot) (Seq (Rep 2 (Some 6%nat) letter_set) (opt (Lit (ch ".")))).

(** [\d{1,3}\.\d{1,3}\.\d{1,3}\.\d{1,3}] *)
Definition octet_re : regex := Rep 1 (Some 3%nat) Digit.
Definition ipv4_re : regex :=
  Seq octet_re (Seq (Lit (ch "."))
    (Seq octet_re (Seq (Lit (ch "."))
      (Seq octet_re (Seq (Lit (ch ".")) octet_re))))).

Definition host_re : regex := Alt domain_re (Alt (lits (py "localhost")) ipv4_re).

(** [(?::\d+)?] *)
Definition port_re : regex := opt (Seq (Lit (ch ":")) (plus Digit)).

(** [(?:/?|[/?]\S+)] *)
Definition tail_re : regex :=
  Alt (opt (Lit (ch "/")))
      (Seq (SetOf [CharItem (ch "/"); CharItem (ch "?")]) (plus NotSpace)).

(** [https?://] *)
Definition scheme_re : regex :=
  Seq (lits (py "http")) (Seq (opt (Lit (ch "s"))) (lits (py "://"))).

Definition url_pattern : regex :=
  Seq scheme_re (Seq host_re (Seq port_re tail_re)).

(** *** [urllib.parse.urlparse], as far as the validator reads its result

    The model follows [urlsplit] of CPython 3.12 up to the point where
    the scheme and the network location are known; the remainder is
    what [urlparse] goes on to split into path, parameters, query and
    fragment. *)

Record ParseResult := { scheme : str; netloc : str; remainder : str }.

Definition scheme_chars : str :=
  py "abcdefghijklmnopqrstuvwxyzABCDEFGHIJKLMNOPQRSTUVWXYZ0123456789+-.".

(** The C0 control characters and the space, stripped from the left. *)
Definition c0_control_or_space : str := codepoints 0 32.

(** Tab, carriage return and newline, removed wherever they occur. *)
Definition unsafe_url_bytes : str := [9; 13; 10]%N.

Definition remove_chars (chars : str) (s : str) : str :=
  List.filter (fun c => negb (char_in c chars)) s.

Definition ascii_lower_str (s : str) : str :=
  map (fun c => if ascii_upper c then (c + 32)%N else c) s.

(** [_splitnetloc(url, start)] *)
Definition splitnetloc (url : str) (start : nat) : str * str :=
  let delim :=
    fold_left
      (fun delim c =>
         match find_char c (drop start url) with
         | Some j => Nat.min delim (start + j)
         | None => delim
         end)
      (py "/?#") (length url) in
  (take (delim - start) (drop start url), drop delim url).

(** [s.partition(c)[2]] and [s.partition(c)[0]] *)
Definition after_first (c : N) (s : str) : str :=
  match find_char c s with
  | Some i => drop (S i) s
  | None => []
  end.
Definition before_first (c : N) (s : str) : str :=
  match find_char c s with
  | Some i => take i s
  | None => s
  end.

Section UrlParse.
Context `{PyLib}.

(** [_checknetloc(netloc)] *)
Definition checknetloc (netloc : str) : outcome unit :=
  if bool_decide (netloc = []) || forallb isascii netloc then Return tt
  else
    let n := remove_chars (py "@:#?") netloc in
    let netloc2 := nfkc n in
    if str_eqb n netloc2 then Return tt
    else if existsb (fun c => char_in c netloc2) (py "/?#@:") then Raise ValueError
    else Return tt.

Definition split_scheme (url : str) : str * str :=
  match find_char (ch ":") url, url with
  | Some (S i'), c0 :: _ =>
      let i := S i' in
      if isascii c0 && ascii_letter c0 then
        if forallb (fun c => char_in c scheme_chars) (take i url)
        then (ascii_lower_str (take i url), drop (S i) url)
        else ([], url)
      else ([], url)
  | _, _ => ([], url)
  end.

Definition urlparse (url : str) : outcome ParseResult :=
  let url := lstrip c0_control_or_space url in
  let url := remove_chars unsafe_url_bytes url in
  let '(scheme, url) := split_scheme url in
  let split :=
    if str_eqb (take 2 url) (py "//") then
      let '(netloc, url) := splitnetloc url 2 in
      let lb := char_in (ch "[") netloc in
      let rb := char_in (ch "]") netloc in
      if (lb && negb rb) || (rb && negb lb) then Raise ValueError
      else if lb && rb then
        if bracketed_host_ok (before_first (ch "]") (after_first (ch "[") netloc))
        then Return (netloc, url)
        else Raise ValueError
      else Return (netloc, url)
    else Return ([], url) in
  match split with
  | Raise e => Raise e
  | Return (netloc, url) =>
      match checknetloc netloc with
      | Raise e => Raise e
      | Return _ => Return {| scheme := scheme; netloc := netloc; remainder := url |}
      end
  end.

(** Truth value of a string: non-empty. *)
Definition truthy (s : str) : bool := negb (bool_decide (s = [])).

Definition is_valid_url (url : str) : bool :=
  if negb (re_match url_pattern url) then false
  else
    match urlparse url with
    | Return result => forallb truthy [scheme result; netloc result]
    | Raise _ => false
    end.
End UrlParse.

(** ** [src/schemas/models.py] *)

Module URLCreate.
Record t := {
  original_url : str;
  custom_alias : option str;
  expires_at : option datetime
}.
End URLCreate.

Module URLResponse.
Record t := {
  id : Z;
  original_url : str;
  short_code : str;
  short_url : str;
  created_at : datetime;
  expires_at : option datetime;
  click_count : Z
}.
End URLResponse.

Module ClickResponse.
Record t := {
  id : Z;
  ip_address : option str;
  user_agent : option str;
  referer : option str;
  clicked_at : datetime
}.
End ClickResponse.

Module URLStats.
Record t := {
  id : Z;
  original_url : str;
  short_code : str;
  created_at : datetime;
  expires_at : option datetime;
  click_count : Z;
  last_accessed : option datetime;
  recent_clicks : list ClickResponse.t
}.
End URLStats.

Arguments HTTPException status_code detail%_string.

Section Schemas.
Context `{PyLib}.

(** The body of [URLCreate.validate_custom_alias] for a value that
    is not [None]: [all(c.isalnum() or c in '-_' for c in v)]. *)
Definition alias_chars_ok (v : str) : bool :=
  forallb (fun c => isalnum c || char_in c (py "-_")) v.

Definition validate_custom_alias (v : option str) : outcome (option str) :=
  match v with
  | Some a => if negb (alias_chars_ok a) then Raise ValueError else Return v
  | None => Return v
  end.

(** The [Field] constraints of [original_url]. *)
Definition original_url_errors (v : str) : list (string * string) :=
  if (length v <? 1)%nat then [("original_url", "string_too_short")%string]
  else if (2048 <? length v)%nat then [("original_url", "string_too_long")%string]
  else [].

(** The [Field] constraints of [custom_alias], then its validator. *)
Definition custom_alias_errors (v : option str) : list (string * string) :=
  match v with
  | None => []
  | Some a =>
      if (length a <? 3)%nat then [("custom_alias", "string_too_short")%string]
      else if (20 <? length a)%nat then [("custom_alias", "string_too_long")%string]
      else
        match validate_custom_alias v with
        | Raise _ => [("custom_alias", "value_error")%string]
        | Return _ => []
        end
  end.

(** Validation of a request body against [URLCreate]: every field
    is checked and the errors are collected. *)
Definition validate_URLCreate (body : URLCreate.t) : outcome URLCreate.t :=
  match original_url_errors (URLCreate.original_url body)
        ++ custom_alias_errors (URLCreate.custom_alias body) with
  | [] => Return body
  | errors => Raise (RequestValidationError errors)
  end.
End Schemas.

(** ** The store, as the handlers use it *)

(** [db.query(URLModel).filter(URLModel.short_code == code).first()] *)
Definition query_url_by_code (code : str) : M (option URLModel.t) :=
  fun w =>
    (Return (List.find (fun u => str_eqb (URLModel.short_code u) code) (urls (tables w))),
     log (SelectUrlByCode code) w).

(** A value written to a [Column(DateTime)] and read back.  The
    columns of both entities are declared without [timezone=True], so
    the store keeps the reading and no zone: what comes back is naive. *)
Definition stored (d : datetime) : datetime := replace_tzinfo d None.

(** [db.add(db_url); db.commit(); db.refresh(db_url)] for a new
    [URLModel(original_url, short_code, expires_at)]: the row is
    inserted with the column defaults ([created_at] now, [click_count]
    0, [last_checked] null) and the next primary key, unless the unique
    index on [short_code] rejects it.  [db.refresh] reloads the object
    from its row, so the times it then holds are the stored ones. *)
Definition add_commit_refresh (original_url short_code : str)
    (expires_at : option datetime) : M URLModel.t :=
  do created <- datetime_now_utc;
  fun w =>
    let db := tables w in
    if existsb (fun u => str_eqb (URLModel.short_code u) short_code) (urls db)
    then (Raise IntegrityError, log (InsertUrl short_code) w)
    else
      let db_url :=
        {| URLModel.id := next_url_id db;
           URLModel.original_url := original_url;
           URLModel.short_code := short_code;
           URLModel.created_at := stored created;
           URLModel.expires_at := option_map stored expires_at;
           URLModel.click_count := 0;
           URLModel.last_checked := None |} in
      (Return db_url,
       log (InsertUrl short_code)
         (set_tables w
            {| urls := urls db ++ [db_url]; clicks := clicks db;
               next_url_id := next_url_id db + 1;
               next_click_id := next_click_id db |})).

(** A [URLModel] instance held by a handler: the mapped columns, and
    the attribute [last_accessed] that the handler may set on the
    object although the entity maps no such column. *)
Record URLInstance := {
  columns : URLModel.t;
  last_accessed : option datetime
}.

Definition loaded (u : URLModel.t) : URLInstance :=
  {| columns := u; last_accessed := None |}.

Definition set_click_count (e : URLInstance) (n : Z) : URLInstance :=
  {| columns :=
       {| URLModel.id := URLModel.id (columns e);
          URLModel.original_url := URLModel.original_url (columns e);
          URLModel.short_code := URLModel.short_code (columns e);
          URLModel.created_at := URLModel.created_at (columns e);
          URLModel.expires_at := URLModel.expires_at (columns e);
          URLModel.click_count := n;
          URLModel.last_checked := URLModel.last_checked (columns e) |};
     last_accessed := last_accessed e |}.

Definition set_last_accessed (e : URLInstance) (d : datetime) : URLInstance :=
  {| columns := columns e; last_accessed := Some d |}.

(** A [ClickModel(...)] built by a handler, before it has a key. *)
Record NewClick := {
  new_url_id : Z;
  new_ip_address : option str;
  new_user_agent : option str;
  new_referer : option str
}.

(** [db.add(click); db.commit()] with a modified [url_entry] in the
    session: one transaction that writes the mapped columns of
    [url_entry] back to its row and inserts the click, [clicked_at]
    taking its default [datetime.utcnow()]. *)
Definition add_click_commit (url_entry : URLInstance) (click : NewClick) : M unit :=
  do clicked <- datetime_utcnow;
  fun w =>
    let db := tables w in
    let key := URLModel.id (columns url_entry) in
    let row :=
      {| ClickModel.id := next_click_id db;
         ClickModel.url_id := new_url_id click;
         ClickModel.ip_address := new_ip_address click;
         ClickModel.user_agent := new_user_agent click;
         ClickModel.referer := new_referer click;
         ClickModel.clicked_at := clicked |} in
    (Return tt,
     log (UpdateUrlInsertClick key)
       (set_tables w
          {| urls := map (fun u => if URLModel.id u =? key then columns url_entry else u)
                         (urls db);
             clicks := clicks db ++ [row];
             next_url_id := next_url_id db;
             next_click_id := next_click_id db + 1 |})).

(** [db.delete(url_entry); db.commit()]: the row goes, and with it,
    by the cascade of [URLModel.clicks], every click that refers to it. *)
Definition delete_commit (url_entry : URLModel.t) : M unit :=
  fun w =>
    let db := tables w in
    let key := URLModel.id url_entry in
    (Return tt,
     log (DeleteUrl key)
       (set_tables w
          {| urls := List.filter (fun u => negb (URLModel.id u =? key)) (urls db);
             clicks := List.filter (fun c => negb (ClickModel.url_id c =? key)) (clicks db);
             next_url_id := next_url_id db;
             next_click_id := next_click_id db |})).

(** [ORDER BY clicked_at DESC]: a row goes before every row that is
    not newer. *)
Definition newest_first (a b : ClickModel.t) : Prop :=
  ticks (ClickModel.clicked_at b) <= ticks (ClickModel.clicked_at a).

#[global] Instance newest_first_dec : RelDecision newest_first.
Proof. intros a b. unfold newest_first. apply Z_le_dec. Defined.

(** [db.query(ClickModel).filter(ClickModel.url_id == key)
       .order_by(ClickModel.clicked_at.desc()).limit(10).all()] *)
Definition query_recent_clicks (key : Z) : M (list ClickModel.t) :=
  fun w =>
    (Return
       (take 10
          (merge_sort newest_first
             (List.filter (fun c => ClickModel.url_id c =? key) (clicks (tables w))))),
     log (SelectRecentClicks key) w).

(** [db.query(URLModel).offset(skip).limit(limit).all()]: [skip] and
    [limit] are any integers; on those that are not negative every
    store agrees, the others are left to the store. *)
Definition query_url_page {store : Store} (skip limit : Z) : M (list URLModel.t) :=
  fun w =>
    (if (0 <=? skip) && (0 <=? limit)
     then Return (take (Z.to_nat limit) (drop (Z.to_nat skip) (urls (tables w))))
     else negative_page skip limit (urls (tables w)),
     log (SelectUrlPage skip limit) w).

(** ** [main.py]: the handlers *)

(** What a handler reads from the incoming request. *)
Record Request := {
  (** [str(request.base_url)] *)
  base_url : str;
  (** [request.client], reduced to its [host]; it may be absent *)
  client : option str;
  (** [request.headers], names in lower case *)
  headers : list (str * str)
}.

Definition headers_get (request : Request) (name : str) : option str :=
  option_map snd (List.find (fun kv => str_eqb (fst kv) name) (headers request)).

Record RedirectResponse := { url : str; status_code : Z }.

Definition max_attempts : nat := 10.

(** The loop [for _ in range(max_attempts): ... break ... else: raise]
    of [create_short_url], on the attempts that are left; each calls
    [generate_short_code()] with its default length. *)
Fixpoint generate_unique (attempts : nat) : M str :=
  match attempts with
  | O => raise (HTTPException 500 "Failed to generate unique short code")
  | S rest =>
      do short_code <- generate_short_code 6;
      do existing <- query_url_by_code short_code;
      match existing with
      | None => ret short_code
      | Some _ => generate_unique rest
      end
  end.

Section Handlers.
Context `{PyLib} {store : Store}.

Definition create_short_url (url_data : URLCreate.t) (request : Request)
    : M URLResponse.t :=
  if negb (is_valid_url (URLCreate.original_url url_data))
  then raise (HTTPException 400 "Invalid URL format")
  else
    do short_code <-
      match URLCreate.custom_alias url_data with
      | Some ((_ :: _) as custom_alias) =>
          if (length custom_alias <? 3)%nat || (20 <? length custom_alias)%nat
          then raise (HTTPException 400 "Custom alias must be between 3 and 20 characters")
          else
            do existing <- query_url_by_code custom_alias;
            match existing with
            | Some _ => raise (HTTPException 409 "Custom alias already exists")
            | None => ret custom_alias
            end
      | _ => generate_unique max_attempts
      end;
    do db_url <- add_commit_refresh (URLCreate.original_url url_data) short_code
                   (URLCreate.expires_at url_data);
    let base_url := rstrip (ch "/") (base_url request) in
    let short_url := base_url ++ py "/" ++ short_code in
    ret {| URLResponse.id := URLModel.id db_url;
           URLResponse.original_url := URLModel.original_url db_url;
           URLResponse.short_code := URLModel.short_code db_url;
           URLResponse.short_url := short_url;
           URLResponse.created_at := URLModel.created_at db_url;
           URLResponse.expires_at := URLModel.expires_at db_url;
           URLResponse.click_count := URLModel.click_count db_url |}.

(** [POST /api/v1/shorten]: the body is validated against
    [URLCreate] before the handler runs. *)
Definition post_shorten (body : URLCreate.t) (request : Request) : M URLResponse.t :=
  do url_data <- lift (validate_URLCreate body);
  create_short_url url_data request.

(** The expiry check of [redirect_to_url]. *)
Definition check_not_expired (url_entry : URLModel.t) : M unit :=
  match URLModel.expires_at url_entry with
  | Some expires =>
      do now <- datetime_now_utc;
      let expires :=
        match tzinfo expires with
        | None => replace_tzinfo expires timezone_utc
        | Some _ => expires
        end in
      do is_past <- lift (datetime_lt expires now);
      if is_past then raise (HTTPException 410 "Short URL has expired") else ret tt
  | None => ret tt
  end.

Definition redirect_to_url (short_code : str) (request : Request) : M RedirectResponse :=
  do found <- query_url_by_code short_code;
  match found with
  | None => raise (HTTPException 404 "Short URL not found")
  | Some row =>
      let url_entry := loaded row in
      run check_not_expired (columns url_entry);
      do host <- match client request with
                 | Some host => ret host
                 | None => raise AttributeError
                 end;
      let click :=
        {| new_url_id := URLModel.id (columns url_entry);
           new_ip_address := Some host;
           new_user_agent :=
             Some (default (py "Unknown") (headers_get request (py "user-agent")));
           new_referer := headers_get request (py "referer") |} in
      let url_entry :=
        set_click_count url_entry (URLModel.click_count (columns url_entry) + 1) in
      do now <- datetime_now_utc;
      let url_entry := set_last_accessed url_entry now in
      run add_click_commit url_entry click;
      ret {| url := URLModel.original_url (columns url_entry); status_code := 307 |}
  end.

Definition click_response (click : ClickModel.t) : ClickResponse.t :=
  {| ClickResponse.id := ClickModel.id click;
     ClickResponse.ip_address := ClickModel.ip_address click;
     ClickResponse.user_agent := ClickModel.user_agent click;
     ClickResponse.referer := ClickModel.referer click;
     ClickResponse.clicked_at := ClickModel.clicked_at click |}.

Definition get_url_stats (short_code : str) : M URLStats.t :=
  do found <- query_url_by_code short_code;
  match found with
  | None => raise (HTTPException 404 "Short URL not found")
  | Some url_entry =>
      do recent_clicks <- query_recent_clicks (URLModel.id url_entry);
      let clicks_data := map click_response recent_clicks in
      ret {| URLStats.id := URLModel.id url_entry;
             URLStats.original_url := URLModel.original_url url_entry;
             URLStats.short_code := URLModel.short_code url_entry;
             URLStats.created_at := URLModel.created_at url_entry;
             URLStats.expires_at := URLModel.expires_at url_entry;
             URLStats.click_count := URLModel.click_count url_entry;
             URLStats.last_accessed := URLModel.last_checked url_entry;
             URLStats.recent_clicks := clicks_data |}
  end.

Definition list_urls (skip limit : Z) : M (list URLResponse.t) :=
  do urls <- query_url_page skip limit;
  ret (map
         (fun url =>
            {| URLResponse.id := URLModel.id url;
               URLResponse.original_url := URLModel.original_url url;
               URLResponse.short_code := URLModel.short_code url;
               URLResponse.short_url := py "/" ++ URLModel.short_code url;
               URLResponse.created_at := URLModel.created_at url;
               URLResponse.expires_at := URLModel.expires_at url;
               URLResponse.click_count := URLModel.click_count url |})
         urls).

Definition delete_url (short_code : str) : M Z :=
  do found <- query_url_by_code short_code;
  match found with
  | None => raise (HTTPException 404 "Short URL not found")
  | Some url_entry =>
      run delete_commit url_entry;
      ret 204
  end.
End Handlers.

(** ** Vocabulary of the properties *)

(** The constraints the store keeps: primary keys are unique and were
    handed out by the counters, short codes are unique, and every click
    refers to a stored URL record. *)
Record db_ok (db : Db) : Prop := {
  url_ids_unique : NoDup (map URLModel.id (urls db));
  short_codes_unique : NoDup (map URLModel.short_code (urls db));
  url_ids_issued : Forall (fun u => URLModel.id u < next_url_id db) (urls db);
  click_ids_unique : NoDup (map ClickModel.id (clicks db));
  click_ids_issued : Forall (fun c => ClickModel.id c < next_click_id db) (clicks db);
  clicks_owned :
    Forall (fun c => In (ClickModel.url_id c) (map URLModel.id (urls db))) (clicks db)
}.

(** The row a code resolves to, if any. *)
Definition lookup (code : str) (db : Db) : option URLModel.t :=
  List.find (fun u => str_eqb (URLModel.short_code u) code) (urls db).

(** The click records owned by the URL record with key [key]. *)
Definition clicks_of (key : Z) (db : Db) : list ClickModel.t :=
  List.filter (fun c => ClickModel.url_id c =? key) (clicks db).

(** What the service keeps true on top of that: the counter of a
    record is the number of its click records. *)
Definition counts_ok (db : Db) : Prop :=
  Forall
    (fun u => URLModel.click_count u = Z.of_nat (length (clicks_of (URLModel.id u) db)))
    (urls db).

(** The instant a stored expiry stands for: an aware value as such, a
    naive one read as UTC. *)
Definition instant (d : datetime) : Z := ticks d - default 0 (tzinfo d).

(** The record is still good at clock reading [t]. *)
Definition unexpired_at (u : URLModel.t) (t : Z) : Prop :=
  match URLModel.expires_at u with
  | Some e => t <= instant e
  | None => True
  end.

(** The base address of a request, as [create_short_url] takes it:
    the base URL without the slashes it ends in. *)
Definition base_address (request : Request) : str :=
  rstrip (ch "/") (base_url request).

(** The world after [k] more draws from the random generator. *)
Definition after_draws (k : nat) (w : World) : World :=
  {| tables := tables w; journal := journal w; entropy := entropy w;
     drawn := (drawn w + k)%nat; clock := clock w; clock_reads := clock_reads w |}.

(** The world after the statements [sts] were sent. *)
Definition after_statements (sts : list Statement) (w : World) : World :=
  {| tables := tables w; journal := journal w ++ sts; entropy := entropy w;
     drawn := drawn w; clock := clock w; clock_reads := clock_reads w |}.

(** The 62 characters codes are drawn from. *)
Definition alphabet : str := ascii_letters ++ digits.

(** The [i]-th code the generator yields from world [w] on. *)
Definition candidate (w : World) (i : nat) : str :=
  map (fun j => nth (entropy w (drawn w + 6 * i + j) mod 62)%nat alphabet 0%N) (seq 0 6).

(** A record with this code is stored. *)
Definition taken (db : Db) (code : str) : bool :=
  existsb (fun u => str_eqb (URLModel.short_code u) code) (urls db).

(** [resolve] called once per request, in order; the first failure
    ends the run. *)
Fixpoint resolve_each (short_code : str) (requests : list Request)
    : M (list RedirectResponse) :=
  match requests with
  | [] => ret []
  | request :: rest =>
      do r <- redirect_to_url short_code request;
      do rs <- resolve_each short_code rest;
      ret (r :: rs)
  end.

(** *** The language of a pattern *)

(** [n] pieces, each in [L], one after the other. *)
Fixpoint power (L : str -> Prop) (n : nat) (s : str) : Prop :=
  match n with
  | O => s = []
  | S n' => exists s1 s2, s = s1 ++ s2 /\ L s1 /\ power L n' s2
  end.

Section Language.
Context `{PyLib}.

(** The strings a pattern matches in full. *)
Fixpoint lang (r : regex) (s : str) : Prop :=
  match r with
  | Lit c => exists x, s = [x] /\ lit_ok c x = true
  | SetOf items => exists x, s = [x] /\ set_ok items x = true
  | Digit => exists x, s = [x] /\ digit_ok x = true
  | NotSpace => exists x, s = [x] /\ notspace_ok x = true
  | Eps => s = []
  | Seq a b => exists s1 s2, s = s1 ++ s2 /\ lang a s1 /\ lang b s2
  | Alt a b => lang a s \/ lang b s
  | Rep lo hi a =>
      exists m, match hi with Some h => (m <= h - lo)%nat | None => True end /\
                power (lang a) (lo + m) s
  end.
End Language.

(** *** The characters of the pattern, spelled out *)

(** What [[A-Z]] stands for when case is ignored: the 52 ASCII
    letters, dotted capital I, dotless i, long s and the Kelvin sign. *)
Definition pattern_letter (c : N) : bool :=
  (ascii_letter c || (c =? 0x130) || (c =? 0x131) || (c =? 0x17F) || (c =? 0x212A))%N.

Definition pattern_alnum (c : N) : bool := pattern_letter c || ascii_digit c.

Definition pattern_alnum_hyphen (c : N) : bool := pattern_alnum c || (c =? ch "-")%N.

(** What the literal [p] of the pattern, a lower-case letter or a
    sign, stands for when case is ignored. *)
Definition caseless (p x : N) : bool :=
  ((x =? p) || (ascii_lower p && (x + 32 =? p))
   || ((p =? ch "s") && (x =? 0x17F))
   || ((p =? ch "i") && ((x =? 0x130) || (x =? 0x131)))
   || ((p =? ch "k") && (x =? 0x212A)))%N.

(** *** The shape of an accepted URL, in words *)

Section UrlShape.
Context `{PyLib}.

(** [s] is the literal [lit] up to case. *)
Definition caseless_str (lit s : str) : Prop :=
  Forall2 (fun p x => caseless p x = true) lit s.

Definition http_scheme (s : str) : Prop :=
  caseless_str (py "http") s \/ caseless_str (py "https") s.

(** A label of a host name: 1 to 63 letters, digits and hyphens,
    the first and the last not a hyphen. *)
Definition host_label (s : str) : Prop :=
  (1 <= length s <= 63)%nat /\
  forallb pattern_alnum_hyphen s = true /\
  (exists c t, s = c :: t /\ pattern_alnum c = true) /\
  (exists t c, s = t ++ [c] /\ pattern_alnum c = true).

(** A dotted host name: one or more labels, each followed by a dot,
    then a top-level label of 2 to 6 letters and possibly a dot. *)
Definition dotted_hostname (h : str) : Prop :=
  exists labels tld dot,
    labels <> [] /\ Forall host_label labels /\
    (2 <= length tld <= 6)%nat /\ forallb pattern_letter tld = true /\
    (dot = [] \/ dot = py ".") /\
    h = concat (map (fun l => l ++ py ".") labels) ++ tld ++ dot.

Definition localhost_name (h : str) : Prop := caseless_str (py "localhost") h.

(** One to three decimal digits. *)
Definition octet (s : str) : Prop :=
  (1 <= length s <= 3)%nat /\ forallb digit_ok s = true.

Definition dotted_quad (h : str) : Prop :=
  exists a b c d,
    octet a /\ octet b /\ octet c /\ octet d /\
    h = a ++ py "." ++ b ++ py "." ++ c ++ py "." ++ d.

Definition url_host (h : str) : Prop :=
  dotted_hostname h \/ localhost_name h \/ dotted_quad h.

(** Nothing, or a colon and one or more decimal digits. *)
Definition url_port (p : str) : Prop :=
  p = [] \/ exists ds, ds <> [] /\ forallb digit_ok ds = true /\ p = py ":" ++ ds.

(** Nothing, a lone slash, or a slash or question mark followed by
    one or more characters that are not white space. *)
Definition url_tail (t : str) : Prop :=
  t = [] \/ t = py "/" \/
  exists c rest,
    (c = ch "/" \/ c = ch "?") /\ rest <> [] /\
    forallb notspace_ok rest = true /\ t = c :: rest.

Definition absolute_http_url (u : str) : Prop :=
  exists sch host port tail,
    http_scheme sch /\ url_host host /\ url_port port /\ url_tail tail /\
    u = sch ++ py "://" ++ host ++ port ++ tail.

(** The first stage of the validator: the pattern matches, the
    final [$] allowing one newline after the URL. *)
Definition matches_url_pattern (u : str) : Prop :=
  absolute_http_url u \/ exists u', u = u' ++ [10%N] /\ absolute_http_url u'.

(** The second stage: the URL parses, with a scheme and a host. *)
Definition parses_with_scheme_and_host (u : str) : Prop :=
  exists r, urlparse u = Return r /\ scheme r <> [] /\ netloc r <> [].
End UrlShape.

(** *** Vocabulary of the matcher's proof *)

Section MatcherVocabulary.
Context `{PyLib}.

(** A matching step [step] computes the language [L]. *)
Definition computes (step : str -> (str -> bool) -> bool) (L : str -> Prop) : Prop :=
  forall s k, step s k = true <-> exists s1 s2, s = s1 ++ s2 /\ L s1 /\ k s2 = true.

(** A pattern for exactly one character, the ones [p] accepts. *)
Definition single (r : regex) (p : N -> bool) : Prop :=
  forall s, lang r s <-> exists x, s = [x] /\ p x = true.
End MatcherVocabulary.

Section AliasVocabulary.
Context `{PyLib}.

(** An alias the schema does not admit: too short, too long, or
    with a character that is neither alphanumeric nor [-] nor [_]. *)
Definition alias_malformed (a : str) : Prop :=
  (length a < 3)%nat \/ (20 < length a)%nat \/
  exists c, In c a /\ isalnum c = false /\ c <> ch "-" /\ c <> ch "_".

(** The same in the words of the specification: too short, too
    long, or with a character other than letters, digits, hyphen and
    underscore. *)
Definition alias_malformed_as_specified (a : str) : Prop :=
  (length a < 3)%nat \/ (20 < length a)%nat \/
  exists c, In c a /\ isalpha c = false /\ isdecimal c = false /\
            c <> ch "-" /\ c <> ch "_".
End AliasVocabulary.

(** The row as [redirect_to_url] writes it back. *)
Definition counted (u : URLModel.t) : URLModel.t :=
  columns (set_click_count (loaded u) (URLModel.click_count u + 1)).

Definition write_back (u : URLModel.t) (l : list URLModel.t) : list URLModel.t :=
  map (fun x => if URLModel.id x =? URLModel.id u then counted u else x) l.

(** The clicks [get_url_stats] returns for the record with key [key]. *)
Definition recent (key : Z) (db : Db) : list ClickModel.t :=
  take 10 (merge_sort newest_first (clicks_of key db)).

(** The service as a transition system: one request served. *)
Section ServiceVocabulary.
Context `{PyLib} {store : Store}.

Inductive served (w : World) : World -> Prop :=
| serve_shorten (body : URLCreate.t) (request : Request) :
    served w (snd (post_shorten body request w))
| serve_redirect (code : str) (request : Request) :
    served w (snd (redirect_to_url code request w))
| serve_stats (code : str) :
    served w (snd (get_url_stats code w))
| serve_list (skip limit : Z) :
    served w (snd (list_urls skip limit w))
| serve_delete (code : str) :
    served w (snd (delete_url code w)).
End ServiceVocabulary.

(** ** A small deployment, for the worked examples *)

Definition example_world : World :=
  {| tables := empty_db; journal := [];
     entropy := fun n => (7 * n + 3)%nat; drawn := 0;
     clock := fun n => 1000 + Z.of_nat n; clock_reads := 0 |}.

Definition example_request : Request :=
  {| base_url := py "http://testserver/";
     client := Some (py "203.0.113.7");
     headers := [(py "user-agent", py "curl/8.5")] |}.

(** [POST /api/v1/shorten] with the alias [blog].  The alias is none
    of the paths the application serves by itself ([/docs], [/redoc]
    and [/openapi.json], which [FastAPI(...)] registers before the
    handlers of [main.py]), so [GET /blog] reaches [redirect_to_url]. *)
Definition blog_body : URLCreate.t :=
  {| URLCreate.original_url := py "https://example.com/a";
     URLCreate.custom_alias := Some (py "blog");
     URLCreate.expires_at := None |}.

(** The same with an alias that contains a space. *)
Definition spaced_body : URLCreate.t :=
  {| URLCreate.original_url := py "https://example.com/a";
     URLCreate.custom_alias := Some (py "my blog");
     URLCreate.expires_at := None |}.

(** The same without an alias. *)
Definition plain_body : URLCreate.t :=
  {| URLCreate.original_url := py "https://example.com/a";
     URLCreate.custom_alias := None;
     URLCreate.expires_at := None |}.

(** An alias that expired before the clock started. *)
Definition stale_body : URLCreate.t :=
  {| URLCreate.original_url := py "https://example.com/old";
     URLCreate.custom_alias := Some (py "stale");
     URLCreate.expires_at := Some {| ticks := 500; tzinfo := None |} |}.

(** The rows these two requests create. *)
Definition blog_row : URLModel.t :=
  {| URLModel.id := 1;
     URLModel.original_url := py "https://example.com/a";
     URLModel.short_code := py "blog";
     URLModel.created_at := {| ticks := 1000; tzinfo := None |};
     URLModel.expires_at := None;
     URLModel.click_count := 0;
     URLModel.last_checked := None |}.

Definition stale_row : URLModel.t :=
  {| URLModel.id := 2;
     URLModel.original_url := py "https://example.com/old";
     URLModel.short_code := py "stale";
     URLModel.created_at := {| ticks := 1001; tzinfo := None |};
     URLModel.expires_at := Some {| ticks := 500; tzinfo := None |};
     URLModel.click_count := 0;
     URLModel.last_checked := None |}.

(** The world once [blog] and [stale] have been shortened. *)
Definition world_with_blog : World :=
  {| tables :=
       {| urls := [blog_row; stale_row]; clicks := [];
          next_url_id := 3; next_click_id := 1 |};
     journal := [SelectUrlByCode (py "blog"); InsertUrl (py "blog");
                 SelectUrlByCode (py "stale"); InsertUrl (py "stale")];
     entropy := entropy example_world; drawn := 0;
     clock := clock example_world; clock_reads := 2 |}.

(** What [example_world] answers to [plain_body]: the generator's
    first code is free. *)
Definition plain_response : URLResponse.t :=
  {| URLResponse.id := 1;
     URLResponse.original_url := py "https://example.com/a";
     URLResponse.short_code := py "dkryFM";
     URLResponse.short_url := py "http://testserver/dkryFM";
     URLResponse.created_at := {| ticks := 1000; tzinfo := None |};
     URLResponse.expires_at := None;
     URLResponse.click_count := 0 |}.

(** Three visits of [blog], one after the other. *)
Definition three_visits : list Request :=
  [example_request; example_request; example_request].

(** The row of [blog] and the clicks once the three were served. *)
Definition visited_row : URLModel.t :=
  {| URLModel.id := 1;
     URLModel.original_url := py "https://example.com/a";
     URLModel.short_code := py "blog";
     URLModel.created_at := {| ticks := 1000; tzinfo := None |};
     URLModel.expires_at := None;
     URLModel.click_count := 3;
     URLModel.last_checked := None |}.

Definition visit_click (key at_ticks : Z) : ClickModel.t :=
  {| ClickModel.id := key;
     ClickModel.url_id := 1;
     ClickModel.ip_address := Some (py "203.0.113.7");
     ClickModel.user_agent := Some (py "curl/8.5");
     ClickModel.referer := None;
     ClickModel.clicked_at := {| ticks := at_ticks; tzinfo := None |} |}.

Definition world_after_visits : World :=
  {| tables :=
       {| urls := [visited_row; stale_row];
          clicks := [visit_click 1 1003; visit_click 2 1005; visit_click 3 1007];
          next_url_id := 3; next_click_id := 4 |};
     journal := journal world_with_blog
                ++ [SelectUrlByCode (py "blog"); UpdateUrlInsertClick 1;
                    SelectUrlByCode (py "blog"); UpdateUrlInsertClick 1;
                    SelectUrlByCode (py "blog"); UpdateUrlInsertClick 1];
     entropy := entropy example_world; drawn := 0;
     clock := clock example_world; clock_reads := 8 |}.

(** A world whose generator yields [aaaaaa] forever, and a store that
    already holds that code. *)
Definition stuck_world : World :=
  {| tables :=
       {| urls :=
            [{| URLModel.id := 1;
                URLModel.original_url := py "https://example.com/a";
                URLModel.short_code := py "aaaaaa";
                URLModel.created_at := {| ticks := 1000; tzinfo := None |};
                URLModel.expires_at := None;
                URLModel.click_count := 0;
                URLModel.last_checked := None |}];
          clicks := []; next_url_id := 2; next_click_id := 1 |};
     journal := [];
     entropy := fun _ => 0%nat; drawn := 0;
     clock := clock example_world; clock_reads := 1 |}.

(** A request that reaches the handler without a client address. *)
Definition anonymous_request : Request :=
  {| base_url := py "http://testserver/"; client := None; headers := [] |}.

(** A request that followed a link, from a browser. *)
Definition browser_request : Request :=
  {| base_url := py "http://testserver/";
     client := Some (py "198.51.100.4");
     headers := [(py "referer", py "https://example.org/page");
                 (py "user-agent", py "Mozilla/5.0")] |}.

Section RecordVocabulary.
Context `{PyLib}.

(** A record as the endpoint stores it: a URL the validator accepts,
    within the length the schema allows, under a code the schema or
    the generator could have produced, and never marked as accessed. *)
Definition record_ok (u : URLModel.t) : Prop :=
  is_valid_url (URLModel.original_url u) = true /\
  (length (URLModel.original_url u) <= 2048)%nat /\
  (3 <= length (URLModel.short_code u) <= 20)%nat /\
  alias_chars_ok (URLModel.short_code u) = true /\
  URLModel.last_checked u = None.
End RecordVocabulary.

Section NetlocVocabulary.
Context `{PyLib}.

(** The characters the pattern lets into the host and the port. *)
Definition netloc_char (x : N) : bool :=
  (pattern_alnum_hyphen x || digit_ok x || (x =? ch ".") || (x =? ch ":"))%N.
End NetlocVocabulary.

(** What [example_world] answers to [blog_body]. *)
Definition blog_response : URLResponse.t :=
  {| URLResponse.id := 1;
     URLResponse.original_url := py "https://example.com/a";
     URLResponse.short_code := py "blog";
     URLResponse.short_url := py "http://testserver/blog";
     URLResponse.created_at := {| ticks := 1000; tzinfo := None |};
     URLResponse.expires_at := None;
     URLResponse.click_count := 0 |}.

(** Another URL under the alias [blog]. *)
Definition blog_again_body : URLCreate.t :=
  {| URLCreate.original_url := py "https://example.org/b";
     URLCreate.custom_alias := Some (py "blog");
     URLCreate.expires_at := None |}.

(** An alias of two characters, which the schema would not admit. *)
Definition short_alias_body : URLCreate.t :=
  {| URLCreate.original_url := py "https://example.com/a";
     URLCreate.custom_alias := Some (py "ab");
     URLCreate.expires_at := None |}.

(** The whole table of [world_with_blog], as [list_urls] returns it. *)
Definition blog_listing : list URLResponse.t :=
  [{| URLResponse.id := 1;
      URLResponse.original_url := py "https://example.com/a";
      URLResponse.short_code := py "blog";
      URLResponse.short_url := py "/blog";
      URLResponse.created_at := {| ticks := 1000; tzinfo := None |};
      URLResponse.expires_at := None;
      URLResponse.click_count := 0 |};
   {| URLResponse.id := 2;
      URLResponse.original_url := py "https://example.com/old";
      URLResponse.short_code := py "stale";
      URLResponse.short_url := py "/stale";
      URLResponse.created_at := {| ticks := 1001; tzinfo := None |};
      URLResponse.expires_at := Some {| ticks := 500; tzinfo := None |};
      URLResponse.click_count := 0 |}].

(** An alias with the vulgar fraction one half in it. *)
Definition half_alias : str := py "a" ++ [0xBD%N] ++ py "b".

Definition half_body : URLCreate.t :=
  {| URLCreate.original_url := py "https://example.com/a";
     URLCreate.custom_alias := Some half_alias;
     URLCreate.expires_at := None |}.

(** An expiry given with a zone: the reading 2000 at an offset of
    1500, so the instant 500, which lies before the clock of the
    example. *)
Definition zoned_body : URLCreate.t :=
  {| URLCreate.original_url := py "https://example.com/z";
     URLCreate.custom_alias := Some (py "later");
     URLCreate.expires_at := Some {| ticks := 2000; tzinfo := Some 1500 |} |}.

(** What [example_world] answers to [zoned_body] and to [stale_body]. *)
Definition later_response : URLResponse.t :=
  {| URLResponse.id := 1;
     URLResponse.original_url := py "https://example.com/z";
     URLResponse.short_code := py "later";
     URLResponse.short_url := py "http://testserver/later";
     URLResponse.created_at := {| ticks := 1000; tzinfo := None |};
     URLResponse.expires_at := Some {| ticks := 2000; tzinfo := None |};
     URLResponse.click_count := 0 |}.

Definition stale_response : URLResponse.t :=
  {| URLResponse.id := 1;
     URLResponse.original_url := py "https://example.com/old";
     URLResponse.short_code := py "stale";
     URLResponse.short_url := py "http://testserver/stale";
     URLResponse.created_at := {| ticks := 1000; tzinfo := None |};
     URLResponse.expires_at := Some {| ticks := 500; tzinfo := None |};
     URLResponse.click_count := 0 |}.

(** * Properties *)

(** Split a conjunction into its parts, and nothing else. *)
Ltac conjs := repeat match goal with |- _ /\ _ => split end.

(** ** The monad *)

Lemma bind_return {A B} (m : M A) (k : A -> M B) w a w' :
  m w = (Return a, w') -> bind m k w = k a w'.
Proof. intros E. unfold bind. now rewrite E. Qed.

Lemma bind_raise {A B} (m : M A) (k : A -> M B) w e w' :
  m w = (Raise e, w') -> bind m k w = (Raise e, w').
Proof. intros E. unfold bind. now rewrite E. Qed.

Lemma bind_inv {A B} (m : M A) (k : A -> M B) w b w' :
  bind m k w = (Return b, w') ->
  exists a w1, m w = (Return a, w1) /\ k a w1 = (Return b, w').
Proof.
  unfold bind. destruct (m w) as [[a|e] w1]; intros E.
  - now exists a, w1.
  - discriminate.
Qed.

(** ** Strings *)

Lemma str_eqb_eq (a b : str) : str_eqb a b = true <-> a = b.
Proof. unfold str_eqb. apply bool_decide_eq_true. Qed.

Lemma str_eqb_neq (a b : str) : str_eqb a b = false <-> a <> b.
Proof. unfold str_eqb. apply bool_decide_eq_false. Qed.

Lemma str_eqb_refl (a : str) : str_eqb a a = true.
Proof. now apply str_eqb_eq. Qed.

Lemma char_in_In (c : N) (s : str) : char_in c s = true <-> In c s.
Proof.
  unfold char_in. rewrite existsb_exists. split.
  - intros (x & Hx & E). apply N.eqb_eq in E. now subst.
  - intros Hin. exists c. split; [assumption | apply N.eqb_refl].
Qed.

(** ** The code generator *)

Lemma random_choices_run (population : str) (k : nat) (w : World) :
  population <> [] ->
  random_choices population k w =
    (Return (map (fun j => nth (entropy w (drawn w + j) mod length population)%nat
                              population 0%N) (seq 0 k)),
     after_draws k w).
Proof.
  intros Hne.
  assert (Hlen : (0 < length population)%nat) by (destruct population; [contradiction | cbn; lia]).
  revert w. induction k as [|k IH]; intros w.
  - cbn. unfold ret, after_draws. rewrite Nat.add_0_r. now destruct w.
  - cbn [random_choices]. unfold bind at 1. cbn [randbelow].
    unfold bind at 1. unfold item.
    destruct (nth_error population (entropy w (drawn w) mod length population)) as [c|] eqn:Ec.
    2:{ apply nth_error_None in Ec.
        pose proof (Nat.mod_upper_bound (entropy w (drawn w)) (length population)). lia. }
    apply (nth_error_nth _ _ 0%N) in Ec. unfold ret at 1.
    unfold bind at 1. rewrite IH. unfold ret. cbn [drawn entropy].
    f_equal.
    + f_equal. cbn [seq map]. rewrite Nat.add_0_r. f_equal; [now symmetry|].
      rewrite <- seq_shift, map_map. apply map_ext. intros j.
      now rewrite Nat.add_succ_comm.
    + unfold after_draws. cbn. f_equal. lia.
Qed.

Lemma generate_short_code_run (n : nat) (w : World) :
  generate_short_code n w =
    (Return (map (fun j => nth (entropy w (drawn w + j) mod 62)%nat alphabet 0%N) (seq 0 n)),
     after_draws n w).
Proof. unfold generate_short_code. now rewrite random_choices_run. Qed.

Lemma alphabet_size : length alphabet = 62%nat.
Proof. reflexivity. Qed.

Lemma alphabet_distinct : NoDup alphabet.
Proof. apply (bool_decide_unpack (NoDup alphabet)). now vm_compute. Qed.

(** Evaluate the character constants of the source to their code points. *)
Ltac ch_eval :=
  repeat match goal with
         | |- context [ch ?a] =>
             let v := eval vm_compute in (ch a) in change (ch a) with v
         | H : context [ch ?a] |- _ =>
             let v := eval vm_compute in (ch a) in change (ch a) with v in H
         end.

Lemma in_codepoints (lo hi c : N) : In c (codepoints lo hi) <-> (lo <= c <= hi)%N.
Proof.
  unfold codepoints. rewrite in_map_iff. split.
  - intros (n & <- & Hn). apply in_seq in Hn. lia.
  - intros Hc. exists (N.to_nat c). split; [apply N2Nat.id | apply in_seq; lia].
Qed.

(** A property of characters checked on every code point up to [hi]. *)
Lemma checked_upto (f : N -> bool) (hi : N) :
  forallb f (codepoints 0 hi) = true -> forall c, (c <= hi)%N -> f c = true.
Proof.
  intros F c Hc. rewrite forallb_forall in F. apply F, in_codepoints. lia.
Qed.

Lemma in_range_spec (lo hi c : N) : in_range lo hi c = true <-> (lo <= c <= hi)%N.
Proof. unfold in_range. rewrite andb_true_iff, !N.leb_le. tauto. Qed.

Lemma ascii_letter_spec (c : N) :
  ascii_letter c = true <-> (97 <= c <= 122)%N \/ (65 <= c <= 90)%N.
Proof.
  unfold ascii_letter, ascii_lower, ascii_upper. ch_eval.
  now rewrite orb_true_iff, !in_range_spec.
Qed.

Lemma ascii_digit_spec (c : N) : ascii_digit c = true <-> (48 <= c <= 57)%N.
Proof. unfold ascii_digit. ch_eval. apply in_range_spec. Qed.

Lemma alphabet_alphanumeric (c : N) :
  In c alphabet <-> ascii_letter c = true \/ ascii_digit c = true.
Proof.
  rewrite <- char_in_In, <- orb_true_iff.
  destruct (N.le_gt_cases c 127) as [Hc|Hc].
  - assert (E : Bool.eqb (char_in c alphabet) (ascii_letter c || ascii_digit c) = true).
    { revert c Hc. apply checked_upto. now vm_compute. }
    apply Bool.eqb_prop in E. now rewrite E.
  - split.
    + intros Hin. apply char_in_In in Hin.
      assert (F : forallb (fun x => (x <=? 127)%N) alphabet = true) by now vm_compute.
      rewrite forallb_forall in F. apply F, N.leb_le in Hin. lia.
    + rewrite orb_true_iff, ascii_letter_spec, ascii_digit_spec. lia.
Qed.

(** ** The store *)

Lemma query_url_by_code_run (code : str) (w : World) :
  query_url_by_code code w = (Return (lookup code (tables w)), log (SelectUrlByCode code) w).
Proof. reflexivity. Qed.

Lemma taken_lookup (db : Db) (code : str) :
  taken db code = match lookup code db with Some _ => true | None => false end.
Proof.
  unfold taken, lookup. induction (urls db) as [|u l IH]; cbn; [reflexivity|].
  destruct (str_eqb (URLModel.short_code u) code); [reflexivity | exact IH].
Qed.

Lemma lookup_some (code : str) (db : Db) (u : URLModel.t) :
  lookup code db = Some u -> In u (urls db) /\ URLModel.short_code u = code.
Proof.
  unfold lookup. intros E. apply find_some in E as [Hin Hc].
  now apply str_eqb_eq in Hc.
Qed.

Lemma lookup_none (code : str) (db : Db) :
  lookup code db = None <-> forall u, In u (urls db) -> URLModel.short_code u <> code.
Proof.
  unfold lookup. split.
  - intros E u Hin. apply str_eqb_neq. now apply (find_none _ _ E).
  - intros Hall. induction (urls db) as [|x l IH]; cbn; [reflexivity|].
    destruct (str_eqb (URLModel.short_code x) code) eqn:Ex.
    + apply str_eqb_eq in Ex. exfalso. apply (Hall x); [now left | assumption].
    + apply IH. intros u Hin. apply Hall. now right.
Qed.

(** With unique codes, the row found for a code is the only one
    carrying it. *)
Lemma lookup_unique (code : str) (db : Db) (u x : URLModel.t) :
  NoDup (map URLModel.short_code (urls db)) ->
  lookup code db = Some u -> In x (urls db) -> URLModel.short_code x = code -> x = u.
Proof.
  intros Hnd Hl Hx Hc. apply lookup_some in Hl as [Hu Huc].
  induction (urls db) as [|y l IH]; [contradiction|].
  cbn in Hnd. apply NoDup_cons in Hnd as [Hy Hnd].
  rewrite list_elem_of_In in Hy.
  destruct Hx as [->|Hx], Hu as [->|Hu]; try reflexivity.
  - exfalso. apply Hy. apply in_map_iff. exists u. split; [congruence | assumption].
  - exfalso. apply Hy. apply in_map_iff. exists x. split; [congruence | assumption].
  - now apply IH.
Qed.

Lemma add_commit_refresh_run (original_url short_code : str)
    (expires_at : option datetime) (w : World) :
  taken (tables w) short_code = false ->
  exists db_url w',
    add_commit_refresh original_url short_code expires_at w = (Return db_url, w') /\
    db_url =
      {| URLModel.id := next_url_id (tables w);
         URLModel.original_url := original_url;
         URLModel.short_code := short_code;
         URLModel.created_at := {| ticks := clock w (clock_reads w); tzinfo := None |};
         URLModel.expires_at := option_map stored expires_at;
         URLModel.click_count := 0;
         URLModel.last_checked := None |} /\
    urls (tables w') = urls (tables w) ++ [db_url] /\
    clicks (tables w') = clicks (tables w) /\
    next_url_id (tables w') = next_url_id (tables w) + 1 /\
    next_click_id (tables w') = next_click_id (tables w) /\
    journal w' = journal w ++ [InsertUrl short_code] /\
    drawn w' = drawn w /\ entropy w' = entropy w /\
    clock w' = clock w /\ clock_reads w' = S (clock_reads w).
Proof.
  intros Hfree. unfold add_commit_refresh, bind, datetime_now_utc, bind, read_clock, ret.
  cbn. unfold taken in Hfree. rewrite Hfree.
  eexists _, _. split; [reflexivity|]. cbn. repeat split; reflexivity.
Qed.

(** ** The retry loop of [create_short_url] *)

Lemma candidate_0 (w : World) :
  map (fun j => nth (entropy w (drawn w + j) mod 62)%nat alphabet 0%N) (seq 0 6)
  = candidate w 0.
Proof.
  unfold candidate. apply map_ext. intros j. now rewrite Nat.mul_0_r, Nat.add_0_r.
Qed.

Lemma candidate_shift (w : World) (sts : list Statement) (i : nat) :
  candidate (after_statements sts (after_draws 6 w)) i = candidate w (S i).
Proof.
  unfold candidate. cbn [drawn entropy after_statements after_draws].
  apply map_ext. intros j. do 3 f_equal. lia.
Qed.

Lemma generate_unique_step (n : nat) (w : World) :
  generate_unique (S n) w =
    match lookup (candidate w 0) (tables w) with
    | None =>
        (Return (candidate w 0),
         after_statements [SelectUrlByCode (candidate w 0)] (after_draws 6 w))
    | Some _ =>
        generate_unique n
          (after_statements [SelectUrlByCode (candidate w 0)] (after_draws 6 w))
    end.
Proof.
  cbn [generate_unique]. unfold bind at 1. rewrite generate_short_code_run, candidate_0.
  unfold bind at 1. rewrite query_url_by_code_run. cbn [tables after_draws].
  destruct (lookup (candidate w 0) (tables w)); reflexivity.
Qed.

Lemma after_statements_draws (a b : list Statement) (k l : nat) (w : World) :
  after_statements b (after_draws l (after_statements a (after_draws k w)))
  = after_statements (a ++ b) (after_draws (k + l) w).
Proof.
  unfold after_statements, after_draws. cbn. f_equal.
  - now rewrite app_assoc.
  - lia.
Qed.

(** The first candidate that is free is returned, after one draw of
    six characters and one lookup per candidate tried. *)
Lemma generate_unique_found (n i : nat) (w : World) :
  (i < n)%nat ->
  (forall j, (j < i)%nat -> taken (tables w) (candidate w j) = true) ->
  taken (tables w) (candidate w i) = false ->
  generate_unique n w =
    (Return (candidate w i),
     after_statements (map (fun j => SelectUrlByCode (candidate w j)) (seq 0 (S i)))
       (after_draws (6 * S i) w)).
Proof.
  revert i w. induction n as [|n IH]; intros i w Hi Hbefore Hfree; [lia|].
  rewrite generate_unique_step. destruct i as [|i].
  - rewrite taken_lookup in Hfree.
    destruct (lookup (candidate w 0) (tables w)); [discriminate | reflexivity].
  - pose proof (Hbefore 0%nat ltac:(lia)) as H0. rewrite taken_lookup in H0.
    destruct (lookup (candidate w 0) (tables w)); [|discriminate].
    rewrite (IH i).
    + rewrite candidate_shift, after_statements_draws. f_equal. f_equal.
      * change (seq 0 (S (S i))) with (0%nat :: seq 1 (S i)).
        cbn [map app]. f_equal. rewrite <- seq_shift, map_map.
        apply map_ext. intros j. now rewrite candidate_shift.
      * f_equal. lia.
    + lia.
    + intros j Hj. rewrite candidate_shift. cbn [tables after_statements after_draws].
      apply Hbefore. lia.
    + rewrite candidate_shift. exact Hfree.
Qed.

(** When every candidate is taken the loop runs out. *)
Lemma generate_unique_exhausted (n : nat) (w : World) :
  (forall j, (j < n)%nat -> taken (tables w) (candidate w j) = true) ->
  generate_unique n w =
    (Raise (HTTPException 500 "Failed to generate unique short code"),
     after_statements (map (fun j => SelectUrlByCode (candidate w j)) (seq 0 n))
       (after_draws (6 * n) w)).
Proof.
  revert w. induction n as [|n IH]; intros w Hall.
  - cbn. unfold raise, after_statements, after_draws. cbn.
    rewrite app_nil_r, Nat.add_0_r. now destruct w.
  - rewrite generate_unique_step.
    pose proof (Hall 0%nat ltac:(lia)) as H0. rewrite taken_lookup in H0.
    destruct (lookup (candidate w 0) (tables w)); [|discriminate].
    rewrite IH.
    + rewrite after_statements_draws. f_equal. f_equal.
      * change (seq 0 (S n)) with (0%nat :: seq 1 n).
        cbn [map app]. f_equal. rewrite <- seq_shift, map_map.
        apply map_ext. intros j. now rewrite candidate_shift.
      * f_equal. lia.
    + intros j Hj. rewrite candidate_shift. cbn [tables after_statements after_draws].
      apply Hall. lia.
Qed.

Lemma candidate_length (w : World) (i : nat) : length (candidate w i) = 6%nat.
Proof. reflexivity. Qed.

Lemma candidate_alphabet (w : World) (i : nat) (c : N) :
  In c (candidate w i) -> In c alphabet.
Proof.
  unfold candidate. intros Hin. apply in_map_iff in Hin as (j & <- & _).
  apply nth_In. rewrite alphabet_size. apply Nat.mod_upper_bound. lia.
Qed.

(** Whatever the loop returns is one of the first [n] candidates. *)
Lemma generate_unique_returns (n : nat) (w w' : World) (code : str) :
  generate_unique n w = (Return code, w') ->
  exists i, (i < n)%nat /\ code = candidate w i.
Proof.
  revert w. induction n as [|n IH]; intros w E.
  - discriminate.
  - rewrite generate_unique_step in E.
    destruct (lookup (candidate w 0) (tables w)).
    + apply IH in E as (i & Hi & ->). exists (S i). split; [lia|].
      apply candidate_shift.
    + injection E as <- _. exists 0%nat. split; [lia | reflexivity].
Qed.

Lemma add_commit_refresh_inv (original_url short_code : str)
    (expires_at : option datetime) (w w' : World) (db_url : URLModel.t) :
  add_commit_refresh original_url short_code expires_at w = (Return db_url, w') ->
  URLModel.short_code db_url = short_code /\
  URLModel.original_url db_url = original_url /\
  URLModel.click_count db_url = 0 /\
  taken (tables w) short_code = false.
Proof.
  unfold add_commit_refresh, bind, datetime_now_utc, bind, read_clock, ret. cbn.
  unfold taken.
  destruct (existsb _ _); intros E; [discriminate|].
  injection E as <- _. now cbn.
Qed.

(** ** Claims about [create_short_url] *)

Section Shorten.
Context `{PyLib}.

(** What a successful call is made of: a code was chosen, the row
    was inserted under it, and the response copies the row. *)
Lemma create_short_url_inv (url_data : URLCreate.t) (request : Request)
    (w w' : World) (resp : URLResponse.t) :
  create_short_url url_data request w = (Return resp, w') ->
  exists short_code w1 db_url,
    add_commit_refresh (URLCreate.original_url url_data) short_code
      (URLCreate.expires_at url_data) w1 = (Return db_url, w') /\
    (URLCreate.custom_alias url_data = None ->
     generate_unique max_attempts w = (Return short_code, w1)) /\
    URLResponse.short_code resp = URLModel.short_code db_url /\
    URLResponse.short_url resp
      = rstrip (ch "/") (base_url request) ++ py "/" ++ short_code.
Proof.
  unfold create_short_url.
  destruct (is_valid_url (URLCreate.original_url url_data)); cbn [negb]; [|discriminate].
  intros E. apply bind_inv in E as (short_code & w1 & Hcode & E).
  apply bind_inv in E as (db_url & w2 & Hadd & E).
  unfold ret in E. injection E as <- <-.
  exists short_code, w1, db_url. repeat split; try assumption.
  intros Hnone. now rewrite Hnone in Hcode.
Qed.

(** C9: [generate_short_code(length)] returns [length] characters of
    the alphabet, the alphabet is the 62 ASCII letters and digits, and
    a successful [create_short_url] without custom alias returns a
    code of 6 characters of that alphabet. *)
Theorem generated_code_shape :
  (length alphabet = 62%nat /\ NoDup alphabet /\
   forall c, In c alphabet <-> ascii_letter c = true \/ ascii_digit c = true) /\
  (forall (n : nat) (w : World),
     exists code,
       generate_short_code n w = (Return code, after_draws n w) /\
       length code = n /\ (forall c, In c code -> In c alphabet)) /\
  (forall (url_data : URLCreate.t) (request : Request) (w w' : World)
          (resp : URLResponse.t),
     URLCreate.custom_alias url_data = None ->
     create_short_url url_data request w = (Return resp, w') ->
     length (URLResponse.short_code resp) = 6%nat /\
     forall c, In c (URLResponse.short_code resp) -> In c alphabet).
Proof.
  split; [|split].
  - split; [apply alphabet_size | split; [apply alphabet_distinct|]].
    apply alphabet_alphanumeric.
  - intros n w. eexists. split; [apply generate_short_code_run | split].
    + now rewrite length_map, length_seq.
    + intros c Hin. apply in_map_iff in Hin as (j & <- & _).
      apply nth_In. rewrite alphabet_size. apply Nat.mod_upper_bound. lia.
  - intros url_data request w w' resp Hnone E.
    apply create_short_url_inv in E as (code & w1 & db_url & Hadd & Hgen & Hc & _).
    apply add_commit_refresh_inv in Hadd as (Hcode & _).
    specialize (Hgen Hnone). apply generate_unique_returns in Hgen as (i & _ & ->).
    rewrite Hc, Hcode. split; [apply candidate_length | apply candidate_alphabet].
Qed.

(** The short URL of a new record is absolute. *)
Lemma create_short_url_short_url (url_data : URLCreate.t) (request : Request)
    (w w' : World) (resp : URLResponse.t) :
  create_short_url url_data request w = (Return resp, w') ->
  URLResponse.short_url resp
    = rstrip (ch "/") (base_url request) ++ py "/" ++ URLResponse.short_code resp.
Proof.
  intros E. apply create_short_url_inv in E as (code & w1 & db_url & Hadd & _ & Hc & Hs).
  apply add_commit_refresh_inv in Hadd as (Hcode & _).
  now rewrite Hs, Hc, Hcode.
Qed.
End Shorten.

Section ShortenRetry.
Context `{PyLib}.

(** C4: without a custom alias, the handler draws candidate codes
    one at a time and looks each up; the first that is free becomes
    the code of the new record, after at most ten draws; when the
    first ten are all taken it raises the 500 error and inserts
    nothing. *)
Theorem generation_bounded_by_ten_attempts
    (url_data : URLCreate.t) (request : Request) (w : World) :
  is_valid_url (URLCreate.original_url url_data) = true ->
  URLCreate.custom_alias url_data = None ->
  (forall i,
     (i < 10)%nat ->
     (forall j, (j < i)%nat -> taken (tables w) (candidate w j) = true) ->
     taken (tables w) (candidate w i) = false ->
     exists resp db_url w',
       create_short_url url_data request w = (Return resp, w') /\
       URLResponse.short_code resp = candidate w i /\
       URLModel.short_code db_url = candidate w i /\
       urls (tables w') = urls (tables w) ++ [db_url] /\
       drawn w' = (drawn w + 6 * S i)%nat /\
       journal w' =
         journal w ++ map (fun j => SelectUrlByCode (candidate w j)) (seq 0 (S i))
                   ++ [InsertUrl (candidate w i)]) /\
  ((forall j, (j < 10)%nat -> taken (tables w) (candidate w j) = true) ->
   exists w',
     create_short_url url_data request w =
       (Raise (HTTPException 500 "Failed to generate unique short code"), w') /\
     tables w' = tables w /\
     drawn w' = (drawn w + 60)%nat /\
     journal w' =
       journal w ++ map (fun j => SelectUrlByCode (candidate w j)) (seq 0 10)).
Proof.
  intros Hvalid Hnone. split.
  - intros i Hi Hbefore Hfree.
    pose proof (generate_unique_found 10 i w Hi Hbefore Hfree) as Hgen.
    set (w1 := after_statements _ _) in Hgen.
    destruct (add_commit_refresh_run (URLCreate.original_url url_data) (candidate w i)
                (URLCreate.expires_at url_data) w1 Hfree)
      as (db_url & w' & Hadd & Hrow & Hurls & _ & _ & _ & Hj & Hd & _).
    eexists _, db_url, w'. split; [|split; [|split; [|split; [|split]]]].
    + unfold create_short_url. rewrite Hvalid, Hnone. cbn [negb].
      unfold bind at 1. fold max_attempts in Hgen. rewrite Hgen.
      unfold bind at 1. rewrite Hadd. reflexivity.
    + cbn. now rewrite Hrow.
    + now rewrite Hrow.
    + exact Hurls.
    + exact Hd.
    + rewrite Hj. subst w1. cbn [journal after_statements after_draws].
      now rewrite <- app_assoc.
  - intros Hall.
    pose proof (generate_unique_exhausted 10 w Hall) as Hgen.
    eexists. split; [|split; [|split]].
    + unfold create_short_url. rewrite Hvalid, Hnone. cbn [negb].
      unfold bind at 1. fold max_attempts in Hgen. rewrite Hgen. reflexivity.
    + reflexivity.
    + reflexivity.
    + reflexivity.
Qed.
End ShortenRetry.

(** ** Claims about the request schema *)

Section AliasValidation.
Context `{PyLib}.

Lemma alias_chars_ok_false (a : str) :
  (exists c, In c a /\ isalnum c = false /\ c <> ch "-" /\ c <> ch "_") ->
  alias_chars_ok a = false.
Proof.
  intros (c & Hin & Hal & Hh & Hu). unfold alias_chars_ok.
  apply not_true_is_false. intros F. rewrite forallb_forall in F.
  specialize (F c Hin). rewrite Hal in F. cbn in F.
  apply orb_true_iff in F as [F|F].
  - apply N.eqb_eq in F. now apply Hh.
  - apply orb_true_iff in F as [F|F]; [|discriminate].
    apply N.eqb_eq in F. now apply Hu.
Qed.

Lemma custom_alias_errors_malformed (a : str) :
  alias_malformed a ->
  exists kind, custom_alias_errors (Some a) = [("custom_alias", kind)%string].
Proof.
  intros Hbad. unfold custom_alias_errors.
  destruct (length a <? 3)%nat eqn:Hshort; [now eexists|].
  destruct (20 <? length a)%nat eqn:Hlong; [now eexists|].
  apply Nat.ltb_ge in Hshort. apply Nat.ltb_ge in Hlong.
  destruct Hbad as [Hs|[Hl|Hc]]; [lia | lia |].
  unfold validate_custom_alias. rewrite (alias_chars_ok_false a Hc). now eexists.
Qed.

(** C5, as amended: a body whose custom alias is too short, too
    long, or holds a character that [str.isalnum] rejects and that is
    neither [-] nor [_], is rejected by validation with an error on
    [custom_alias]; the world is left as it was, so no statement
    reached the store. *)
Theorem malformed_alias_rejected_before_store
    (body : URLCreate.t) (request : Request) (w : World) (a : str) :
  URLCreate.custom_alias body = Some a ->
  alias_malformed a ->
  exists errors kind,
    post_shorten body request w = (Raise (RequestValidationError errors), w) /\
    In ("custom_alias"%string, kind) errors.
Proof.
  intros Ha Hbad.
  destruct (custom_alias_errors_malformed a Hbad) as (kind & Herr).
  unfold post_shorten, bind, lift, validate_URLCreate. rewrite Ha, Herr.
  destruct (original_url_errors (URLCreate.original_url body)) as [|e es]; cbn.
  - exists [("custom_alias"%string, kind)], kind. split; [reflexivity | now left].
  - eexists _, kind. split; [reflexivity|]. right. apply in_or_app. right. now left.
Qed.

(** The handler's own length check also comes before any lookup. *)
Lemma create_short_url_alias_length (url_data : URLCreate.t) (request : Request)
    (w : World) (a : str) :
  is_valid_url (URLCreate.original_url url_data) = true ->
  URLCreate.custom_alias url_data = Some a ->
  a <> [] ->
  (length a < 3)%nat \/ (20 < length a)%nat ->
  create_short_url url_data request w =
    (Raise (HTTPException 400 "Custom alias must be between 3 and 20 characters"), w).
Proof.
  intros Hvalid Ha Hne Hlen. unfold create_short_url.
  rewrite Hvalid, Ha. cbn [negb]. destruct a as [|c a]; [contradiction|].
  unfold bind at 1.
  replace ((length (c :: a) <? 3)%nat || (20 <? length (c :: a))%nat) with true.
  - reflexivity.
  - symmetry. apply orb_true_iff. rewrite !Nat.ltb_lt. exact Hlen.
Qed.
End AliasValidation.

(** ** Rows under update and delete *)

Lemma unique_by_key {A B} (f : A -> B) (l : list A) (a b : A) :
  NoDup (map f l) -> In a l -> In b l -> f a = f b -> a = b.
Proof.
  induction l as [|y l IH]; intros Hnd Ha Hb E; [contradiction|].
  cbn in Hnd. apply NoDup_cons in Hnd as [Hy Hnd]. rewrite list_elem_of_In in Hy.
  destruct Ha as [->|Ha], Hb as [->|Hb]; try reflexivity.
  - exfalso. apply Hy. apply in_map_iff. exists b. now split.
  - exfalso. apply Hy. apply in_map_iff. exists a. now split.
  - now apply IH.
Qed.

Lemma write_back_keeps {B} (f : URLModel.t -> B) (u : URLModel.t) (l : list URLModel.t) :
  (forall x, In x l -> URLModel.id x = URLModel.id u -> x = u) ->
  f (counted u) = f u ->
  map f (write_back u l) = map f l.
Proof.
  intros Huniq Hf. unfold write_back. rewrite map_map. apply map_ext_in.
  intros x Hx. destruct (Z.eqb_spec (URLModel.id x) (URLModel.id u)) as [E|E].
  - rewrite Hf. now rewrite (Huniq x Hx E).
  - reflexivity.
Qed.

Lemma write_back_lookup (code : str) (u : URLModel.t) (l : list URLModel.t) :
  (forall x, In x l -> URLModel.id x = URLModel.id u -> x = u) ->
  List.find (fun x => str_eqb (URLModel.short_code x) code) l = Some u ->
  List.find (fun x => str_eqb (URLModel.short_code x) code) (write_back u l)
    = Some (counted u).
Proof.
  intros Huniq. induction l as [|x l IH]; cbn; [discriminate|].
  destruct (str_eqb (URLModel.short_code x) code) eqn:Ex.
  - intros [= ->]. rewrite Z.eqb_refl. cbn. now rewrite Ex.
  - intros Hfind.
    destruct (Z.eqb_spec (URLModel.id x) (URLModel.id u)) as [E|E].
    + apply Huniq in E; [|now left]. subst x.
      apply find_some in Hfind as [_ Hu]. congruence.
    + rewrite Ex. apply IH; [|assumption]. intros y Hy. apply Huniq. now right.
Qed.

Lemma write_back_other (u x : URLModel.t) (l : list URLModel.t) :
  URLModel.id x <> URLModel.id u -> In x l -> In x (write_back u l).
Proof.
  intros Hne Hin. unfold write_back. apply in_map_iff. exists x. split; [|assumption].
  destruct (Z.eqb_spec (URLModel.id x) (URLModel.id u)); [contradiction | reflexivity].
Qed.

Lemma clicks_of_app (key : Z) (db : Db) (c : ClickModel.t) (l : list ClickModel.t) :
  clicks db = l ++ [c] ->
  ClickModel.url_id c = key ->
  clicks_of key db = List.filter (fun c => ClickModel.url_id c =? key) l ++ [c].
Proof.
  intros E Hc. unfold clicks_of. rewrite E, List.filter_app. cbn.
  now rewrite Hc, Z.eqb_refl.
Qed.

(** ** Claims about [redirect_to_url] *)

Lemma check_not_expired_ok (u : URLModel.t) (w : World) :
  unexpired_at u (clock w (clock_reads w)) ->
  exists w',
    check_not_expired u w = (Return tt, w') /\
    tables w' = tables w /\ journal w' = journal w /\
    clock w' = clock w /\ (clock_reads w <= clock_reads w')%nat /\
    entropy w' = entropy w /\ drawn w' = drawn w.
Proof.
  unfold unexpired_at, check_not_expired, instant.
  destruct (URLModel.expires_at u) as [e|].
  - intros Hle. unfold bind at 1. unfold datetime_now_utc, bind, read_clock, ret, lift.
    cbn. destruct e as [t [o|]]; cbn in *.
    + replace (t - o <? clock w (clock_reads w) - 0) with false
        by (symmetry; apply Z.ltb_ge; lia).
      eexists. split; [reflexivity|]. cbn. repeat split; lia.
    + replace (t - 0 <? clock w (clock_reads w) - 0) with false
        by (symmetry; apply Z.ltb_ge; lia).
      eexists. split; [reflexivity|]. cbn. repeat split; lia.
  - intros _. exists w. unfold ret. repeat split; lia.
Qed.

Lemma check_not_expired_past (u : URLModel.t) (e : datetime) (w : World) :
  URLModel.expires_at u = Some e ->
  instant e < clock w (clock_reads w) ->
  exists w',
    check_not_expired u w = (Raise (HTTPException 410 "Short URL has expired"), w') /\
    tables w' = tables w /\ journal w' = journal w.
Proof.
  unfold check_not_expired, instant. intros -> Hlt.
  unfold bind at 1. unfold datetime_now_utc, bind, read_clock, ret, lift.
  cbn. destruct e as [t [o|]]; cbn in *.
  - replace (t - o <? clock w (clock_reads w) - 0) with true
      by (symmetry; apply Z.ltb_lt; lia).
    eexists. split; [reflexivity|]. now cbn.
  - replace (t - 0 <? clock w (clock_reads w) - 0) with true
      by (symmetry; apply Z.ltb_lt; lia).
    eexists. split; [reflexivity|]. now cbn.
Qed.

(** If the check lets the request through, nothing but the clock has
    moved. *)
Lemma check_not_expired_inv (u : URLModel.t) (w w' : World) :
  check_not_expired u w = (Return tt, w') ->
  tables w' = tables w /\ journal w' = journal w /\ clock w' = clock w.
Proof.
  unfold check_not_expired. destruct (URLModel.expires_at u) as [e|].
  - unfold bind at 1. unfold datetime_now_utc, bind, read_clock, ret, lift. cbn.
    destruct (datetime_lt _ _) as [[|]|]; cbn; intros E; try discriminate.
    injection E as <-. now cbn.
  - unfold ret. intros [= <-]. now repeat split.
Qed.

(** What a successful [redirect_to_url] has done. *)
Lemma redirect_to_url_inv (code : str) (request : Request) (w w' : World)
    (r : RedirectResponse) :
  redirect_to_url code request w = (Return r, w') ->
  exists u host click,
    lookup code (tables w) = Some u /\
    client request = Some host /\
    r = {| url := URLModel.original_url u; status_code := 307 |} /\
    urls (tables w') = write_back u (urls (tables w)) /\
    clicks (tables w') = clicks (tables w) ++ [click] /\
    ClickModel.url_id click = URLModel.id u /\
    ClickModel.id click = next_click_id (tables w) /\
    ClickModel.ip_address click = Some host /\
    next_url_id (tables w') = next_url_id (tables w) /\
    next_click_id (tables w') = next_click_id (tables w) + 1 /\
    clock w' = clock w.
Proof.
  unfold redirect_to_url. intros E.
  apply bind_inv in E as (found & w1 & Hq & E).
  rewrite query_url_by_code_run in Hq. injection Hq as <- <-.
  destruct (lookup code (tables w)) as [u|] eqn:Hl; [|discriminate].
  apply bind_inv in E as ([] & w2 & Hchk & E).
  apply check_not_expired_inv in Hchk as (Ht & _ & Hc).
  destruct (client request) as [host|]; [|discriminate].
  unfold bind at 1 in E. unfold ret at 1 in E.
  unfold bind at 1 in E. unfold datetime_now_utc, bind, read_clock, ret in E.
  unfold add_click_commit, bind, datetime_utcnow, bind, read_clock, ret in E.
  cbn in E. injection E as <- <-.
  eexists u, host, _. cbn. rewrite Ht, Hc. cbn.
  repeat split; reflexivity.
Qed.

(** A stored code that has not expired resolves, for a request that
    carries a client address. *)
Lemma redirect_to_url_run (code : str) (request : Request) (w : World)
    (u : URLModel.t) (host : str) :
  lookup code (tables w) = Some u ->
  client request = Some host ->
  unexpired_at u (clock w (clock_reads w)) ->
  exists w',
    redirect_to_url code request w
      = (Return {| url := URLModel.original_url u; status_code := 307 |}, w').
Proof.
  intros Hl Hhost Hexp. unfold redirect_to_url.
  unfold bind at 1. rewrite query_url_by_code_run, Hl.
  destruct (check_not_expired_ok u (log (SelectUrlByCode code) w) Hexp)
    as (w2 & Hchk & _).
  unfold bind at 1. cbn [columns loaded]. rewrite Hchk, Hhost.
  unfold bind at 1. unfold ret at 1.
  unfold bind at 1. unfold datetime_now_utc, bind, read_clock, ret.
  unfold add_click_commit, bind, datetime_utcnow, bind, read_clock, ret.
  cbn. eexists. reflexivity.
Qed.

Lemma db_ok_redirect (code : str) (request : Request) (w w' : World)
    (r : RedirectResponse) :
  db_ok (tables w) ->
  redirect_to_url code request w = (Return r, w') ->
  db_ok (tables w').
Proof.
  intros [Hids Hcodes Hissued Hcids Hcissued Howned] E.
  apply redirect_to_url_inv in E
    as (u & host & click & Hl & _ & _ & Hu & Hc & Hk & Hid & _ & Hnu & Hnc & _).
  apply lookup_some in Hl as [Hin _].
  assert (Huniq : forall x, In x (urls (tables w)) ->
                            URLModel.id x = URLModel.id u -> x = u).
  { intros x Hx Ex. now apply (unique_by_key URLModel.id (urls (tables w))). }
  split.
  - rewrite Hu, write_back_keeps; auto.
  - rewrite Hu, write_back_keeps; auto.
  - rewrite Hu, Hnu. unfold write_back. apply List.Forall_forall. intros x Hx.
    apply in_map_iff in Hx as (y & <- & Hy).
    rewrite List.Forall_forall in Hissued.
    destruct (URLModel.id y =? URLModel.id u); [apply (Hissued u Hin) | apply (Hissued y Hy)].
  - rewrite Hc, map_app. cbn. apply NoDup_app. split; [assumption|]. split.
    + intros x Hx Hx'. apply list_elem_of_In in Hx, Hx'.
      destruct Hx' as [<-|[]]. apply in_map_iff in Hx as (y & Ey & Hy).
      rewrite List.Forall_forall in Hcissued. specialize (Hcissued y Hy). lia.
    + apply NoDup_singleton.
  - rewrite Hc, Hnc. apply Forall_app. split.
    + eapply Forall_impl; [exact Hcissued|]. cbn. intros; lia.
    + constructor; [lia | constructor].
  - rewrite Hc, Hu, write_back_keeps by auto. apply Forall_app. split; [assumption|].
    constructor; [|constructor]. rewrite Hk. now apply in_map.
Qed.

(** The row of the code after a successful resolve. *)
Lemma redirect_to_url_lookup (code : str) (request : Request) (w w' : World)
    (r : RedirectResponse) (u : URLModel.t) :
  db_ok (tables w) ->
  lookup code (tables w) = Some u ->
  redirect_to_url code request w = (Return r, w') ->
  lookup code (tables w') = Some (counted u).
Proof.
  intros Hok Hl E.
  apply redirect_to_url_inv in E as (u' & _ & _ & Hl' & _ & _ & Hu & _).
  rewrite Hl in Hl'. injection Hl' as <-.
  unfold lookup. rewrite Hu. apply write_back_lookup; [|exact Hl].
  intros x Hx Ex. apply (unique_by_key URLModel.id (urls (tables w))); auto.
  - apply Hok.
  - now apply lookup_some in Hl as [Hin _].
Qed.

Lemma redirect_to_url_clicks (code : str) (request : Request) (w w' : World)
    (r : RedirectResponse) (u : URLModel.t) :
  lookup code (tables w) = Some u ->
  redirect_to_url code request w = (Return r, w') ->
  exists click,
    clicks (tables w') = clicks (tables w) ++ [click] /\
    ClickModel.url_id click = URLModel.id u /\
    clicks_of (URLModel.id u) (tables w') = clicks_of (URLModel.id u) (tables w) ++ [click].
Proof.
  intros Hl E.
  apply redirect_to_url_inv in E as (u' & _ & click & Hl' & _ & _ & _ & Hc & Hk & _).
  rewrite Hl in Hl'. injection Hl' as <-.
  exists click. repeat split; try assumption. now apply clicks_of_app.
Qed.

Lemma resolve_each_counts (code : str) (requests : list Request) :
  forall (w : World) (u : URLModel.t),
    db_ok (tables w) ->
    lookup code (tables w) = Some u ->
    (forall k, unexpired_at u (clock w k)) ->
    Forall (fun request => client request <> None) requests ->
    exists rs w' u',
      resolve_each code requests w = (Return rs, w') /\
      length rs = length requests /\
      db_ok (tables w') /\
      lookup code (tables w') = Some u' /\
      URLModel.id u' = URLModel.id u /\
      URLModel.click_count u' = URLModel.click_count u + Z.of_nat (length requests) /\
      length (clicks_of (URLModel.id u) (tables w'))
        = (length (clicks_of (URLModel.id u) (tables w)) + length requests)%nat.
Proof.
  induction requests as [|request rest IH]; intros w u Hok Hl Hexp Hcl.
  - exists [], w, u. cbn. unfold ret. conjs; try assumption; try reflexivity; lia.
  - apply Forall_cons in Hcl as [Hhost Hrest].
    destruct (client request) as [host|] eqn:Hc; [|contradiction].
    destruct (redirect_to_url_run code request w u host Hl Hc (Hexp _)) as (w1 & E1).
    pose proof (db_ok_redirect _ _ _ _ _ Hok E1) as Hok1.
    pose proof (redirect_to_url_lookup _ _ _ _ _ _ Hok Hl E1) as Hl1.
    destruct (redirect_to_url_clicks _ _ _ _ _ _ Hl E1) as (click & _ & _ & Hk1).
    assert (Hclock : clock w1 = clock w).
    { apply redirect_to_url_inv in E1.
      destruct E1 as (? & ? & ? & ? & ? & ? & ? & ? & ? & ? & ? & ? & ? & Hclock).
      exact Hclock. }
    destruct (IH w1 (counted u) Hok1 Hl1) as (rs & w' & u' & E & Hlen & Hok' & Hl' & Hid & Hn & Hk).
    + intros k. rewrite Hclock. exact (Hexp k).
    + exact Hrest.
    + exists ({| url := URLModel.original_url u; status_code := 307 |} :: rs), w', u'.
      conjs.
      * cbn [resolve_each]. unfold bind at 1. rewrite E1.
        unfold bind at 1. rewrite E. reflexivity.
      * cbn. now rewrite Hlen.
      * exact Hok'.
      * exact Hl'.
      * exact Hid.
      * rewrite Hn. cbn [counted columns set_click_count loaded URLModel.click_count length].
        lia.
      * change (URLModel.id (counted u)) with (URLModel.id u) in Hk.
        rewrite Hk, Hk1, length_app. cbn. lia.
Qed.

(** A counter at zero means no click record yet. *)
Lemma counts_ok_zero (db : Db) (code : str) (u : URLModel.t) :
  counts_ok db -> lookup code db = Some u -> URLModel.click_count u = 0 ->
  clicks_of (URLModel.id u) db = [].
Proof.
  intros Hcounts Hl Hzero. apply lookup_some in Hl as [Hin _].
  unfold counts_ok in Hcounts. rewrite List.Forall_forall in Hcounts.
  specialize (Hcounts u Hin). rewrite Hzero in Hcounts.
  destruct (clicks_of (URLModel.id u) db); [reflexivity | cbn in Hcounts; lia].
Qed.

(** C2: a successful resolve adds exactly 1 to the click count of the
    record and appends exactly one click record owned by it; on a
    record that does not expire, [N] resolves in a row all succeed,
    and from a fresh record, its count at 0, they leave a count of [N]
    and [N] click records. *)
Theorem each_resolve_counts_once :
  (forall (code : str) (request : Request) (w w' : World) (r : RedirectResponse)
          (u : URLModel.t),
     db_ok (tables w) ->
     lookup code (tables w) = Some u ->
     redirect_to_url code request w = (Return r, w') ->
     (exists u',
        lookup code (tables w') = Some u' /\
        URLModel.click_count u' = URLModel.click_count u + 1) /\
     (exists click,
        clicks (tables w') = clicks (tables w) ++ [click] /\
        ClickModel.url_id click = URLModel.id u)) /\
  (forall (code : str) (requests : list Request) (w : World) (u : URLModel.t),
     db_ok (tables w) ->
     counts_ok (tables w) ->
     lookup code (tables w) = Some u ->
     URLModel.click_count u = 0 ->
     (forall k, unexpired_at u (clock w k)) ->
     Forall (fun request => client request <> None) requests ->
     exists rs w' u',
       resolve_each code requests w = (Return rs, w') /\
       length rs = length requests /\
       lookup code (tables w') = Some u' /\
       URLModel.click_count u' = Z.of_nat (length requests) /\
       length (clicks_of (URLModel.id u) (tables w')) = length requests).
Proof.
  split.
  - intros code request w w' r u Hok Hl E. split.
    + exists (counted u). split; [|reflexivity].
      now apply (redirect_to_url_lookup code request w w' r).
    + destruct (redirect_to_url_clicks _ _ _ _ _ _ Hl E) as (click & Hc & Hk & _).
      now exists click.
  - intros code requests w u Hok Hcounts Hl Hzero Hexp Hcl.
    pose proof (counts_ok_zero _ _ _ Hcounts Hl Hzero) as Hnone.
    destruct (resolve_each_counts code requests w u Hok Hl Hexp Hcl)
      as (rs & w' & u' & E & Hlen & _ & Hl' & _ & Hn & Hk).
    exists rs, w', u'. conjs; try assumption.
    + rewrite Hn, Hzero. lia.
    + rewrite Hk, Hnone. reflexivity.
Qed.

(** C3: resolving a code that no record carries raises the 404 error,
    resolving a code whose expiry lies before the clock reading raises
    the 410 error, and either way the tables are what they were: no
    click record, no change to any URL record. *)
Theorem failed_resolve_changes_nothing :
  (forall (code : str) (request : Request) (w : World),
     (forall u, In u (urls (tables w)) -> URLModel.short_code u <> code) ->
     exists w',
       redirect_to_url code request w
         = (Raise (HTTPException 404 "Short URL not found"), w') /\
       tables w' = tables w) /\
  (forall (code : str) (request : Request) (w : World) (u : URLModel.t) (e : datetime),
     lookup code (tables w) = Some u ->
     URLModel.expires_at u = Some e ->
     instant e < clock w (clock_reads w) ->
     exists w',
       redirect_to_url code request w
         = (Raise (HTTPException 410 "Short URL has expired"), w') /\
       tables w' = tables w).
Proof.
  split.
  - intros code request w Habsent. apply lookup_none in Habsent.
    exists (log (SelectUrlByCode code) w). split; [|reflexivity].
    unfold redirect_to_url. unfold bind at 1.
    now rewrite query_url_by_code_run, Habsent.
  - intros code request w u e Hl He Hpast.
    destruct (check_not_expired_past u e (log (SelectUrlByCode code) w) He Hpast)
      as (w' & Hchk & Ht & _).
    exists w'. split; [|exact Ht].
    unfold redirect_to_url. unfold bind at 1. rewrite query_url_by_code_run, Hl.
    unfold bind at 1. cbn [columns loaded]. now rewrite Hchk.
Qed.

(** ** Claims about [get_url_stats] *)

Lemma newest_first_total : Total newest_first.
Proof. intros a b. unfold newest_first. lia. Qed.

Lemma newest_first_trans : Transitive newest_first.
Proof. intros a b c. unfold newest_first. lia. Qed.

Lemma in_take {A} (x : A) (n : nat) (l : list A) : In x (take n l) -> In x l.
Proof. intros Hin. rewrite <- (take_drop n l). apply in_or_app. now left. Qed.

Lemma StronglySorted_take {A} (R : relation A) (n : nat) (l : list A) :
  StronglySorted R l -> StronglySorted R (take n l).
Proof.
  intros Hs. revert n. induction Hs as [|x l Hs IH Hx]; intros [|n]; cbn; try constructor.
  - apply IH.
  - apply List.Forall_forall. intros y Hy. rewrite List.Forall_forall in Hx.
    apply Hx. eapply in_take; eassumption.
Qed.

Lemma StronglySorted_map {A B} (f : A -> B) (R : relation A) (S : relation B)
    (l : list A) :
  (forall x y, R x y -> S (f x) (f y)) ->
  StronglySorted R l -> StronglySorted S (map f l).
Proof.
  intros Hf Hs. induction Hs as [|x l Hs IH Hx]; cbn; constructor.
  - exact IH.
  - apply List.Forall_forall. intros y Hy. apply in_map_iff in Hy as (z & <- & Hz).
    rewrite List.Forall_forall in Hx. auto.
Qed.

Lemma get_url_stats_run (code : str) (w : World) (u : URLModel.t) :
  lookup code (tables w) = Some u ->
  get_url_stats code w =
    (Return
       {| URLStats.id := URLModel.id u;
          URLStats.original_url := URLModel.original_url u;
          URLStats.short_code := URLModel.short_code u;
          URLStats.created_at := URLModel.created_at u;
          URLStats.expires_at := URLModel.expires_at u;
          URLStats.click_count := URLModel.click_count u;
          URLStats.last_accessed := URLModel.last_checked u;
          URLStats.recent_clicks := map click_response (recent (URLModel.id u) (tables w)) |},
     after_statements [SelectUrlByCode code; SelectRecentClicks (URLModel.id u)] w).
Proof.
  intros Hl. unfold get_url_stats. unfold bind at 1.
  rewrite query_url_by_code_run, Hl. unfold bind at 1.
  unfold query_recent_clicks, ret, recent, clicks_of, after_statements, log. cbn.
  now rewrite <- app_assoc.
Qed.

Lemma get_url_stats_absent (code : str) (w : World) :
  lookup code (tables w) = None ->
  get_url_stats code w
    = (Raise (HTTPException 404 "Short URL not found"), log (SelectUrlByCode code) w).
Proof.
  intros Hl. unfold get_url_stats. unfold bind at 1.
  now rewrite query_url_by_code_run, Hl.
Qed.

Lemma recent_owned (key : Z) (db : Db) (c : ClickModel.t) :
  In c (recent key db) -> In c (clicks db) /\ ClickModel.url_id c = key.
Proof.
  unfold recent, clicks_of. intros Hin. apply in_take in Hin.
  apply list_elem_of_In in Hin. rewrite merge_sort_Permutation in Hin.
  apply list_elem_of_In, filter_In in Hin as [Hc Hk]. split; [assumption|].
  now apply Z.eqb_eq.
Qed.

(** The clicks left out are not newer than any click returned. *)
Lemma recent_newest (key : Z) (db : Db) (c r : ClickModel.t) :
  In c (clicks_of key db) -> ~ In c (recent key db) -> In r (recent key db) ->
  ticks (ClickModel.clicked_at c) <= ticks (ClickModel.clicked_at r).
Proof.
  unfold recent. intros Hc Hout Hr.
  pose proof (@StronglySorted_merge_sort _ newest_first _ newest_first_trans
                newest_first_total (clicks_of key db)) as Hs.
  rewrite <- (take_drop 10 (merge_sort newest_first (clicks_of key db))) in Hs.
  apply list_elem_of_In in Hc. rewrite <- (merge_sort_Permutation newest_first) in Hc.
  rewrite <- (take_drop 10 (merge_sort newest_first (clicks_of key db))) in Hc.
  apply elem_of_app in Hc as [Hc|Hc].
  - exfalso. apply Hout. now apply list_elem_of_In.
  - apply (StronglySorted_app_1_elem_of _ _ _ r c) in Hs; [exact Hs| |exact Hc].
    now apply list_elem_of_In.
Qed.

(** C7: for a stored code [get_url_stats] returns at most ten click
    records, each not older than the ones after it, and leaves the
    tables as they were. *)
Theorem stats_bounded_sorted_readonly (code : str) (w : World) (u : URLModel.t) :
  lookup code (tables w) = Some u ->
  exists stats w',
    get_url_stats code w = (Return stats, w') /\
    tables w' = tables w /\
    (length (URLStats.recent_clicks stats) <= 10)%nat /\
    StronglySorted
      (fun a b => ticks (ClickResponse.clicked_at b) <= ticks (ClickResponse.clicked_at a))
      (URLStats.recent_clicks stats).
Proof.
  intros Hl. eexists _, _. split; [apply (get_url_stats_run code w u Hl)|].
  cbn [URLStats.recent_clicks tables after_statements]. conjs.
  - reflexivity.
  - unfold recent. rewrite length_map, length_take. lia.
  - apply (StronglySorted_map click_response newest_first).
    + intros x y Hxy. exact Hxy.
    + unfold recent. apply StronglySorted_take.
      apply (@StronglySorted_merge_sort _ newest_first _ newest_first_trans
               newest_first_total).
Qed.

(** ** Claims about [delete_url] *)

(** C8: deleting a code that no record carries raises the 404 error
    and leaves the tables alone; deleting a stored code removes its
    row and every click that refers to it, keeps all other rows and
    clicks, and afterwards [get_url_stats] and [redirect_to_url] raise
    the 404 error for that code. *)
Theorem delete_removes_record_and_clicks :
  (forall (code : str) (w : World),
     (forall u, In u (urls (tables w)) -> URLModel.short_code u <> code) ->
     exists w',
       delete_url code w = (Raise (HTTPException 404 "Short URL not found"), w') /\
       tables w' = tables w) /\
  (forall (code : str) (w : World) (u : URLModel.t),
     db_ok (tables w) ->
     lookup code (tables w) = Some u ->
     exists w',
       delete_url code w = (Return 204, w') /\
       (forall x, In x (urls (tables w')) <-> In x (urls (tables w)) /\ x <> u) /\
       (forall c, In c (clicks (tables w')) <->
                  In c (clicks (tables w)) /\ ClickModel.url_id c <> URLModel.id u) /\
       (exists w'',
          get_url_stats code w'
            = (Raise (HTTPException 404 "Short URL not found"), w'')) /\
       (forall request, exists w'',
          redirect_to_url code request w'
            = (Raise (HTTPException 404 "Short URL not found"), w''))).
Proof.
  split.
  - intros code w Habsent. apply lookup_none in Habsent.
    exists (log (SelectUrlByCode code) w). split; [|reflexivity].
    unfold delete_url. unfold bind at 1. now rewrite query_url_by_code_run, Habsent.
  - intros code w u Hok Hl.
    pose proof (lookup_some _ _ _ Hl) as [Hin Hcode].
    eexists. split.
    { unfold delete_url. unfold bind at 1. rewrite query_url_by_code_run, Hl.
      unfold bind at 1. unfold delete_commit, ret. reflexivity. }
    cbn [tables set_tables log urls clicks].
    assert (Hurls : forall x,
               In x (List.filter (fun x => negb (URLModel.id x =? URLModel.id u))
                       (urls (tables w)))
               <-> In x (urls (tables w)) /\ x <> u).
    { intros x. rewrite filter_In, negb_true_iff, Z.eqb_neq. split.
      - intros [Hx Hne]. split; [assumption | congruence].
      - intros [Hx Hne]. split; [assumption|]. intros E. apply Hne.
        apply (unique_by_key URLModel.id (urls (tables w))); auto. apply Hok. }
    assert (Hgone : lookup code
              {| urls := List.filter (fun x => negb (URLModel.id x =? URLModel.id u))
                           (urls (tables w));
                 clicks := List.filter
                             (fun c => negb (ClickModel.url_id c =? URLModel.id u))
                             (clicks (tables w));
                 next_url_id := next_url_id (tables w);
                 next_click_id := next_click_id (tables w) |} = None).
    { apply lookup_none. cbn [urls]. intros x Hx Ex. apply Hurls in Hx as [Hx Hne].
      apply Hne. apply (lookup_unique code (tables w)); auto. apply Hok. }
    conjs.
    + exact Hurls.
    + intros c. rewrite filter_In, negb_true_iff, Z.eqb_neq. tauto.
    + eexists. apply get_url_stats_absent. exact Hgone.
    + intros request. eexists. unfold redirect_to_url. unfold bind at 1.
      rewrite query_url_by_code_run. cbn [tables set_tables log]. rewrite Hgone.
      reflexivity.
Qed.

(** ** Claims about [list_urls] *)

Section ShortUrls.
Context `{PyLib} {store : Store}.

Lemma query_url_page_natural (skip limit : nat) (w : World) :
  query_url_page (Z.of_nat skip) (Z.of_nat limit) w
  = (Return (take limit (drop skip (urls (tables w)))),
     log (SelectUrlPage (Z.of_nat skip) (Z.of_nat limit)) w).
Proof.
  unfold query_url_page.
  replace ((0 <=? Z.of_nat skip) && (0 <=? Z.of_nat limit)) with true
    by (symmetry; apply andb_true_iff; split; apply Z.leb_le; lia).
  now rewrite !Nat2Z.id.
Qed.

(** C10: every record [list_urls] returns has the short URL ["/"]
    followed by its code, whatever the request; the record
    [create_short_url] returns has the base address of the request
    followed by ["/"] and the code.  The first holds of every page
    [list_urls] returns, also when [skip] or [limit] is negative and
    the page is what the store then answers. *)
Theorem short_url_relative_in_list_absolute_in_shorten :
  (forall (skip limit : nat) (w : World),
     exists page,
       list_urls (Z.of_nat skip) (Z.of_nat limit) w
         = (Return page, log (SelectUrlPage (Z.of_nat skip) (Z.of_nat limit)) w) /\
       map URLResponse.short_code page
         = map URLModel.short_code (take limit (drop skip (urls (tables w)))) /\
       Forall (fun r => URLResponse.short_url r = py "/" ++ URLResponse.short_code r)
         page) /\
  (forall (url_data : URLCreate.t) (request : Request) (w w' : World)
          (resp : URLResponse.t),
     create_short_url url_data request w = (Return resp, w') ->
     URLResponse.short_url resp
       = base_address request ++ py "/" ++ URLResponse.short_code resp) /\
  (forall (skip limit : Z) (w w' : World) (page : list URLResponse.t),
     list_urls skip limit w = (Return page, w') ->
     Forall (fun r => URLResponse.short_url r = py "/" ++ URLResponse.short_code r)
       page).
Proof.
  conjs.
  - intros skip limit w. unfold list_urls, bind. rewrite query_url_page_natural.
    eexists. split; [reflexivity | split].
    + rewrite map_map. reflexivity.
    + apply List.Forall_forall. intros r Hr.
      apply in_map_iff in Hr as (x & <- & _). reflexivity.
  - apply create_short_url_short_url.
  - intros skip limit w w' page E. apply bind_inv in E as (rows & w1 & _ & E).
    unfold ret in E. injection E as <- _.
    apply List.Forall_forall. intros r Hr.
    apply in_map_iff in Hr as (x & <- & _). reflexivity.
Qed.
End ShortUrls.

(** ** Claims about [is_valid_url] *)

(** *** The matcher computes the language of its pattern *)

Section MatcherCorrect.
Context `{PyLib}.

Lemma one_computes (p : N -> bool) :
  computes (one p) (fun s => exists x, s = [x] /\ p x = true).
Proof.
  intros s k. unfold one. split.
  - destruct s as [|x s']; [discriminate|].
    destruct (p x) eqn:Hp; [|discriminate]. intros Hk.
    exists [x], s'. split; [reflexivity|]. split; [now exists x | assumption].
  - intros (s1 & s2 & -> & (x & -> & Hp) & Hk). cbn. now rewrite Hp.
Qed.

Lemma power_app (L : str -> Prop) (a b : nat) (s1 s2 : str) :
  power L a s1 -> power L b s2 -> power L (a + b) (s1 ++ s2).
Proof.
  revert s1. induction a as [|a IH]; intros s1; cbn.
  - now intros ->.
  - intros (t1 & t2 & -> & Ht1 & Ht2) Hb. exists t1, (t2 ++ s2).
    split; [now rewrite app_assoc|]. split; [assumption | now apply IH].
Qed.

(** Empty pieces can be dropped: a string of [n] pieces is a string
    of at most as many pieces as it has characters. *)
Lemma power_trim (L : str -> Prop) (n : nat) (s : str) :
  power L n s -> exists m, (m <= length s)%nat /\ power L m s.
Proof.
  revert s. induction n as [|n IH]; intros s; cbn.
  - intros ->. exists 0%nat. split; [lia | reflexivity].
  - intros (s1 & s2 & -> & H1 & H2). destruct (IH s2 H2) as (m & Hm & Hp).
    destruct s1 as [|x s1].
    + exists m. now split.
    + exists (S m). split; [cbn; rewrite length_app; lia|].
      cbn [power]. exists (x :: s1), s2. now split.
Qed.

Lemma rep_exact_computes step L (n : nat) :
  computes step L -> computes (rep_exact step n) (power L n).
Proof.
  unfold computes. intros Hstep. induction n as [|n IH]; intros s k; cbn [rep_exact power].
  - split.
    + intros Hk. now exists [], s.
    + now intros (s1 & s2 & -> & -> & Hk).
  - rewrite Hstep. split.
    + intros (s1 & s2 & -> & H1 & Hk). apply IH in Hk as (t1 & t2 & -> & Ht & Hk).
      exists (s1 ++ t1), t2. split; [now rewrite app_assoc|]. split; [|assumption].
      now exists s1, t1.
    + intros (s1 & s2 & -> & (t1 & t2 & -> & Ht1 & Ht2) & Hk).
      exists t1, (t2 ++ s2). split; [now rewrite app_assoc|]. split; [assumption|].
      apply IH. now exists t2, s2.
Qed.

Lemma rep_upto_computes step L (n : nat) :
  computes step L ->
  computes (rep_upto step n) (fun s => exists m, (m <= n)%nat /\ power L m s).
Proof.
  unfold computes. intros Hstep. induction n as [|n IH]; intros s k; cbn [rep_upto].
  - split.
    + intros Hk. exists [], s. split; [reflexivity|]. split; [|assumption].
      exists 0%nat. split; [lia | reflexivity].
    + intros (s1 & s2 & -> & (m & Hm & Hp) & Hk).
      assert (m = 0%nat) as -> by lia. cbn in Hp. now subst.
  - destruct (step s (fun s' => rep_upto step n s' k)) eqn:E.
    + split; [intros _ | reflexivity].
      apply Hstep in E as (s1 & s2 & -> & H1 & Hk).
      apply IH in Hk as (t1 & t2 & -> & (m & Hm & Hp) & Hk).
      exists (s1 ++ t1), t2. split; [now rewrite app_assoc|]. split; [|assumption].
      exists (S m). split; [lia|]. now exists s1, t1.
    + split.
      * intros Hk. exists [], s. split; [reflexivity|]. split; [|assumption].
        exists 0%nat. split; [lia | reflexivity].
      * intros (s1 & s2 & -> & (m & Hm & Hp) & Hk). destruct m as [|m].
        -- cbn in Hp. now subst.
        -- exfalso. cbn in Hp. destruct Hp as (t1 & t2 & -> & Ht1 & Ht2).
           assert (step ((t1 ++ t2) ++ s2) (fun s' => rep_upto step n s' k) = true)
             as E'; [|congruence].
           apply Hstep. exists t1, (t2 ++ s2).
           split; [now rewrite app_assoc|]. split; [assumption|].
           apply IH. exists t2, s2. split; [reflexivity|]. split; [|assumption].
           exists m. split; [lia | assumption].
Qed.

Theorem rmatch_computes (r : regex) : computes (rmatch r) (lang r).
Proof.
  induction r as [c|items| | | |a IHa b IHb|a IHa b IHb|lo hi a IHa];
    try (apply one_computes); unfold computes in *.
  - intros s k. cbn. split.
    + intros Hk. now exists [], s.
    + now intros (s1 & s2 & -> & -> & Hk).
  - intros s k. cbn [rmatch lang]. rewrite IHa. split.
    + intros (s1 & s2 & -> & H1 & Hk). apply IHb in Hk as (t1 & t2 & -> & Ht & Hk).
      exists (s1 ++ t1), t2. split; [now rewrite app_assoc|]. split; [|assumption].
      now exists s1, t1.
    + intros (s1 & s2 & -> & (t1 & t2 & -> & Ht1 & Ht2) & Hk).
      exists t1, (t2 ++ s2). split; [now rewrite app_assoc|]. split; [assumption|].
      apply IHb. now exists t2, s2.
  - intros s k. cbn [rmatch lang].
    destruct (rmatch a s k) eqn:Ea.
    + split; [intros _ | reflexivity].
      apply IHa in Ea as (s1 & s2 & -> & H1 & Hk). exists s1, s2. auto.
    + rewrite IHb. split.
      * intros (s1 & s2 & -> & H1 & Hk). exists s1, s2. auto.
      * intros (s1 & s2 & -> & [H1|H1] & Hk).
        -- assert (rmatch a (s1 ++ s2) k = true) as E'; [|congruence].
           apply IHa. now exists s1, s2.
        -- now exists s1, s2.
  - intros s k. cbn [rmatch lang].
    pose proof (rep_exact_computes _ _ lo IHa) as Hex.
    pose proof (fun n => rep_upto_computes _ _ n IHa) as Hup.
    unfold computes in Hex, Hup. rewrite Hex. split.
    + intros (s1 & s2 & -> & H1 & Hk).
      apply Hup in Hk as (t1 & t2 & -> & (m & Hm & Hp) & Hk).
      exists (s1 ++ t1), t2. split; [now rewrite app_assoc|]. split; [|assumption].
      destruct hi as [h|].
      * exists m. split; [assumption | now apply power_app].
      * exists m. split; [exact I | now apply power_app].
    + intros (s1 & s2 & -> & (m & Hm & Hp) & Hk).
      assert (Hsplit : exists t1 t2, s1 = t1 ++ t2 /\ power (lang a) lo t1
                                     /\ power (lang a) m t2).
      { clear -Hp. revert s1 Hp. induction lo as [|lo IH]; intros s1 Hp; cbn in Hp.
        - now exists [], s1.
        - destruct Hp as (u1 & u2 & -> & Hu1 & Hu2).
          destruct (IH _ Hu2) as (t1 & t2 & -> & Ht1 & Ht2).
          exists (u1 ++ t1), t2. split; [now rewrite app_assoc|]. split; [|assumption].
          now exists u1, t1. }
      destruct Hsplit as (t1 & t2 & -> & Ht1 & Ht2).
      exists t1, (t2 ++ s2). split; [now rewrite app_assoc|]. split; [assumption|].
      apply Hup. destruct hi as [h|].
      * exists t2, s2. split; [reflexivity|]. split; [|assumption]. now exists m.
      * apply power_trim in Ht2 as (m' & Hm' & Hp').
        exists t2, s2. split; [reflexivity|]. split; [|assumption].
        exists m'. split; [rewrite length_app; lia | assumption].
Qed.

(** [pattern.match]: the pattern matches the whole string, or all
    of it but a final newline. *)
Lemma re_match_spec (r : regex) (s : str) :
  re_match r s = true <-> lang r s \/ exists s', s = s' ++ [10%N] /\ lang r s'.
Proof.
  unfold re_match. pose proof (rmatch_computes r) as Hr. unfold computes in Hr.
  rewrite Hr. split.
  - intros (s1 & s2 & -> & H1 & Hend). destruct s2 as [|c [|d s2]]; cbn in Hend.
    + left. now rewrite app_nil_r.
    + apply N.eqb_eq in Hend as ->. right. now exists s1.
    + discriminate.
  - intros [Hl|(s' & -> & Hl)].
    + exists s, []. now rewrite app_nil_r.
    + exists s', [10%N]. auto.
Qed.
End MatcherCorrect.

(** *** The character tests of the pattern *)

Lemma sre_lower_beyond (x : N) :
  (0x17F < x)%N -> x <> 0x212A%N -> sre_lower x = x.
Proof.
  intros Hx Hk. unfold sre_lower, ascii_upper. ch_eval.
  destruct (in_range 65 90 x) eqn:E.
  - apply in_range_spec in E. lia.
  - destruct (N.eqb_spec x 0x130); [lia|].
    destruct (N.eqb_spec x 0x212A); [contradiction | reflexivity].
Qed.

Lemma char_in_beyond (x : N) (l : str) :
  (0x17F < x)%N -> forallb (fun y => (y <=? 0x17F)%N) l = true -> char_in x l = false.
Proof.
  intros Hx Hl. apply not_true_is_false. intros Hin. apply char_in_In in Hin.
  rewrite forallb_forall in Hl. apply Hl, N.leb_le in Hin. lia.
Qed.

(** Two character tests agree everywhere once they agree up to the
    long s and at the Kelvin sign, and are both false elsewhere. *)
Lemma agree_everywhere (f g : N -> bool) :
  forallb (fun x => Bool.eqb (f x) (g x)) (codepoints 0 0x17F) = true ->
  f 0x212A%N = g 0x212A%N ->
  (forall x, (0x17F < x)%N -> x <> 0x212A%N -> f x = false) ->
  (forall x, (0x17F < x)%N -> x <> 0x212A%N -> g x = false) ->
  forall x, f x = g x.
Proof.
  intros Hlow Hk Hf Hg x. destruct (N.le_gt_cases x 0x17F) as [Hx|Hx].
  - apply Bool.eqb_prop. revert x Hx. now apply checked_upto.
  - destruct (N.eq_dec x 0x212A%N) as [->|Hne]; [exact Hk|].
    now rewrite Hf, Hg.
Qed.

Lemma ascii_letter_beyond (x : N) : (0x17F < x)%N -> ascii_letter x = false.
Proof.
  intros Hx. apply not_true_is_false. rewrite ascii_letter_spec. lia.
Qed.

Lemma ascii_digit_beyond (x : N) : (0x17F < x)%N -> ascii_digit x = false.
Proof.
  intros Hx. apply not_true_is_false. rewrite ascii_digit_spec. lia.
Qed.

Lemma neqb (x c : N) : x <> c -> (x =? c)%N = false.
Proof. apply N.eqb_neq. Qed.

Lemma set_ok_beyond (items : list set_item) (x : N) :
  (0x17F < x)%N -> x <> 0x212A%N ->
  forallb (fun it => forallb (fun y => (y <=? 0x17F)%N) (item_chars it)) items = true ->
  set_ok items x = false.
Proof.
  intros Hx Hk Hall. unfold set_ok. apply not_true_is_false. intros E.
  apply existsb_exists in E as (it & Hit & Hin).
  rewrite forallb_forall in Hall. specialize (Hall it Hit).
  rewrite sre_lower_beyond in Hin by assumption.
  now rewrite char_in_beyond in Hin.
Qed.

Lemma pattern_letter_beyond (x : N) :
  (0x17F < x)%N -> x <> 0x212A%N -> pattern_letter x = false.
Proof.
  intros Hx Hk. unfold pattern_letter.
  rewrite ascii_letter_beyond, !neqb by (assumption || lia). reflexivity.
Qed.

Lemma set_ok_letter (x : N) :
  set_ok [RangeItem (ch "A") (ch "Z")] x = pattern_letter x.
Proof.
  revert x. apply agree_everywhere.
  - now vm_compute.
  - now vm_compute.
  - intros x Hx Hk. apply set_ok_beyond; [assumption | assumption | now vm_compute].
  - apply pattern_letter_beyond.
Qed.

Lemma set_ok_alnum (x : N) :
  set_ok [RangeItem (ch "A") (ch "Z"); RangeItem (ch "0") (ch "9")] x = pattern_alnum x.
Proof.
  revert x. apply agree_everywhere.
  - now vm_compute.
  - now vm_compute.
  - intros x Hx Hk. apply set_ok_beyond; [assumption | assumption | now vm_compute].
  - intros x Hx Hk. unfold pattern_alnum.
    now rewrite pattern_letter_beyond, ascii_digit_beyond.
Qed.

Lemma set_ok_alnum_hyphen (x : N) :
  set_ok [RangeItem (ch "A") (ch "Z"); RangeItem (ch "0") (ch "9"); CharItem (ch "-")] x
  = pattern_alnum_hyphen x.
Proof.
  revert x. apply agree_everywhere.
  - now vm_compute.
  - now vm_compute.
  - intros x Hx Hk. apply set_ok_beyond; [assumption | assumption | now vm_compute].
  - intros x Hx Hk. unfold pattern_alnum_hyphen, pattern_alnum. ch_eval.
    rewrite pattern_letter_beyond, ascii_digit_beyond, neqb by (assumption || lia).
    reflexivity.
Qed.

Lemma set_ok_slash_question (x : N) :
  set_ok [CharItem (ch "/"); CharItem (ch "?")] x = ((x =? ch "/") || (x =? ch "?"))%N.
Proof.
  revert x. apply agree_everywhere.
  - now vm_compute.
  - now vm_compute.
  - intros x Hx Hk. apply set_ok_beyond; [assumption | assumption | now vm_compute].
  - intros x Hx Hk. ch_eval. rewrite !neqb by lia. reflexivity.
Qed.

(** The literals of the pattern: lower-case letters and signs. *)
Lemma lit_ok_caseless (p x : N) :
  In p (py "htps:/.localhost") -> lit_ok p x = caseless p x.
Proof.
  intros Hp.
  assert (Hb : (p <= 127)%N).
  { apply N.leb_le. revert p Hp. apply forallb_forall. now vm_compute. }
  revert x. apply agree_everywhere.
  - clear Hb. revert p Hp. apply forallb_forall. now vm_compute.
  - clear Hb. apply Bool.eqb_prop. revert p Hp. apply forallb_forall. now vm_compute.
  - intros x Hx Hk. unfold lit_ok. rewrite sre_lower_beyond by assumption.
    apply char_in_beyond; [assumption|].
    clear Hb. revert p Hp. apply forallb_forall. now vm_compute.
  - intros x Hx Hk. unfold caseless.
    rewrite (neqb x p), (neqb x 0x17F), (neqb x 0x130), (neqb x 0x131), (neqb x 0x212A)
      by (assumption || lia).
    replace (x + 32 =? p)%N with false by (symmetry; apply N.eqb_neq; lia).
    now rewrite !andb_false_r.
Qed.

(** *** The language of the pattern, piece by piece *)

Section PatternLanguage.
Context `{PyLib}.

Lemma single_ext (r : regex) (p q : N -> bool) :
  (forall x, p x = q x) -> single r p -> single r q.
Proof.
  intros E Hs s. rewrite (Hs s). split; intros (x & -> & Hx); exists x.
  - now rewrite <- E.
  - now rewrite E.
Qed.

Lemma single_lit (c : N) :
  In c (py "htps:/.localhost") -> single (Lit c) (caseless c).
Proof.
  intros Hc. apply (single_ext _ (lit_ok c)).
  - intros x. now apply lit_ok_caseless.
  - intros s. reflexivity.
Qed.

Lemma single_letter : single letter_set pattern_letter.
Proof. apply (single_ext _ _ _ set_ok_letter). intros s. reflexivity. Qed.

Lemma single_alnum : single alnum_set pattern_alnum.
Proof. apply (single_ext _ _ _ set_ok_alnum). intros s. reflexivity. Qed.

Lemma single_alnum_hyphen : single alnum_hyphen_set pattern_alnum_hyphen.
Proof. apply (single_ext _ _ _ set_ok_alnum_hyphen). intros s. reflexivity. Qed.

Lemma single_digit : single Digit digit_ok.
Proof. intros s. reflexivity. Qed.

Lemma single_notspace : single NotSpace notspace_ok.
Proof. intros s. reflexivity. Qed.

Lemma power_single (r : regex) (p : N -> bool) (n : nat) (s : str) :
  single r p -> power (lang r) n s <-> length s = n /\ forallb p s = true.
Proof.
  intros Hs. revert s. induction n as [|n IH]; intros s; cbn [power].
  - split.
    + now intros ->.
    + intros [Hlen _]. now destruct s.
  - split.
    + intros (s1 & s2 & -> & H1 & H2). apply Hs in H1 as (x & -> & Hx).
      apply IH in H2 as [Hlen Hall]. cbn. rewrite Hx, Hall, Hlen. now split.
    + intros [Hlen Hall]. destruct s as [|x s]; [discriminate|].
      cbn in Hall. apply andb_true_iff in Hall as [Hx Hall].
      exists [x], s. split; [reflexivity|]. split.
      * apply Hs. now exists x.
      * apply IH. split; [now injection Hlen | assumption].
Qed.

Lemma lang_rep_bounded (r : regex) (p : N -> bool) (lo hi : nat) (s : str) :
  single r p -> (lo <= hi)%nat ->
  lang (Rep lo (Some hi) r) s <-> (lo <= length s <= hi)%nat /\ forallb p s = true.
Proof.
  intros Hs Hle. cbn [lang]. split.
  - intros (m & Hm & Hp). apply (power_single r p) in Hp as [Hlen Hall]; [|assumption].
    split; [lia | assumption].
  - intros [Hlen Hall]. exists (length s - lo)%nat. split; [lia|].
    apply (power_single r p); [assumption|]. split; [lia | assumption].
Qed.

Lemma lang_plus (r : regex) (p : N -> bool) (s : str) :
  single r p -> lang (plus r) s <-> s <> [] /\ forallb p s = true.
Proof.
  intros Hs. unfold plus. cbn [lang]. split.
  - intros (m & _ & Hp). apply (power_single r p) in Hp as [Hlen Hall]; [|assumption].
    split; [|assumption]. intros ->. discriminate.
  - intros [Hne Hall]. exists (length s - 1)%nat. split; [exact I|].
    apply (power_single r p); [assumption|]. split; [|assumption].
    destruct s; [contradiction | cbn; lia].
Qed.

Lemma lang_opt (r : regex) (s : str) : lang (opt r) s <-> s = [] \/ lang r s.
Proof.
  unfold opt. cbn [lang]. split.
  - intros (m & Hm & Hp). destruct m as [|[|m]]; [| |lia].
    + left. exact Hp.
    + right. cbn in Hp. destruct Hp as (s1 & s2 & -> & H1 & ->).
      now rewrite app_nil_r.
  - intros [->|Hl].
    + exists 0%nat. split; [lia | reflexivity].
    + exists 1%nat. split; [lia|]. cbn. exists s, []. now rewrite app_nil_r.
Qed.

Lemma lang_lits (l s : str) :
  (forall c, In c l -> In c (py "htps:/.localhost")) ->
  lang (lits l) s <-> caseless_str l s.
Proof.
  unfold caseless_str. revert s. induction l as [|c l IH]; intros s Hl; cbn.
  - split.
    + intros ->. constructor.
    + intros Hf. now inversion Hf.
  - split.
    + intros (s1 & s2 & -> & H1 & H2).
      apply single_lit in H1 as (x & -> & Hx); [|apply Hl; now left].
      cbn. constructor; [assumption|]. apply IH; [|assumption].
      intros d Hd. apply Hl. now right.
    + intros Hf. inversion Hf as [|p x l' s' Hx Hrest]; subst.
      exists [x], s'. split; [reflexivity|]. split.
      * apply single_lit; [apply Hl; now left|]. now exists x.
      * apply IH; [|assumption]. intros d Hd. apply Hl. now right.
Qed.

(** [n] pieces in a row are the concatenation of a list of [n]. *)
Lemma power_pieces (L : str -> Prop) (n : nat) (s : str) :
  power L n s <-> exists pieces, length pieces = n /\ Forall L pieces /\ s = concat pieces.
Proof.
  revert s. induction n as [|n IH]; intros s; cbn [power].
  - split.
    + intros ->. exists []. now repeat split.
    + intros (pieces & Hlen & _ & ->). now destruct pieces.
  - split.
    + intros (s1 & s2 & -> & H1 & H2). apply IH in H2 as (pieces & Hlen & Hall & ->).
      exists (s1 :: pieces). cbn. split; [now rewrite Hlen|]. split; [|reflexivity].
      now constructor.
    + intros (pieces & Hlen & Hall & ->). destruct pieces as [|s1 pieces]; [discriminate|].
      apply Forall_cons in Hall as [H1 Hall]. exists s1, (concat pieces).
      split; [reflexivity|]. split; [assumption|]. apply IH. exists pieces.
      split; [now injection Hlen|]. now split.
Qed.
End PatternLanguage.
Section PatternShape.
Context `{PyLib}.

Lemma caseless_sign (p x : N) :
  ascii_lower p = false -> caseless p x = (x =? p)%N.
Proof.
  intros Hp. unfold caseless. rewrite Hp.
  destruct (N.eqb_spec p (ch "s")) as [->|_]; [discriminate Hp|].
  destruct (N.eqb_spec p (ch "i")) as [->|_]; [discriminate Hp|].
  destruct (N.eqb_spec p (ch "k")) as [->|_]; [discriminate Hp|].
  cbn. now rewrite !orb_false_r.
Qed.

Lemma lang_sign (c : N) (s : str) :
  In c (py ":/.") -> lang (Lit c) s <-> s = [c].
Proof.
  intros Hc.
  assert (Hin : In c (py "htps:/.localhost")).
  { cbn in Hc. cbn. intuition. }
  assert (Hlow : ascii_lower c = false).
  { cbn in Hc. destruct Hc as [<-|[<-|[<-|[]]]]; reflexivity. }
  rewrite (single_lit c Hin s). split.
  - intros (x & -> & Hx). rewrite caseless_sign in Hx by assumption.
    now apply N.eqb_eq in Hx as ->.
  - intros ->. exists c. split; [reflexivity|].
    rewrite caseless_sign by assumption. apply N.eqb_refl.
Qed.

Lemma lang_label_dot (s : str) :
  lang label_dot s <-> exists l, host_label l /\ s = l ++ py ".".
Proof.
  unfold label_dot. cbn [lang]. split.
  - intros (s1 & s2 & -> & H1 & s3 & s4 & -> & H3 & H4).
    apply single_alnum in H1 as (c & -> & Hc).
    apply (lang_sign (ch ".")) in H4 as ->; [|cbn; tauto].
    apply lang_opt in H3 as [->|H3].
    + exists [c]. split; [|reflexivity]. unfold host_label. conjs.
      * cbn. lia.
      * cbn. lia.
      * cbn. unfold pattern_alnum_hyphen. now rewrite Hc.
      * now exists c, [].
      * now exists [], c.
    + cbn [lang] in H3. destruct H3 as (t1 & t2 & -> & Ht1 & Ht2).
      apply single_alnum in Ht2 as (e & -> & He).
      apply (lang_rep_bounded _ _ _ _ _ single_alnum_hyphen) in Ht1 as [Hlen Hall]; [|lia].
      exists (c :: t1 ++ [e]). split.
      * unfold host_label. conjs.
        -- cbn. lia.
        -- cbn. rewrite length_app. cbn. lia.
        -- cbn. rewrite forallb_app. cbn. unfold pattern_alnum_hyphen at 1 3.
           now rewrite Hc, He, Hall.
        -- now exists c, (t1 ++ [e]).
        -- now exists (c :: t1), e.
      * cbn. now rewrite <- !app_assoc.
  - intros (l & (Hlen & Hall & (c & t & -> & Hc) & (t' & e & Hlast & He)) & ->).
    exists [c], (t ++ py "."). split; [reflexivity|]. split.
    { apply single_alnum. now exists c. }
    exists t, (py "."). split; [reflexivity|]. split.
    2:{ apply (lang_sign (ch ".")); [cbn; tauto | reflexivity]. }
    apply lang_opt. destruct t' as [|c' t1].
    + left. cbn in Hlast. now injection Hlast.
    + right. cbn in Hlast. injection Hlast as -> ->.
      cbn [lang]. exists t1, [e]. split; [reflexivity|]. split.
      * apply (lang_rep_bounded _ _ _ _ _ single_alnum_hyphen); [lia|].
        cbn in Hlen, Hall. rewrite length_app in Hlen. cbn in Hlen.
        apply andb_true_iff in Hall as [_ Hall]. rewrite forallb_app in Hall.
        apply andb_true_iff in Hall as [Hall _]. split; [lia | assumption].
      * apply single_alnum. now exists e.
Qed.

Lemma pieces_labels (pieces : list str) :
  Forall (lang label_dot) pieces <->
  exists labels, Forall host_label labels /\ pieces = map (fun l => l ++ py ".") labels.
Proof.
  induction pieces as [|pc pieces IH].
  - split.
    + intros _. exists []. now split.
    + intros _. constructor.
  - split.
    + intros Hall. apply Forall_cons in Hall as [H1 Hall].
      apply lang_label_dot in H1 as (l & Hl & ->).
      apply IH in Hall as (labels & Hlabels & ->).
      exists (l :: labels). split; [now constructor | reflexivity].
    + intros (labels & Hlabels & E). destruct labels as [|l labels]; [discriminate|].
      cbn in E. injection E as -> ->. apply Forall_cons in Hlabels as [Hl Hlabels].
      constructor.
      * apply lang_label_dot. now exists l.
      * apply IH. now exists labels.
Qed.

Lemma lang_labels (s : str) :
  lang (plus label_dot) s <->
  exists labels,
    labels <> [] /\ Forall host_label labels /\
    s = concat (map (fun l => l ++ py ".") labels).
Proof.
  unfold plus. cbn [lang]. split.
  - intros (m & _ & Hp). apply power_pieces in Hp as (pieces & Hlen & Hall & ->).
    apply pieces_labels in Hall as (labels & Hlabels & ->).
    exists labels. split; [|now split]. intros ->. discriminate.
  - intros (labels & Hne & Hlabels & ->). exists (length labels - 1)%nat.
    split; [exact I|]. apply power_pieces.
    exists (map (fun l => l ++ py ".") labels). conjs.
    + rewrite length_map. destruct labels; [contradiction | cbn [length]; lia].
    + apply pieces_labels. now exists labels.
    + reflexivity.
Qed.

Lemma lang_domain (s : str) : lang domain_re s <-> dotted_hostname s.
Proof.
  unfold domain_re, dotted_hostname. cbn [lang]. split.
  - intros (s1 & s2 & -> & H1 & t1 & t2 & -> & Ht1 & Ht2).
    apply lang_labels in H1 as (labels & Hne & Hlabels & ->).
    apply (lang_rep_bounded _ _ _ _ _ single_letter) in Ht1 as [Hlen Hall]; [|lia].
    apply lang_opt in Ht2.
    exists labels, t1, t2. repeat (split; [assumption|]). split; [|reflexivity].
    destruct Ht2 as [->|Ht2]; [now left | right].
    now apply (lang_sign (ch ".")) in Ht2; [|cbn; tauto].
  - intros (labels & tld & dot & Hne & Hlabels & Hlen & Hall & Hdot & ->).
    exists (concat (map (fun l => l ++ py ".") labels)), (tld ++ dot).
    split; [reflexivity|]. split.
    + apply lang_labels. now exists labels.
    + exists tld, dot. split; [reflexivity|]. split.
      * apply (lang_rep_bounded _ _ _ _ _ single_letter); [lia | now split].
      * apply lang_opt. destruct Hdot as [->| ->]; [now left | right].
        apply (lang_sign (ch ".")); [cbn; tauto | reflexivity].
Qed.

Lemma lang_octet (s : str) : lang octet_re s <-> octet s.
Proof. unfold octet_re, octet. apply lang_rep_bounded; [apply single_digit | lia]. Qed.

Lemma lang_ipv4 (s : str) : lang ipv4_re s <-> dotted_quad s.
Proof.
  unfold ipv4_re, dotted_quad. cbn [lang]. split.
  - intros (a & r1 & -> & Ha & d1 & r2 & -> & Hd1 & b & r3 & -> & Hb & d2 & r4 & -> & Hd2
            & c & r5 & -> & Hc & d3 & d & -> & Hd3 & Hd).
    apply (lang_sign (ch ".")) in Hd1 as ->; [|cbn; tauto].
    apply (lang_sign (ch ".")) in Hd2 as ->; [|cbn; tauto].
    apply (lang_sign (ch ".")) in Hd3 as ->; [|cbn; tauto].
    apply lang_octet in Ha, Hb, Hc, Hd.
    exists a, b, c, d. now conjs.
  - intros (a & b & c & d & Ha & Hb & Hc & Hd & ->).
    apply lang_octet in Ha, Hb, Hc, Hd.
    assert (Hdot : lang (Lit (ch ".")) (py "."))
      by (apply (lang_sign (ch ".")); [cbn; tauto | reflexivity]).
    exists a, (py "." ++ b ++ py "." ++ c ++ py "." ++ d). conjs; [reflexivity | assumption |].
    exists (py "."), (b ++ py "." ++ c ++ py "." ++ d). conjs; [reflexivity | assumption |].
    exists b, (py "." ++ c ++ py "." ++ d). conjs; [reflexivity | assumption |].
    exists (py "."), (c ++ py "." ++ d). conjs; [reflexivity | assumption |].
    exists c, (py "." ++ d). conjs; [reflexivity | assumption |].
    exists (py "."), d. now conjs.
Qed.

Lemma lang_host (s : str) : lang host_re s <-> url_host s.
Proof.
  unfold host_re, url_host, localhost_name. cbn [lang].
  rewrite lang_domain, lang_ipv4, lang_lits; [reflexivity|].
  intros c Hc. cbn in Hc. cbn. intuition.
Qed.

Lemma lang_port (s : str) : lang port_re s <-> url_port s.
Proof.
  unfold port_re, url_port. rewrite lang_opt. cbn [lang]. split.
  - intros [->|(s1 & s2 & -> & H1 & H2)]; [now left | right].
    apply (lang_sign (ch ":")) in H1 as ->; [|cbn; tauto].
    apply (lang_plus _ _ _ single_digit) in H2 as [Hne Hall].
    now exists s2.
  - intros [->|(ds & Hne & Hall & ->)]; [now left | right].
    exists (py ":"), ds. conjs; [reflexivity | |].
    + apply (lang_sign (ch ":")); [cbn; tauto | reflexivity].
    + now apply (lang_plus _ _ _ single_digit).
Qed.

Lemma lang_tail (s : str) : lang tail_re s <-> url_tail s.
Proof.
  unfold tail_re, url_tail. cbn [lang]. rewrite lang_opt. split.
  - intros [[->|H1]|(s1 & s2 & -> & H1 & H2)].
    + now left.
    + right; left. now apply (lang_sign (ch "/")) in H1; [|cbn; tauto].
    + right; right. destruct H1 as (c & -> & Hc).
      rewrite set_ok_slash_question in Hc.
      apply (lang_plus _ _ _ single_notspace) in H2 as [Hne Hall].
      exists c, s2. conjs; try assumption; try reflexivity.
      apply orb_true_iff in Hc as [Hc|Hc]; apply N.eqb_eq in Hc; tauto.
  - intros [->|[->|(c & rest & Hc & Hne & Hall & ->)]].
    + left; now left.
    + left; right. apply (lang_sign (ch "/")); [cbn; tauto | reflexivity].
    + right. exists [c], rest. conjs; [reflexivity | |].
      * exists c. split; [reflexivity|]. rewrite set_ok_slash_question.
        destruct Hc as [->| ->]; reflexivity.
      * now apply (lang_plus _ _ _ single_notspace).
Qed.

Lemma caseless_str_signs (s : str) : caseless_str (py "://") s <-> s = py "://".
Proof.
  unfold caseless_str. split.
  - intros Hf. inversion Hf as [|p1 x1 l1 s1 H1 Hf1]; subst.
    inversion Hf1 as [|p2 x2 l2 s2 H2 Hf2]; subst.
    inversion Hf2 as [|p3 x3 l3 s3 H3 Hf3]; subst.
    inversion Hf3; subst.
    rewrite caseless_sign in H1, H2, H3 by reflexivity.
    apply N.eqb_eq in H1, H2, H3. now subst.
  - intros ->. repeat constructor.
Qed.

Lemma lang_scheme (s : str) :
  lang scheme_re s <-> exists sch, http_scheme sch /\ s = sch ++ py "://".
Proof.
  unfold scheme_re, http_scheme. cbn [lang]. split.
  - intros (s1 & r1 & -> & H1 & s2 & s3 & -> & H2 & H3).
    apply lang_lits in H1; [|intros c Hc; cbn in Hc; cbn; intuition].
    apply lang_lits in H3; [|intros c Hc; cbn in Hc; cbn; intuition].
    apply caseless_str_signs in H3 as ->.
    apply lang_opt in H2 as [->|H2].
    + exists s1. split; [now left | reflexivity].
    + apply (single_lit (ch "s")) in H2 as (x & -> & Hx); [|cbn; tauto].
      exists (s1 ++ [x]). split; [right | now rewrite <- app_assoc].
      unfold caseless_str in *. change (py "https") with (py "http" ++ [ch "s"]).
      apply Forall2_app; [assumption|]. now constructor.
  - intros (sch & [Hs|Hs] & ->).
    + exists sch, (py "://"). conjs; [reflexivity | |].
      * apply lang_lits; [intros c Hc; cbn in Hc; cbn; intuition | assumption].
      * exists [], (py "://"). conjs; [reflexivity | |].
        -- apply lang_opt. now left.
        -- apply lang_lits; [intros c Hc; cbn in Hc; cbn; intuition|].
           now apply caseless_str_signs.
    + unfold caseless_str in Hs. change (py "https") with (py "http" ++ [ch "s"]) in Hs.
      apply Forall2_app_inv_l in Hs as (s1 & s2 & H1 & H2 & ->).
      inversion H2 as [|p x l' s' Hx Hnil]; subst. inversion Hnil; subst.
      exists s1, ([x] ++ py "://"). conjs; [now rewrite <- app_assoc | |].
      * apply lang_lits; [intros c Hc; cbn in Hc; cbn; intuition | assumption].
      * exists [x], (py "://"). conjs; [reflexivity | |].
        -- apply lang_opt. right. apply (single_lit (ch "s")); [cbn; tauto|]. now exists x.
        -- apply lang_lits; [intros c Hc; cbn in Hc; cbn; intuition|].
           now apply caseless_str_signs.
Qed.

Lemma lang_url_pattern (u : str) : lang url_pattern u <-> absolute_http_url u.
Proof.
  unfold url_pattern, absolute_http_url. cbn [lang]. split.
  - intros (s1 & r1 & -> & H1 & host & r2 & -> & Hh & port & tail & -> & Hp & Ht).
    apply lang_scheme in H1 as (sch & Hsch & ->).
    apply lang_host in Hh. apply lang_port in Hp. apply lang_tail in Ht.
    exists sch, host, port, tail. conjs; try assumption. now rewrite <- app_assoc.
  - intros (sch & host & port & tail & Hsch & Hh & Hp & Ht & ->).
    exists (sch ++ py "://"), (host ++ port ++ tail). conjs.
    + now rewrite <- app_assoc.
    + apply lang_scheme. now exists sch.
    + exists host, (port ++ tail). conjs; [reflexivity | now apply lang_host |].
      exists port, tail. conjs; [reflexivity | now apply lang_port | now apply lang_tail].
Qed.

(** C6: [is_valid_url] accepts exactly the strings that pass both
    stages: the pattern for an absolute http or https URL (a dotted
    host name with a top-level label of 2 to 6 letters, [localhost]
    or a dotted quad, then possibly a port, then possibly a path or
    query) matches, and the URL parses with a scheme and a host. *)
Theorem is_valid_url_two_stages (url : str) :
  is_valid_url url = true <-> matches_url_pattern url /\ parses_with_scheme_and_host url.
Proof.
  unfold is_valid_url, matches_url_pattern, parses_with_scheme_and_host.
  assert (Hm : re_match url_pattern url = true <->
               absolute_http_url url \/
               exists u', url = u' ++ [10%N] /\ absolute_http_url u').
  { rewrite re_match_spec. rewrite lang_url_pattern. split.
    - intros [Hl|(s' & -> & Hl)]; [now left | right].
      exists s'. split; [reflexivity | now apply lang_url_pattern].
    - intros [Hl|(s' & -> & Hl)]; [now left | right].
      exists s'. split; [reflexivity | now apply lang_url_pattern]. }
  destruct (re_match url_pattern url) eqn:Em; cbn [negb].
  - assert (Hpat := proj1 Hm eq_refl). clear Hm.
    destruct (urlparse url) as [r|e].
    + cbn [forallb]. unfold truthy. rewrite andb_true_r, andb_true_iff, !negb_true_iff,
        !bool_decide_eq_false. split.
      * intros [Hs Hn]. split; [assumption|]. now exists r.
      * intros [_ (r' & E & Hs & Hn)]. injection E as <-. now split.
    + split; [discriminate|]. intros [_ (r & E & _)]. discriminate.
  - split; [discriminate|]. intros [Hpat _]. apply Hm in Hpat. discriminate.
Qed.
End PatternShape.

(** The second stage is not idle: with a long s for its last letter
    the scheme passes the pattern, which ignores case, and is then
    not a scheme for the parser. *)
Example long_s_scheme_fails_second_stage :
  re_match (H := ascii_only) url_pattern (py "http" ++ [0x17F%N] ++ py "://localhost") = true /\
  is_valid_url (H := ascii_only) (py "http" ++ [0x17F%N] ++ py "://localhost") = false.
Proof. split; vm_compute; reflexivity. Qed.

(** A newline after the URL passes both stages. *)
Example final_newline_accepted :
  is_valid_url (H := ascii_only) (py "http://localhost" ++ [10%N]) = true.
Proof. vm_compute. reflexivity. Qed.

Example rejected_urls :
  is_valid_url (H := ascii_only) (py "not-a-url") = false /\
  is_valid_url (H := ascii_only) (py "ftp://example.com") = false /\
  is_valid_url (H := ascii_only) (py "http://example.c") = false /\
  is_valid_url (H := ascii_only) (py "http://localhost?") = false /\
  is_valid_url (H := ascii_only) (py "http://example.com/a b") = false.
Proof. repeat split; vm_compute; reflexivity. Qed.

Example accepted_urls :
  is_valid_url (H := ascii_only) (py "https://www.example.com/very/long/url/path") = true /\
  is_valid_url (H := ascii_only) (py "HTTP://LOCALHOST:8000") = true /\
  is_valid_url (H := ascii_only) (py "http://127.0.0.1:8000/?q=1") = true /\
  is_valid_url (H := ascii_only) (py "http://example.com./") = true.
Proof. repeat split; vm_compute; reflexivity. Qed.

(** ** The store constraints are invariants *)

Lemma db_ok_empty : db_ok empty_db.
Proof. split; cbn; constructor. Qed.

Lemma generate_unique_tables (n : nat) (w w' : World) (o : outcome (list N)) :
  generate_unique n w = (o, w') -> tables w' = tables w.
Proof.
  revert w. induction n as [|n IH]; intros w E.
  - cbn in E. unfold raise in E. now injection E as _ <-.
  - rewrite generate_unique_step in E.
    destruct (lookup (candidate w 0) (tables w)).
    + apply IH in E. exact E.
    + now injection E as _ <-.
Qed.

Lemma add_commit_refresh_tables (original_url short_code : str)
    (expires_at : option datetime) (w w' : World) (o : outcome URLModel.t) :
  add_commit_refresh original_url short_code expires_at w = (o, w') ->
  match o with
  | Return db_url =>
      taken (tables w) short_code = false /\
      URLModel.id db_url = next_url_id (tables w) /\
      URLModel.short_code db_url = short_code /\
      URLModel.click_count db_url = 0 /\
      urls (tables w') = urls (tables w) ++ [db_url] /\
      clicks (tables w') = clicks (tables w) /\
      next_url_id (tables w') = next_url_id (tables w) + 1 /\
      next_click_id (tables w') = next_click_id (tables w)
  | Raise _ => tables w' = tables w
  end.
Proof.
  unfold add_commit_refresh, bind, datetime_now_utc, bind, read_clock, ret. cbn.
  unfold taken. destruct (existsb _ _); intros E; injection E as <- <-; cbn.
  - reflexivity.
  - now conjs.
Qed.

Section ShortenInvariant.
Context `{PyLib}.

(** A call of [create_short_url] either appends one row under a code
    that was free, with the next key, or leaves the tables alone. *)
Lemma create_short_url_tables (url_data : URLCreate.t) (request : Request)
    (w w' : World) (o : outcome URLResponse.t) :
  create_short_url url_data request w = (o, w') ->
  match o with
  | Return resp =>
      exists db_url,
        taken (tables w) (URLModel.short_code db_url) = false /\
        URLModel.id db_url = next_url_id (tables w) /\
        URLModel.click_count db_url = 0 /\
        URLResponse.short_code resp = URLModel.short_code db_url /\
        urls (tables w') = urls (tables w) ++ [db_url] /\
        clicks (tables w') = clicks (tables w) /\
        next_url_id (tables w') = next_url_id (tables w) + 1 /\
        next_click_id (tables w') = next_click_id (tables w)
  | Raise _ => tables w' = tables w
  end.
Proof.
  unfold create_short_url.
  destruct (is_valid_url (URLCreate.original_url url_data)); cbn [negb].
  2:{ unfold raise. intros E. now injection E as <- <-. }
  unfold bind at 1.
  set (choice := match URLCreate.custom_alias url_data with
                 | Some (_ :: _ as a) => _
                 | _ => _
                 end).
  destruct (choice w) as [[code|e] w1] eqn:Ec.
  - assert (Ht : tables w1 = tables w).
    { subst choice. destruct (URLCreate.custom_alias url_data) as [[|c a]|].
      - now apply generate_unique_tables in Ec.
      - destruct ((length (c :: a) <? 3)%nat || (20 <? length (c :: a))%nat);
          [discriminate|].
        unfold bind in Ec. rewrite query_url_by_code_run in Ec.
        destruct (lookup (c :: a) (tables w)); [discriminate|].
        unfold ret in Ec. now injection Ec as _ <-.
      - now apply generate_unique_tables in Ec. }
    unfold bind at 1.
    destruct (add_commit_refresh _ code _ w1) as [[db_url|e] w2] eqn:Ea;
      apply add_commit_refresh_tables in Ea.
    + unfold ret. intros E. injection E as <- <-.
      destruct Ea as (Hfree & Hid & Hcode & Hzero & Hu & Hc & Hnu & Hnc).
      rewrite Ht in *. exists db_url. cbn. rewrite Hcode. now conjs.
    + intros E. injection E as <- <-. now rewrite Ea.
  - intros E. injection E as <- <-.
    subst choice. destruct (URLCreate.custom_alias url_data) as [[|c a]|].
    + now apply generate_unique_tables in Ec.
    + destruct ((length (c :: a) <? 3)%nat || (20 <? length (c :: a))%nat).
      * unfold raise in Ec. now injection Ec as _ <-.
      * unfold bind in Ec. rewrite query_url_by_code_run in Ec.
        destruct (lookup (c :: a) (tables w)).
        -- unfold raise in Ec. now injection Ec as _ <-.
        -- discriminate.
    + now apply generate_unique_tables in Ec.
Qed.

Lemma db_ok_create_short_url (url_data : URLCreate.t) (request : Request)
    (w w' : World) (o : outcome URLResponse.t) :
  db_ok (tables w) ->
  create_short_url url_data request w = (o, w') ->
  db_ok (tables w').
Proof.
  intros Hok E. apply create_short_url_tables in E. destruct o as [resp|e].
  2:{ now rewrite E. }
  destruct E as (db_url & Hfree & Hid & _ & _ & Hu & Hc & Hnu & Hnc).
  destruct Hok as [Hids Hcodes Hissued Hcids Hcissued Howned]. split.
  - rewrite Hu, map_app. cbn. apply NoDup_app. split; [assumption|]. split.
    + intros x Hx Hx'. apply list_elem_of_In in Hx, Hx'. destruct Hx' as [<-|[]].
      apply in_map_iff in Hx as (y & Ey & Hy).
      rewrite List.Forall_forall in Hissued. specialize (Hissued y Hy). lia.
    + apply NoDup_singleton.
  - rewrite Hu, map_app. cbn. apply NoDup_app. split; [assumption|]. split.
    + intros x Hx Hx'. apply list_elem_of_In in Hx, Hx'. destruct Hx' as [<-|[]].
      apply in_map_iff in Hx as (y & Ey & Hy).
      rewrite taken_lookup in Hfree.
      destruct (lookup (URLModel.short_code db_url) (tables w)) eqn:El; [discriminate|].
      rewrite lookup_none in El. now apply (El y Hy).
    + apply NoDup_singleton.
  - rewrite Hu, Hnu. apply Forall_app. split.
    + eapply Forall_impl; [exact Hissued|]. cbn. intros; lia.
    + constructor; [lia | constructor].
  - now rewrite Hc.
  - now rewrite Hc, Hnc.
  - rewrite Hc, Hu, map_app. eapply Forall_impl; [exact Howned|].
    cbn. intros c Hin. apply in_or_app. now left.
Qed.
End ShortenInvariant.

Lemma NoDup_map_filter {A B} (f : A -> B) (p : A -> bool) (l : list A) :
  NoDup (map f l) -> NoDup (map f (List.filter p l)).
Proof.
  induction l as [|x l IH]; cbn; [trivial|].
  intros Hnd. apply NoDup_cons in Hnd as [Hx Hnd].
  destruct (p x); cbn; [|now apply IH].
  apply NoDup_cons. split; [|now apply IH].
  intros Hin. apply Hx. apply list_elem_of_In in Hin. apply list_elem_of_In.
  apply in_map_iff in Hin as (y & Ey & Hy). apply filter_In in Hy as [Hy _].
  apply in_map_iff. now exists y.
Qed.

Lemma Forall_filter {A} (P : A -> Prop) (p : A -> bool) (l : list A) :
  Forall P l -> Forall P (List.filter p l).
Proof.
  rewrite !List.Forall_forall. intros Hall x Hx. apply filter_In in Hx as [Hx _]. auto.
Qed.

Lemma db_ok_delete_url (code : str) (w w' : World) (o : outcome Z) :
  db_ok (tables w) ->
  delete_url code w = (o, w') ->
  db_ok (tables w').
Proof.
  intros [Hids Hcodes Hissued Hcids Hcissued Howned]. unfold delete_url. unfold bind at 1.
  rewrite query_url_by_code_run. destruct (lookup code (tables w)) as [u|].
  - unfold bind, delete_commit, ret. intros E. injection E as _ <-. cbn. split; cbn.
    + now apply NoDup_map_filter.
    + now apply NoDup_map_filter.
    + now apply Forall_filter.
    + now apply NoDup_map_filter.
    + now apply Forall_filter.
    + apply List.Forall_forall. intros c Hc. apply filter_In in Hc as [Hc Hk].
      apply negb_true_iff, Z.eqb_neq in Hk.
      rewrite List.Forall_forall in Howned. apply Howned, in_map_iff in Hc as (x & Ex & Hx).
      apply in_map_iff. exists x. split; [assumption|]. apply filter_In.
      split; [assumption|]. apply negb_true_iff, Z.eqb_neq. congruence.
  - unfold raise. intros E. injection E as _ <-. now split.
Qed.

(** *** The counters stay equal to the number of clicks *)

Lemma clicks_of_same (key : Z) (db db' : Db) :
  clicks db' = clicks db -> clicks_of key db' = clicks_of key db.
Proof. intros E. unfold clicks_of. now rewrite E. Qed.

(** No click refers to a key that was not handed out yet. *)
Lemma clicks_of_fresh (db : Db) : db_ok db -> clicks_of (next_url_id db) db = [].
Proof.
  intros [_ _ Hissued _ _ Howned]. unfold clicks_of.
  induction (clicks db) as [|c l IH]; cbn; [reflexivity|].
  apply Forall_cons in Howned as [Hc Howned].
  destruct (Z.eqb_spec (ClickModel.url_id c) (next_url_id db)) as [E|_]; [|now apply IH].
  exfalso. apply in_map_iff in Hc as (x & Ex & Hx).
  rewrite List.Forall_forall in Hissued. specialize (Hissued x Hx). lia.
Qed.

Lemma counts_ok_redirect (code : str) (request : Request) (w w' : World)
    (r : RedirectResponse) :
  db_ok (tables w) -> counts_ok (tables w) ->
  redirect_to_url code request w = (Return r, w') ->
  counts_ok (tables w').
Proof.
  intros Hok Hcounts E.
  apply redirect_to_url_inv in E
    as (u & host & click & Hl & _ & _ & Hu & Hc & Hk & _).
  apply lookup_some in Hl as [Hin _].
  unfold counts_ok in *. rewrite List.Forall_forall in Hcounts.
  rewrite Hu. unfold write_back. apply List.Forall_forall. intros x Hx.
  apply in_map_iff in Hx as (y & <- & Hy).
  destruct (Z.eqb_spec (URLModel.id y) (URLModel.id u)) as [E|E].
  - change (URLModel.id (counted u)) with (URLModel.id u).
    rewrite (clicks_of_app _ _ click _ Hc Hk), length_app.
    change (URLModel.click_count (counted u)) with (URLModel.click_count u + 1).
    rewrite (Hcounts u Hin). unfold clicks_of. cbn [length]. lia.
  - rewrite (Hcounts y Hy). unfold clicks_of. rewrite Hc, List.filter_app. cbn.
    destruct (Z.eqb_spec (ClickModel.url_id click) (URLModel.id y)) as [E'|_];
      [congruence|]. now rewrite app_nil_r.
Qed.

Lemma counts_ok_delete_url (code : str) (w w' : World) (o : outcome Z) :
  counts_ok (tables w) ->
  delete_url code w = (o, w') ->
  counts_ok (tables w').
Proof.
  intros Hcounts. unfold delete_url. unfold bind at 1.
  rewrite query_url_by_code_run. destruct (lookup code (tables w)) as [u|].
  2:{ unfold raise. intros E. now injection E as _ <-. }
  unfold bind, delete_commit, ret. intros E. injection E as _ <-.
  unfold counts_ok in *. cbn. rewrite List.Forall_forall in Hcounts.
  apply List.Forall_forall. intros x Hx. apply filter_In in Hx as [Hx Hk].
  apply negb_true_iff, Z.eqb_neq in Hk. rewrite (Hcounts x Hx). do 2 f_equal.
  unfold clicks_of. cbn. induction (clicks (tables w)) as [|c l IH]; cbn; [reflexivity|].
  destruct (Z.eqb_spec (ClickModel.url_id c) (URLModel.id u)) as [E|E]; cbn.
  - destruct (Z.eqb_spec (ClickModel.url_id c) (URLModel.id x)); [congruence | exact IH].
  - destruct (ClickModel.url_id c =? URLModel.id x); [now rewrite IH | exact IH].
Qed.

Section ShortenCounts.
Context `{PyLib}.

Lemma counts_ok_create_short_url (url_data : URLCreate.t) (request : Request)
    (w w' : World) (o : outcome URLResponse.t) :
  db_ok (tables w) -> counts_ok (tables w) ->
  create_short_url url_data request w = (o, w') ->
  counts_ok (tables w').
Proof.
  intros Hok Hcounts E. apply create_short_url_tables in E. destruct o as [resp|e].
  2:{ now rewrite E. }
  destruct E as (db_url & _ & Hid & Hzero & _ & Hu & Hc & _).
  unfold counts_ok in *. rewrite Hu. apply Forall_app. split.
  - eapply Forall_impl; [exact Hcounts|]. cbn. intros x Hx.
    now rewrite (clicks_of_same _ _ _ Hc).
  - constructor; [|constructor].
    now rewrite (clicks_of_same _ _ _ Hc), Hid, clicks_of_fresh, Hzero.
Qed.
End ShortenCounts.

(** Every failure of [redirect_to_url] leaves the tables alone. *)
Lemma redirect_to_url_failure (code : str) (request : Request) (w w' : World) (e : Exn) :
  redirect_to_url code request w = (Raise e, w') -> tables w' = tables w.
Proof.
  unfold redirect_to_url. unfold bind at 1. rewrite query_url_by_code_run.
  destruct (lookup code (tables w)) as [u|].
  2:{ unfold raise. intros E. now injection E as _ <-. }
  unfold bind at 1. cbn [columns loaded].
  destruct (check_not_expired u (log (SelectUrlByCode code) w)) as [[[]|e'] w1] eqn:Ec.
  - apply check_not_expired_inv in Ec as (Ht & _).
    destruct (client request) as [host|].
    + unfold bind at 1. unfold ret at 1.
      unfold bind at 1. unfold datetime_now_utc, bind, read_clock, ret.
      unfold add_click_commit, bind, datetime_utcnow, bind, read_clock, ret.
      cbn. discriminate.
    + unfold bind at 1. unfold raise. intros E. injection E as _ <-. exact Ht.
  - intros E. injection E as _ <-. clear e.
    unfold check_not_expired in Ec. destruct (URLModel.expires_at u) as [x|].
    + unfold bind at 1 in Ec. unfold datetime_now_utc, bind, read_clock, ret, lift in Ec.
      cbn in Ec. destruct (datetime_lt _ _) as [[|]|]; cbn in Ec; try discriminate;
        now injection Ec as _ <-.
    + discriminate.
Qed.

Lemma get_url_stats_tables (code : str) (w w' : World) (o : outcome URLStats.t) :
  get_url_stats code w = (o, w') -> tables w' = tables w.
Proof.
  destruct (lookup code (tables w)) as [u|] eqn:Hl.
  - rewrite (get_url_stats_run code w u Hl). intros E. now injection E as _ <-.
  - rewrite (get_url_stats_absent code w Hl). intros E. now injection E as _ <-.
Qed.

Section Service.
Context `{PyLib} {store : Store}.

(** [list_urls] only reads, whatever the store answers. *)
Lemma list_urls_world (skip limit : Z) (w : World) :
  snd (list_urls skip limit w) = log (SelectUrlPage skip limit) w.
Proof.
  unfold list_urls, bind, query_url_page, ret.
  now destruct (if (0 <=? skip) && (0 <=? limit) then _ else _).
Qed.

(** Whatever request is served, the constraints of the store and the
    counters hold afterwards if they held before. *)
Theorem served_keeps_consistent (w w' : World) :
  db_ok (tables w) /\ counts_ok (tables w) -> served w w' ->
  db_ok (tables w') /\ counts_ok (tables w').
Proof.
  intros [Hok Hcounts] [body request|code request|code|skip limit|code].
  - unfold post_shorten, bind, lift.
    destruct (validate_URLCreate body) as [url_data|e]; [|now split].
    destruct (create_short_url url_data request w) as [o w1] eqn:E. split.
    + now apply (db_ok_create_short_url url_data request w w1 o).
    + now apply (counts_ok_create_short_url url_data request w w1 o).
  - destruct (redirect_to_url code request w) as [[r|e] w1] eqn:E; cbn.
    + split.
      * now apply (db_ok_redirect code request w w1 r).
      * now apply (counts_ok_redirect code request w w1 r).
    + apply redirect_to_url_failure in E. now rewrite E.
  - destruct (get_url_stats code w) as [o w1] eqn:E; cbn.
    apply get_url_stats_tables in E. now rewrite E.
  - rewrite list_urls_world. now split.
  - destruct (delete_url code w) as [o w1] eqn:E; cbn. split.
    + now apply (db_ok_delete_url code w w1 o).
    + now apply (counts_ok_delete_url code w w1 o).
Qed.

(** So they hold in every world the service can reach from an empty
    store. *)
Corollary reachable_consistent (w w' : World) :
  tables w = empty_db -> rtc served w w' ->
  db_ok (tables w') /\ counts_ok (tables w').
Proof.
  intros Hempty Hreach.
  assert (Hok : db_ok (tables w) /\ counts_ok (tables w)).
  { rewrite Hempty. split; [apply db_ok_empty | constructor]. }
  clear Hempty. induction Hreach as [|w w1 w2 Hstep _ IH]; [assumption|].
  apply IH. now apply (served_keeps_consistent w).
Qed.
End Service.

(** ** Worked examples *)

(** The example world is what two calls of the endpoint build. *)
Example world_with_blog_built :
  snd (post_shorten (H := ascii_only) stale_body example_request
         (snd (post_shorten (H := ascii_only) blog_body example_request example_world)))
  = world_with_blog.
Proof. vm_compute. reflexivity. Qed.

Lemma db_ok_world_with_blog : db_ok (tables world_with_blog).
Proof.
  split; cbn.
  - apply (bool_decide_unpack (NoDup [1; 2])). now vm_compute.
  - apply (bool_decide_unpack (NoDup [py "blog"; py "stale"])). now vm_compute.
  - repeat constructor.
  - constructor.
  - constructor.
  - constructor.
Qed.

(** Decide a closed proposition by evaluating its decision procedure. *)
Ltac by_computation :=
  match goal with |- ?P => apply (bool_decide_unpack P); vm_compute; exact I end.

Example world_after_visits_built :
  snd (resolve_each (py "blog") three_visits world_with_blog) = world_after_visits.
Proof. vm_compute. reflexivity. Qed.

Lemma db_ok_world_after_visits : db_ok (tables world_after_visits).
Proof. split; by_computation. Qed.

(** ** The last-accessed time *)

(** A resolve never changes what [get_url_stats] reports as
    [last_accessed]: the handler sets the attribute [last_accessed] of
    the instance, the row has only the column [last_checked], and that
    is the one the stats read. *)
Lemma resolve_leaves_reported_access (code : str) (request : Request) (w w' : World)
    (r : RedirectResponse) (u : URLModel.t) :
  db_ok (tables w) ->
  lookup code (tables w) = Some u ->
  redirect_to_url code request w = (Return r, w') ->
  exists stats w'',
    get_url_stats code w' = (Return stats, w'') /\
    URLStats.click_count stats = URLModel.click_count u + 1 /\
    URLStats.last_accessed stats = URLModel.last_checked u.
Proof.
  intros Hok Hl E.
  pose proof (redirect_to_url_lookup _ _ _ _ _ _ Hok Hl E) as Hl'.
  eexists _, _. split; [apply (get_url_stats_run code w' _ Hl')|]. now cbn.
Qed.

(** C1, at the failing input: [blog] is resolved at clock reading
    1002, the click is recorded and counted, and the stats that follow
    report no last-accessed time at all. *)
Theorem stats_after_resolve_report_no_access :
  exists w' stats w'',
    redirect_to_url (py "blog") example_request world_with_blog
      = (Return {| url := py "https://example.com/a"; status_code := 307 |}, w') /\
    clock world_with_blog (clock_reads world_with_blog) = 1002 /\
    get_url_stats (py "blog") w' = (Return stats, w'') /\
    URLStats.click_count stats = 1 /\
    length (URLStats.recent_clicks stats) = 1%nat /\
    URLStats.last_accessed stats = None.
Proof.
  eexists _, _, _. split; [vm_compute; reflexivity|].
  split; [reflexivity|]. split; [vm_compute; reflexivity|].
  now vm_compute.
Qed.

(** ** The claims at concrete inputs *)

(** One visit, then three, of [blog] in [world_with_blog]. *)
Lemma each_resolve_counts_once_witness :
  (db_ok (tables world_with_blog) /\
   lookup (py "blog") (tables world_with_blog) = Some blog_row /\
   redirect_to_url (py "blog") example_request world_with_blog
     = (Return {| url := py "https://example.com/a"; status_code := 307 |},
        snd (redirect_to_url (py "blog") example_request world_with_blog)) /\
   (exists u',
      lookup (py "blog")
        (tables (snd (redirect_to_url (py "blog") example_request world_with_blog)))
        = Some u' /\
      URLModel.click_count u' = URLModel.click_count blog_row + 1)) /\
  (exists rs w' u',
     resolve_each (py "blog") three_visits world_with_blog = (Return rs, w') /\
     length rs = length three_visits /\
     lookup (py "blog") (tables w') = Some u' /\
     URLModel.click_count u' = Z.of_nat (length three_visits) /\
     length (clicks_of (URLModel.id blog_row) (tables w')) = length three_visits).
Proof.
  split.
  - assert (E : redirect_to_url (py "blog") example_request world_with_blog
                = (Return {| url := py "https://example.com/a"; status_code := 307 |},
                   snd (redirect_to_url (py "blog") example_request world_with_blog)))
      by (vm_compute; reflexivity).
    split; [apply db_ok_world_with_blog|]. split; [reflexivity|]. split; [exact E|].
    exact (proj1 (proj1 each_resolve_counts_once (py "blog") example_request
                    world_with_blog _ _ blog_row db_ok_world_with_blog eq_refl E)).
  - apply (proj2 each_resolve_counts_once (py "blog") three_visits world_with_blog blog_row).
    + apply db_ok_world_with_blog.
    + repeat constructor.
    + reflexivity.
    + reflexivity.
    + intros k. exact I.
    + repeat constructor; discriminate.
Defined.

(** A code nobody shortened, and [stale], which expired at 500. *)
Lemma failed_resolve_changes_nothing_witness :
  (exists w',
     redirect_to_url (py "nope") example_request world_with_blog
       = (Raise (HTTPException 404 "Short URL not found"), w') /\
     tables w' = tables world_with_blog) /\
  (instant {| ticks := 500; tzinfo := None |}
     < clock world_with_blog (clock_reads world_with_blog) /\
   exists w',
     redirect_to_url (py "stale") example_request world_with_blog
       = (Raise (HTTPException 410 "Short URL has expired"), w') /\
     tables w' = tables world_with_blog).
Proof.
  split.
  - apply (proj1 failed_resolve_changes_nothing (py "nope") example_request world_with_blog).
    intros u [<-|[<-|[]]]; vm_compute; discriminate.
  - split; [reflexivity|].
    apply (proj2 failed_resolve_changes_nothing (py "stale") example_request world_with_blog
             stale_row {| ticks := 500; tzinfo := None |}); reflexivity.
Defined.

(** A first candidate that is free, and a generator that is stuck
    on a taken code. *)
Lemma generation_bounded_by_ten_attempts_witness :
  (exists resp db_url w',
     create_short_url (H := ascii_only) plain_body example_request example_world
       = (Return resp, w') /\
     URLResponse.short_code resp = candidate example_world 0 /\
     URLModel.short_code db_url = candidate example_world 0 /\
     urls (tables w') = urls (tables example_world) ++ [db_url] /\
     drawn w' = (drawn example_world + 6 * 1)%nat /\
     journal w' =
       journal example_world
       ++ map (fun j => SelectUrlByCode (candidate example_world j)) (seq 0 1)
       ++ [InsertUrl (candidate example_world 0)]) /\
  (exists w',
     create_short_url (H := ascii_only) plain_body example_request stuck_world
       = (Raise (HTTPException 500 "Failed to generate unique short code"), w') /\
     tables w' = tables stuck_world /\
     drawn w' = (drawn stuck_world + 60)%nat /\
     journal w' =
       journal stuck_world
       ++ map (fun j => SelectUrlByCode (candidate stuck_world j)) (seq 0 10)).
Proof.
  split.
  - apply (proj1 (generation_bounded_by_ten_attempts (H := ascii_only) plain_body
                    example_request example_world
                    ltac:(vm_compute; reflexivity) eq_refl) 0%nat).
    + lia.
    + intros j Hj. lia.
    + reflexivity.
  - apply (proj2 (generation_bounded_by_ten_attempts (H := ascii_only) plain_body
                    example_request stuck_world
                    ltac:(vm_compute; reflexivity) eq_refl)).
    intros j Hj. reflexivity.
Defined.

(** The alias [my blog] has a space in it. *)
Lemma malformed_alias_rejected_before_store_witness :
  alias_malformed (H := ascii_only) (py "my blog") /\
  exists errors kind,
    post_shorten (H := ascii_only) spaced_body example_request world_with_blog
      = (Raise (RequestValidationError errors), world_with_blog) /\
    In ("custom_alias"%string, kind) errors.
Proof.
  assert (Hbad : alias_malformed (H := ascii_only) (py "my blog")).
  { right; right. exists 32%N. split; [vm_compute; tauto|].
    split; [reflexivity|]. split; intros E; discriminate E. }
  split; [exact Hbad|].
  exact (malformed_alias_rejected_before_store (H := ascii_only) spaced_body
           example_request world_with_blog (py "my blog") eq_refl Hbad).
Defined.

(** C5 as the specification words it fails: [a½b] holds a character
    that is no letter, no digit, no hyphen and no underscore, and the
    schema admits it all the same, because [str.isalnum] holds of
    numeric characters too; the handler looks the alias up and
    inserts the record. *)
Lemma numeric_alias_reaches_the_store :
  alias_malformed_as_specified (H := with_one_half) half_alias /\
  ~ (exists errors,
       post_shorten (H := with_one_half) half_body example_request example_world
         = (Raise (RequestValidationError errors), example_world)) /\
  exists resp w',
    post_shorten (H := with_one_half) half_body example_request example_world
      = (Return resp, w') /\
    URLResponse.short_code resp = half_alias /\
    journal w' = [SelectUrlByCode half_alias; InsertUrl half_alias].
Proof.
  assert (E : post_shorten (H := with_one_half) half_body example_request example_world
              = (Return
                   {| URLResponse.id := 1;
                      URLResponse.original_url := py "https://example.com/a";
                      URLResponse.short_code := half_alias;
                      URLResponse.short_url := py "http://testserver/" ++ half_alias;
                      URLResponse.created_at := {| ticks := 1000; tzinfo := None |};
                      URLResponse.expires_at := None;
                      URLResponse.click_count := 0 |},
                 snd (post_shorten (H := with_one_half) half_body example_request
                        example_world)))
    by (vm_compute; reflexivity).
  conjs.
  - right. right. exists 0xBD%N. conjs; try discriminate; try reflexivity.
    cbn. tauto.
  - intros (errors & F). rewrite E in F. discriminate.
  - eexists _, _. split; [exact E|]. split; reflexivity.
Qed.

(** The statistics of [blog] after its three visits. *)
Lemma stats_bounded_sorted_readonly_witness :
  lookup (py "blog") (tables world_after_visits) = Some (visited_row)
  /\ exists stats w',
       get_url_stats (py "blog") world_after_visits = (Return stats, w') /\
       tables w' = tables world_after_visits /\
       (length (URLStats.recent_clicks stats) <= 10)%nat /\
       StronglySorted
         (fun a b => ticks (ClickResponse.clicked_at b) <= ticks (ClickResponse.clicked_at a))
         (URLStats.recent_clicks stats).
Proof.
  assert (Hl : lookup (py "blog") (tables world_after_visits)
               = Some (visited_row))
    by (vm_compute; reflexivity).
  split; [exact Hl|].
  exact (stats_bounded_sorted_readonly (py "blog") world_after_visits _ Hl).
Defined.

(** Deleting a code nobody shortened, then [blog] with its three
    clicks. *)
Lemma delete_removes_record_and_clicks_witness :
  (exists w',
     delete_url (py "nope") world_after_visits
       = (Raise (HTTPException 404 "Short URL not found"), w') /\
     tables w' = tables world_after_visits) /\
  (exists w',
     delete_url (py "blog") world_after_visits = (Return 204, w') /\
     (forall x, In x (urls (tables w')) <->
                In x (urls (tables world_after_visits))
                /\ x <> visited_row) /\
     (forall c, In c (clicks (tables w')) <->
                In c (clicks (tables world_after_visits))
                /\ ClickModel.url_id c <> URLModel.id (visited_row)) /\
     (exists w'',
        get_url_stats (py "blog") w'
          = (Raise (HTTPException 404 "Short URL not found"), w'')) /\
     (forall request, exists w'',
        redirect_to_url (py "blog") request w'
          = (Raise (HTTPException 404 "Short URL not found"), w''))).
Proof.
  split.
  - apply (proj1 delete_removes_record_and_clicks (py "nope") world_after_visits).
    intros u [<-|[<-|[]]]; vm_compute; discriminate.
  - apply (proj2 delete_removes_record_and_clicks (py "blog") world_after_visits).
    + apply db_ok_world_after_visits.
    + reflexivity.
Defined.

(** The code generated for [plain_body] is [dkryFM]. *)
Lemma generated_code_shape_witness :
  create_short_url (H := ascii_only) plain_body example_request example_world
    = (Return plain_response,
       snd (create_short_url (H := ascii_only) plain_body example_request example_world)) /\
  length (URLResponse.short_code plain_response) = 6%nat /\
  forall c, In c (URLResponse.short_code plain_response) -> In c alphabet.
Proof.
  assert (E : create_short_url (H := ascii_only) plain_body example_request example_world
              = (Return plain_response,
                 snd (create_short_url (H := ascii_only) plain_body example_request
                        example_world)))
    by (vm_compute; reflexivity).
  split; [exact E|].
  exact (proj2 (proj2 (generated_code_shape (H := ascii_only))) plain_body example_request
           example_world _ plain_response eq_refl E).
Defined.

(** Its short URL starts with the address of the test server; the
    listing asked for with a limit of -1, on a store that reads it as
    no limit, holds relative short URLs. *)
Lemma short_url_relative_in_list_absolute_in_shorten_witness :
  (create_short_url (H := ascii_only) plain_body example_request example_world
     = (Return plain_response,
        snd (create_short_url (H := ascii_only) plain_body example_request example_world)) /\
   URLResponse.short_url plain_response
     = base_address example_request ++ py "/" ++ URLResponse.short_code plain_response) /\
  (list_urls (store := sqlite_store) 0 (-1) world_with_blog
     = (Return blog_listing, snd (list_urls (store := sqlite_store) 0 (-1) world_with_blog)) /\
   Forall (fun r => URLResponse.short_url r = py "/" ++ URLResponse.short_code r)
     blog_listing).
Proof.
  assert (E : create_short_url (H := ascii_only) plain_body example_request example_world
              = (Return plain_response,
                 snd (create_short_url (H := ascii_only) plain_body example_request
                        example_world)))
    by (vm_compute; reflexivity).
  assert (L : list_urls (store := sqlite_store) 0 (-1) world_with_blog
              = (Return blog_listing,
                 snd (list_urls (store := sqlite_store) 0 (-1) world_with_blog)))
    by (vm_compute; reflexivity).
  split; (split; [assumption|]).
  - exact (proj1 (proj2 (short_url_relative_in_list_absolute_in_shorten
                           (H := ascii_only) (store := sqlite_store)))
             plain_body example_request example_world _ plain_response E).
  - exact (proj2 (proj2 (short_url_relative_in_list_absolute_in_shorten
                           (H := ascii_only) (store := sqlite_store)))
             0 (-1) world_with_blog _ blog_listing L).
Defined.

(** A URL with a path passes both stages. *)
Lemma is_valid_url_two_stages_witness :
  is_valid_url (H := ascii_only) (py "https://www.example.com/very/long/url/path") = true /\
  matches_url_pattern (H := ascii_only) (py "https://www.example.com/very/long/url/path") /\
  parses_with_scheme_and_host (H := ascii_only)
    (py "https://www.example.com/very/long/url/path").
Proof.
  assert (E : is_valid_url (H := ascii_only)
                (py "https://www.example.com/very/long/url/path") = true)
    by (vm_compute; reflexivity).
  split; [exact E|].
  exact (proj1 (is_valid_url_two_stages (H := ascii_only) _) E).
Defined.

(** * Further properties of the handlers *)

(** ** What a successful [create_short_url] leaves behind *)

Lemma generate_unique_world (n : nat) (w w' : World) (o : outcome (list N)) :
  generate_unique n w = (o, w') ->
  tables w' = tables w /\ clock w' = clock w /\ clock_reads w' = clock_reads w /\
  entropy w' = entropy w.
Proof.
  revert w. induction n as [|n IH]; intros w E.
  - cbn in E. unfold raise in E. injection E as _ <-. now conjs.
  - rewrite generate_unique_step in E.
    destruct (lookup (candidate w 0) (tables w)).
    + apply IH in E. exact E.
    + injection E as _ <-. now conjs.
Qed.

Lemma generate_unique_free (n : nat) (w w' : World) (code : list N) :
  generate_unique n w = (Return code, w') -> taken (tables w) code = false.
Proof.
  revert w. induction n as [|n IH]; intros w E.
  - discriminate.
  - rewrite generate_unique_step in E.
    destruct (lookup (candidate w 0) (tables w)) eqn:El.
    + apply IH in E. exact E.
    + injection E as <- _. now rewrite taken_lookup, El.
Qed.

Lemma lookup_appended (code : str) (db db' : Db) (row : URLModel.t) :
  taken db code = false ->
  urls db' = urls db ++ [row] ->
  URLModel.short_code row = code ->
  lookup code db' = Some row.
Proof.
  intros Hfree Hu Hc. unfold lookup. rewrite Hu. unfold taken in Hfree.
  clear Hu. induction (urls db) as [|x l IH]; cbn [List.find app existsb] in *.
  - now rewrite Hc, str_eqb_refl.
  - destruct (str_eqb (URLModel.short_code x) code); [discriminate | now apply IH].
Qed.

Section ShortenSuccess.
Context `{PyLib}.

(** The row a successful call stores, and the world it leaves. *)
Lemma create_short_url_success (url_data : URLCreate.t) (request : Request)
    (w w' : World) (resp : URLResponse.t) :
  create_short_url url_data request w = (Return resp, w') ->
  exists db_url,
    db_url =
      {| URLModel.id := next_url_id (tables w);
         URLModel.original_url := URLCreate.original_url url_data;
         URLModel.short_code := URLResponse.short_code resp;
         URLModel.created_at := {| ticks := clock w (clock_reads w); tzinfo := None |};
         URLModel.expires_at := option_map stored (URLCreate.expires_at url_data);
         URLModel.click_count := 0;
         URLModel.last_checked := None |} /\
    taken (tables w) (URLResponse.short_code resp) = false /\
    tables w' =
      {| urls := urls (tables w) ++ [db_url]; clicks := clicks (tables w);
         next_url_id := next_url_id (tables w) + 1;
         next_click_id := next_click_id (tables w) |} /\
    clock w' = clock w /\ clock_reads w' = S (clock_reads w) /\
    resp =
      {| URLResponse.id := URLModel.id db_url;
         URLResponse.original_url := URLModel.original_url db_url;
         URLResponse.short_code := URLModel.short_code db_url;
         URLResponse.short_url :=
           base_address request ++ py "/" ++ URLModel.short_code db_url;
         URLResponse.created_at := URLModel.created_at db_url;
         URLResponse.expires_at := URLModel.expires_at db_url;
         URLResponse.click_count := URLModel.click_count db_url |} /\
    is_valid_url (URLCreate.original_url url_data) = true /\
    (forall c a, URLCreate.custom_alias url_data = Some (c :: a) ->
       URLResponse.short_code resp = c :: a /\
       (3 <= length (c :: a) <= 20)%nat /\
       drawn w' = drawn w /\
       journal w' = journal w ++ [SelectUrlByCode (c :: a); InsertUrl (c :: a)]).
Proof.
  unfold create_short_url.
  destruct (is_valid_url (URLCreate.original_url url_data)) eqn:Hvalid; cbn [negb];
    [|discriminate].
  intros E. apply bind_inv in E as (code & w1 & Hcode & E).
  assert (Hw1 : tables w1 = tables w /\ clock w1 = clock w /\
                clock_reads w1 = clock_reads w /\
                forall c a, URLCreate.custom_alias url_data = Some (c :: a) ->
                  code = c :: a /\ (3 <= length (c :: a) <= 20)%nat /\
                  drawn w1 = drawn w /\
                  journal w1 = journal w ++ [SelectUrlByCode (c :: a)]).
  { destruct (URLCreate.custom_alias url_data) as [[|c a]|].
    - apply generate_unique_world in Hcode as (Ht & Hc & Hr & _). now conjs.
    - destruct ((length (c :: a) <? 3)%nat || (20 <? length (c :: a))%nat) eqn:Hlen;
        [discriminate|].
      apply orb_false_iff in Hlen as [H3 H20].
      apply Nat.ltb_ge in H3. apply Nat.ltb_ge in H20.
      unfold bind in Hcode. rewrite query_url_by_code_run in Hcode.
      destruct (lookup (c :: a) (tables w)); [discriminate|].
      unfold ret in Hcode. injection Hcode as <- <-. conjs; try reflexivity.
      intros c' a' [= <- <-]. now conjs.
    - apply generate_unique_world in Hcode as (Ht & Hc & Hr & _). now conjs. }
  destruct Hw1 as (Ht & Hc & Hr & Halias).
  apply bind_inv in E as (db_url & w2 & Hadd & E).
  unfold ret in E. injection E as <- <-.
  unfold add_commit_refresh, bind, datetime_now_utc, bind, read_clock, ret in Hadd.
  cbn in Hadd. fold (taken (tables w1) code) in Hadd.
  destruct (taken (tables w1) code) eqn:Hfree; [discriminate|].
  injection Hadd as <- <-. cbn. rewrite Ht, Hc, Hr in *.
  eexists. conjs; try reflexivity; try assumption.
  intros c a Ha. destruct (Halias c a Ha) as (-> & Hlen & Hd & Hj).
  repeat (split; [first [assumption | reflexivity]|]).
  rewrite Hj. now rewrite <- app_assoc.
Qed.

(** X1: a successful [create_short_url], with or without alias, stores
    its record under a code that no stored record carried, with the
    URL of the request and a counter at zero, under a key above every
    key in use; of the expiry of the request the record keeps the
    reading and not the zone, and its creation time has no zone
    either; the response returns the times of the record; the rows
    and clicks that were there stay as they were, in their order. *)
Theorem shorten_appends_one_fresh_row (url_data : URLCreate.t) (request : Request)
    (w w' : World) (resp : URLResponse.t) :
  db_ok (tables w) ->
  create_short_url url_data request w = (Return resp, w') ->
  exists db_url,
    urls (tables w') = urls (tables w) ++ [db_url] /\
    clicks (tables w') = clicks (tables w) /\
    (forall x, In x (urls (tables w)) ->
       URLModel.short_code x <> URLModel.short_code db_url /\
       URLModel.id x < URLModel.id db_url) /\
    URLModel.original_url db_url = URLCreate.original_url url_data /\
    URLModel.expires_at db_url
      = match URLCreate.expires_at url_data with
        | Some e => Some {| ticks := ticks e; tzinfo := None |}
        | None => None
        end /\
    tzinfo (URLModel.created_at db_url) = None /\
    URLModel.click_count db_url = 0 /\
    URLModel.last_checked db_url = None /\
    URLResponse.id resp = URLModel.id db_url /\
    URLResponse.short_code resp = URLModel.short_code db_url /\
    URLResponse.expires_at resp = URLModel.expires_at db_url /\
    URLResponse.created_at resp = URLModel.created_at db_url /\
    URLResponse.click_count resp = 0.
Proof.
  intros Hok E.
  apply create_short_url_success in E
    as (db_url & Hrow & Hfree & Ht & _ & _ & Hresp & _).
  exists db_url. rewrite Ht, Hresp, Hrow. cbn. conjs; try reflexivity.
  intros x Hx. split.
  - rewrite taken_lookup in Hfree.
    destruct (lookup (URLResponse.short_code resp) (tables w)) eqn:El; [discriminate|].
    rewrite lookup_none in El. now apply El.
  - destruct Hok as [_ _ Hissued _ _ _]. rewrite List.Forall_forall in Hissued.
    now apply Hissued.
Qed.

(** X2: with a valid URL and an alias of 3 to 20 characters that no
    stored record carries, [create_short_url] succeeds, the alias is
    the code of the new record, the generator is not consulted, and
    the store sees one lookup and one insert. *)
Theorem free_alias_becomes_the_code (url_data : URLCreate.t) (request : Request)
    (w : World) (alias : list N) :
  is_valid_url (URLCreate.original_url url_data) = true ->
  URLCreate.custom_alias url_data = Some alias ->
  (3 <= length alias <= 20)%nat ->
  taken (tables w) alias = false ->
  exists resp w',
    create_short_url url_data request w = (Return resp, w') /\
    URLResponse.short_code resp = alias /\
    URLResponse.original_url resp = URLCreate.original_url url_data /\
    URLResponse.click_count resp = 0 /\
    lookup alias (tables w') <> None /\
    drawn w' = drawn w /\
    journal w' = journal w ++ [SelectUrlByCode alias; InsertUrl alias].
Proof.
  intros Hvalid Ha Hlen Hfree.
  destruct alias as [|c a]; [cbn in Hlen; lia|].
  destruct (add_commit_refresh_run (URLCreate.original_url url_data) (c :: a)
              (URLCreate.expires_at url_data) (log (SelectUrlByCode (c :: a)) w) Hfree)
    as (db_url & w' & Hadd & Hrow & Hurls & _ & _ & _ & Hj & Hd & _).
  assert (E : create_short_url url_data request w
              = (Return
                   {| URLResponse.id := URLModel.id db_url;
                      URLResponse.original_url := URLModel.original_url db_url;
                      URLResponse.short_code := URLModel.short_code db_url;
                      URLResponse.short_url :=
                        rstrip (ch "/") (base_url request) ++ py "/" ++ (c :: a);
                      URLResponse.created_at := URLModel.created_at db_url;
                      URLResponse.expires_at := URLModel.expires_at db_url;
                      URLResponse.click_count := URLModel.click_count db_url |}, w')).
  { unfold create_short_url. rewrite Hvalid, Ha. cbn [negb].
    replace ((length (c :: a) <? 3)%nat || (20 <? length (c :: a))%nat) with false
      by (symmetry; apply orb_false_iff; rewrite !Nat.ltb_ge; lia).
    unfold bind at 1. unfold bind at 1. rewrite query_url_by_code_run.
    rewrite taken_lookup in Hfree.
    destruct (lookup (c :: a) (tables w)); [discriminate|].
    unfold ret at 1. unfold bind at 1. now rewrite Hadd. }
  eexists _, w'. split; [exact E|]. rewrite Hrow. cbn. conjs; try reflexivity.
  - rewrite (lookup_appended (c :: a) (tables w) (tables w') db_url); try assumption.
    + discriminate.
    + now rewrite Hrow.
  - exact Hd.
  - rewrite Hj. cbn. now rewrite <- app_assoc.
Qed.

(** X3: once an alias has been given out, asking for it again raises
    the 409 error, whatever URL comes with it, and changes nothing in
    the tables. *)
Theorem second_use_of_alias_conflicts (first second : URLCreate.t)
    (request request' : Request) (w w' : World) (resp : URLResponse.t)
    (c : N) (a : list N) :
  URLCreate.custom_alias first = Some (c :: a) ->
  create_short_url first request w = (Return resp, w') ->
  URLCreate.custom_alias second = Some (c :: a) ->
  is_valid_url (URLCreate.original_url second) = true ->
  exists w'',
    create_short_url second request' w'
      = (Raise (HTTPException 409 "Custom alias already exists"), w'') /\
    tables w'' = tables w'.
Proof.
  intros Ha E Ha' Hvalid.
  apply create_short_url_success in E
    as (db_url & Hrow & Hfree & Ht & _ & _ & _ & _ & Halias).
  destruct (Halias c a Ha) as (Hcode & Hlen & _).
  assert (Hl : lookup (c :: a) (tables w') = Some db_url).
  { apply (lookup_appended _ (tables w)).
    - now rewrite <- Hcode.
    - now rewrite Ht.
    - now rewrite Hrow. }
  exists (log (SelectUrlByCode (c :: a)) w'). split; [|reflexivity].
  unfold create_short_url. rewrite Hvalid, Ha'. cbn [negb].
  replace ((length (c :: a) <? 3)%nat || (20 <? length (c :: a))%nat) with false
    by (symmetry; apply orb_false_iff; rewrite !Nat.ltb_ge; lia).
  unfold bind at 1. unfold bind at 1. rewrite query_url_by_code_run, Hl. reflexivity.
Qed.
End ShortenSuccess.

(** ** Every way [redirect_to_url] can end *)

Lemma check_not_expired_cases (u : URLModel.t) (w : World) :
  (unexpired_at u (clock w (clock_reads w)) /\
   exists w', check_not_expired u w = (Return tt, w') /\ tables w' = tables w /\
              journal w' = journal w /\ clock w' = clock w /\
              (clock_reads w <= clock_reads w')%nat) \/
  (exists e, URLModel.expires_at u = Some e /\ instant e < clock w (clock_reads w) /\
   exists w', check_not_expired u w
                = (Raise (HTTPException 410 "Short URL has expired"), w') /\
              tables w' = tables w /\ journal w' = journal w).
Proof.
  destruct (URLModel.expires_at u) as [e|] eqn:He.
  - destruct (Z_lt_le_dec (instant e) (clock w (clock_reads w))) as [Hlt|Hle].
    + right. exists e. conjs; try easy. now apply (check_not_expired_past u e).
    + left. assert (Hu : unexpired_at u (clock w (clock_reads w))).
      { unfold unexpired_at. now rewrite He. }
      split; [exact Hu|].
      destruct (check_not_expired_ok u w Hu) as (w' & ? & ? & ? & ? & ? & _).
      exists w'. now conjs.
  - left. assert (Hu : unexpired_at u (clock w (clock_reads w))).
    { unfold unexpired_at. now rewrite He. }
    split; [exact Hu|].
    destruct (check_not_expired_ok u w Hu) as (w' & ? & ? & ? & ? & ? & _).
    exists w'. now conjs.
Qed.

(** The four ways a call of [redirect_to_url] ends, by what it finds. *)
Lemma redirect_to_url_cases (code : str) (request : Request) (w : World) :
  (lookup code (tables w) = None /\
   redirect_to_url code request w
     = (Raise (HTTPException 404 "Short URL not found"), log (SelectUrlByCode code) w)) \/
  (exists u e w',
     lookup code (tables w) = Some u /\ URLModel.expires_at u = Some e /\
     instant e < clock w (clock_reads w) /\
     redirect_to_url code request w
       = (Raise (HTTPException 410 "Short URL has expired"), w') /\
     tables w' = tables w /\ journal w' = journal w ++ [SelectUrlByCode code]) \/
  (exists u w',
     lookup code (tables w) = Some u /\ unexpired_at u (clock w (clock_reads w)) /\
     client request = None /\
     redirect_to_url code request w = (Raise AttributeError, w') /\
     tables w' = tables w /\ journal w' = journal w ++ [SelectUrlByCode code]) \/
  (exists u host w',
     lookup code (tables w) = Some u /\ unexpired_at u (clock w (clock_reads w)) /\
     client request = Some host /\
     redirect_to_url code request w
       = (Return {| url := URLModel.original_url u; status_code := 307 |}, w')).
Proof.
  destruct (lookup code (tables w)) as [u|] eqn:Hl.
  2:{ left. split; [reflexivity|]. unfold redirect_to_url.
      unfold bind at 1. now rewrite query_url_by_code_run, Hl. }
  right.
  destruct (check_not_expired_cases u (log (SelectUrlByCode code) w))
    as [(Hu & w1 & Hchk & Ht & Hj & _)|(e & He & Hlt & w1 & Hchk & Ht & Hj)].
  - right. destruct (client request) as [host|] eqn:Hc.
    + right. exists u, host.
      destruct (redirect_to_url_run code request w u host Hl Hc Hu) as (w' & E).
      exists w'. now conjs.
    + left. exists u, w1. conjs; try easy.
      unfold redirect_to_url. unfold bind at 1. rewrite query_url_by_code_run, Hl.
      unfold bind at 1. cbn [columns loaded]. rewrite Hchk, Hc. reflexivity.
  - left. exists u, e, w1. conjs; try easy.
    unfold redirect_to_url. unfold bind at 1. rewrite query_url_by_code_run, Hl.
    unfold bind at 1. cbn [columns loaded]. now rewrite Hchk.
Qed.

(** What a successful call has written, field by field. *)
Lemma redirect_to_url_effect (code : str) (request : Request) (w w' : World)
    (r : RedirectResponse) :
  redirect_to_url code request w = (Return r, w') ->
  exists u k,
    lookup code (tables w) = Some u /\
    (clock_reads w < k)%nat /\ clock_reads w' = S k /\
    tables w' =
      {| urls := write_back u (urls (tables w));
         clicks :=
           clicks (tables w)
           ++ [{| ClickModel.id := next_click_id (tables w);
                  ClickModel.url_id := URLModel.id u;
                  ClickModel.ip_address := client request;
                  ClickModel.user_agent :=
                    Some (default (py "Unknown") (headers_get request (py "user-agent")));
                  ClickModel.referer := headers_get request (py "referer");
                  ClickModel.clicked_at := {| ticks := clock w k; tzinfo := None |} |}];
         next_url_id := next_url_id (tables w);
         next_click_id := next_click_id (tables w) + 1 |} /\
    journal w' = journal w ++ [SelectUrlByCode code; UpdateUrlInsertClick (URLModel.id u)].
Proof.
  intros E.
  destruct (redirect_to_url_cases code request w)
    as [(_ & E')|[(u & e & w1 & _ & _ & _ & E' & _)|[(u & w1 & _ & _ & _ & E' & _)
       |(u & host & w1 & Hl & Hu & Hc & _)]]];
    try (rewrite E' in E; discriminate).
  exists u. revert E. unfold redirect_to_url.
  unfold bind at 1. rewrite query_url_by_code_run, Hl.
  destruct (check_not_expired_ok u (log (SelectUrlByCode code) w) Hu)
    as (w2 & Hchk & Ht & Hj & Hck & Hr & _).
  unfold bind at 1. cbn [columns loaded]. rewrite Hchk, Hc.
  unfold bind at 1. unfold ret at 1.
  unfold bind at 1. unfold datetime_now_utc, bind, read_clock, ret.
  unfold add_click_commit, bind, datetime_utcnow, bind, read_clock, ret.
  cbn. intros E. injection E as _ <-. cbn. rewrite Ht, Hj, Hck. cbn in *.
  exists (S (clock_reads w2)). conjs; try reflexivity; try lia.
  now rewrite <- app_assoc.
Qed.

(** X4: a call of [redirect_to_url] that raises has sent one lookup
    and changed no table, and it raises in one of three ways: the 404
    error when no record has the code; the 410 error when the record's
    expiry lies before the clock reading; [AttributeError] when the
    record is good but the request carries no client address.  The
    comparison of the expiry with the clock never raises. *)
Theorem resolve_fails_in_three_ways (code : str) (request : Request) (w w' : World)
    (e : Exn) :
  redirect_to_url code request w = (Raise e, w') ->
  tables w' = tables w /\
  journal w' = journal w ++ [SelectUrlByCode code] /\
  ((e = HTTPException 404 "Short URL not found" /\ lookup code (tables w) = None) \/
   (e = HTTPException 410 "Short URL has expired" /\
    exists u x, lookup code (tables w) = Some u /\ URLModel.expires_at u = Some x /\
                instant x < clock w (clock_reads w)) \/
   (e = AttributeError /\ client request = None /\
    exists u, lookup code (tables w) = Some u /\
              unexpired_at u (clock w (clock_reads w)))).
Proof.
  intros E.
  destruct (redirect_to_url_cases code request w)
    as [(Hl & E')|[(u & x & w1 & Hl & Hx & Hlt & E' & Ht & Hj)
       |[(u & w1 & Hl & Hu & Hc & E' & Ht & Hj)|(u & host & w1 & _ & _ & _ & E')]]];
    rewrite E' in E; try discriminate; injection E as <- <-.
  - conjs; try reflexivity. now left.
  - conjs; try assumption. right. left. split; [reflexivity|]. now exists u, x.
  - conjs; try assumption. right. right. conjs; try easy. now exists u.
Qed.

(** X5: a record with an expiry is served up to and including the
    instant of its expiry and refused with the 410 error from the
    next clock tick on; an expiry stored without a zone counts as UTC. *)
Theorem record_served_through_its_expiry_instant (code : str) (request : Request)
    (w : World) (u : URLModel.t) (e : datetime) (host : str) :
  lookup code (tables w) = Some u ->
  URLModel.expires_at u = Some e ->
  client request = Some host ->
  ((exists w',
      redirect_to_url code request w
        = (Return {| url := URLModel.original_url u; status_code := 307 |}, w'))
   <-> clock w (clock_reads w) <= ticks e - default 0 (tzinfo e)) /\
  ((exists w',
      redirect_to_url code request w
        = (Raise (HTTPException 410 "Short URL has expired"), w'))
   <-> ticks e - default 0 (tzinfo e) < clock w (clock_reads w)).
Proof.
  intros Hl He Hc. fold (instant e).
  destruct (redirect_to_url_cases code request w)
    as [(Hl' & _)|[(u' & x & w1 & Hl' & Hx & Hlt & E' & _)
       |[(u' & w1 & _ & _ & Hc' & _)|(u' & host' & w1 & Hl' & Hu & _ & E')]]];
    try congruence.
  - rewrite Hl in Hl'. injection Hl' as <-. rewrite He in Hx. injection Hx as <-.
    split; split.
    + intros (w' & E). rewrite E in E'. discriminate.
    + lia.
    + intros _. exact Hlt.
    + intros _. now exists w1.
  - rewrite Hl in Hl'. injection Hl' as <-. unfold unexpired_at in Hu. rewrite He in Hu.
    split; split.
    + intros _. exact Hu.
    + intros _. now exists w1.
    + intros (w' & E). rewrite E in E'. discriminate.
    + lia.
Qed.

(** X6: the click a successful [redirect_to_url] stores is the last row
    of the click table; it refers to the record served and carries the
    client address of the request, its [user-agent] header or
    ["Unknown"] when there is none, its [referer] header or nothing,
    and as time a zone-less reading of the clock taken after the one
    the expiry was checked against. *)
Theorem click_records_the_request (code : str) (request : Request) (w w' : World)
    (r : RedirectResponse) :
  redirect_to_url code request w = (Return r, w') ->
  exists u click,
    lookup code (tables w) = Some u /\
    clicks (tables w') = clicks (tables w) ++ [click] /\
    ClickModel.url_id click = URLModel.id u /\
    ClickModel.ip_address click = client request /\
    client request <> None /\
    ClickModel.user_agent click
      = Some (match headers_get request (py "user-agent") with
              | Some agent => agent
              | None => py "Unknown"
              end) /\
    ClickModel.referer click = headers_get request (py "referer") /\
    tzinfo (ClickModel.clicked_at click) = None /\
    exists k, (clock_reads w < k)%nat /\
              ticks (ClickModel.clicked_at click) = clock w k.
Proof.
  intros E. pose proof E as E'.
  apply redirect_to_url_effect in E as (u & k & Hl & Hk & _ & Ht & _).
  apply redirect_to_url_inv in E' as (_ & host & _ & _ & Hc & _).
  exists u. eexists. rewrite Ht. cbn. conjs; try reflexivity; try assumption.
  - congruence.
  - now exists k.
Qed.

(** ** Requests touch the record they name, and no other *)

Lemma find_write_back (code : str) (u : URLModel.t) (l : list URLModel.t) :
  (forall x, In x l -> URLModel.id x = URLModel.id u -> x = u) ->
  URLModel.short_code u <> code ->
  List.find (fun x => str_eqb (URLModel.short_code x) code) (write_back u l)
  = List.find (fun x => str_eqb (URLModel.short_code x) code) l.
Proof.
  intros Huniq Hne. unfold write_back.
  induction l as [|x l IH]; cbn [map List.find]; [reflexivity|].
  assert (IH' := IH (fun y Hy => Huniq y (or_intror Hy))).
  destruct (Z.eqb_spec (URLModel.id x) (URLModel.id u)) as [E|_].
  - rewrite (Huniq x (or_introl eq_refl) E).
    replace (str_eqb (URLModel.short_code (counted u)) code) with false
      by (symmetry; now apply str_eqb_neq).
    replace (str_eqb (URLModel.short_code u) code) with false
      by (symmetry; now apply str_eqb_neq).
    exact IH'.
  - now rewrite IH'.
Qed.

Lemma filter_app_other {A} (p : A -> bool) (l : list A) (x : A) :
  p x = false -> List.filter p (l ++ [x]) = List.filter p l.
Proof. intros E. rewrite List.filter_app. cbn. rewrite E. apply app_nil_r. Qed.

(** X7: a successful [redirect_to_url] changes, of the record it
    serves, the counter and nothing else, and leaves every other code
    resolving to the row it resolved to, the number and order of the
    rows, and the clicks of every other record. *)
Theorem resolve_touches_one_record (code : str) (request : Request) (w w' : World)
    (r : RedirectResponse) (u : URLModel.t) :
  db_ok (tables w) ->
  lookup code (tables w) = Some u ->
  redirect_to_url code request w = (Return r, w') ->
  (exists u',
     lookup code (tables w') = Some u' /\
     URLModel.id u' = URLModel.id u /\
     URLModel.original_url u' = URLModel.original_url u /\
     URLModel.short_code u' = URLModel.short_code u /\
     URLModel.created_at u' = URLModel.created_at u /\
     URLModel.expires_at u' = URLModel.expires_at u /\
     URLModel.last_checked u' = URLModel.last_checked u) /\
  (forall other, other <> code ->
     lookup other (tables w') = lookup other (tables w)) /\
  map URLModel.short_code (urls (tables w')) = map URLModel.short_code (urls (tables w)) /\
  (forall key, key <> URLModel.id u ->
     clicks_of key (tables w') = clicks_of key (tables w)).
Proof.
  intros Hok Hl E.
  pose proof (redirect_to_url_lookup code request w w' r u Hok Hl E) as Hl'.
  apply redirect_to_url_effect in E as (u0 & k & Hl0 & _ & _ & Ht & _).
  rewrite Hl in Hl0. injection Hl0 as <-.
  pose proof (lookup_some _ _ _ Hl) as [Hin Hcode].
  assert (Huniq : forall x, In x (urls (tables w)) ->
                            URLModel.id x = URLModel.id u -> x = u).
  { intros x Hx Ex. apply (unique_by_key URLModel.id (urls (tables w))); auto.
    apply Hok. }
  conjs.
  - exists (counted u). now conjs.
  - intros other Hne. unfold lookup. rewrite Ht. cbn [urls].
    apply find_write_back; [assumption | congruence].
  - rewrite Ht. cbn [urls]. now apply write_back_keeps.
  - intros key Hne. unfold clicks_of. rewrite Ht. cbn [clicks].
    apply filter_app_other. cbn. apply Z.eqb_neq. congruence.
Qed.

(** ** Shorten, then resolve or ask for statistics *)

Section ShortenThenUse.
Context `{PyLib}.

(** X8: in a call of [redirect_to_url] with a client address, the
    code [create_short_url] returned resolves to the URL that was
    shortened when no expiry was given; when one was given, the call
    is served exactly as long as the clock has not passed the reading
    of that expiry, and refused with the 410 error from then on.
    [create_short_url] does not look at the expiry, so a record
    created with a reading in the past is stored and never served;
    and since the record keeps no zone and the handler reads the
    stored value as UTC, the zone given with the expiry plays no
    part. *)
Theorem shortened_code_resolves_to_its_url (url_data : URLCreate.t)
    (request visit : Request) (w w' : World) (resp : URLResponse.t) (host : str) :
  create_short_url url_data request w = (Return resp, w') ->
  client visit = Some host ->
  (URLCreate.expires_at url_data = None ->
   exists w'',
     redirect_to_url (URLResponse.short_code resp) visit w'
       = (Return {| url := URLCreate.original_url url_data; status_code := 307 |}, w'')) /\
  (forall e,
     URLCreate.expires_at url_data = Some e ->
     ((exists w'',
         redirect_to_url (URLResponse.short_code resp) visit w'
           = (Return {| url := URLCreate.original_url url_data; status_code := 307 |}, w''))
      <-> clock w' (clock_reads w') <= ticks e) /\
     ((exists w'',
         redirect_to_url (URLResponse.short_code resp) visit w'
           = (Raise (HTTPException 410 "Short URL has expired"), w''))
      <-> ticks e < clock w' (clock_reads w'))).
Proof.
  intros E Hc.
  apply create_short_url_success in E as (db_url & Hrow & Hfree & Ht & _).
  assert (Hl : lookup (URLResponse.short_code resp) (tables w') = Some db_url).
  { apply (lookup_appended _ (tables w)); try assumption.
    - now rewrite Ht.
    - now rewrite Hrow. }
  assert (Hurl : URLModel.original_url db_url = URLCreate.original_url url_data)
    by now rewrite Hrow.
  assert (Hexp : URLModel.expires_at db_url
                 = option_map stored (URLCreate.expires_at url_data))
    by now rewrite Hrow.
  rewrite <- Hurl. split.
  - intros Hnone. apply (redirect_to_url_run _ _ _ db_url host); try assumption.
    unfold unexpired_at. now rewrite Hexp, Hnone.
  - intros e He. rewrite He in Hexp. cbn [option_map] in Hexp.
    assert (Hi : instant (stored e) = ticks e) by (unfold instant; cbn; lia).
    destruct (redirect_to_url_cases (URLResponse.short_code resp) visit w')
      as [(Hl' & _)|[(u & x & w1 & Hl' & Hx & Hlt & E' & _)
         |[(u & w1 & _ & _ & Hc' & _)|(u & host' & w1 & Hl' & Hu & _ & E')]]];
      try congruence.
    + rewrite Hl in Hl'. injection Hl' as <-. rewrite Hexp in Hx. injection Hx as <-.
      rewrite Hi in Hlt. split; split.
      * intros (w'' & F). rewrite F in E'. discriminate.
      * lia.
      * intros _. exact Hlt.
      * intros _. now exists w1.
    + rewrite Hl in Hl'. injection Hl' as <-. unfold unexpired_at in Hu.
      rewrite Hexp, Hi in Hu. split; split.
      * intros _. exact Hu.
      * intros _. now exists w1.
      * intros (w'' & F). rewrite F in E'. discriminate.
      * lia.
Qed.

(** X9: right after [create_short_url], the statistics of the new
    code show the URL of the request, the key, the creation time and
    the expiry returned to the caller (the expiry of the request by
    its reading, without its zone), a counter at zero, no click and
    no access time. *)
Theorem fresh_record_has_empty_stats (url_data : URLCreate.t) (request : Request)
    (w w' : World) (resp : URLResponse.t) :
  db_ok (tables w) ->
  create_short_url url_data request w = (Return resp, w') ->
  exists stats w'',
    get_url_stats (URLResponse.short_code resp) w' = (Return stats, w'') /\
    URLStats.id stats = URLResponse.id resp /\
    URLStats.short_code stats = URLResponse.short_code resp /\
    URLStats.original_url stats = URLCreate.original_url url_data /\
    URLStats.expires_at stats
      = match URLCreate.expires_at url_data with
        | Some e => Some {| ticks := ticks e; tzinfo := None |}
        | None => None
        end /\
    URLStats.expires_at stats = URLResponse.expires_at resp /\
    URLStats.created_at stats = URLResponse.created_at resp /\
    URLStats.click_count stats = 0 /\
    URLStats.recent_clicks stats = [] /\
    URLStats.last_accessed stats = None.
Proof.
  intros Hok E.
  apply create_short_url_success in E as (db_url & Hrow & Hfree & Ht & _ & _ & Hresp & _).
  assert (Hl : lookup (URLResponse.short_code resp) (tables w') = Some db_url).
  { apply (lookup_appended _ (tables w)); try assumption.
    - now rewrite Ht.
    - now rewrite Hrow. }
  rewrite (get_url_stats_run _ _ _ Hl). eexists _, _. split; [reflexivity|].
  assert (Hnone : recent (URLModel.id db_url) (tables w') = []).
  { unfold recent.
    replace (clicks_of (URLModel.id db_url) (tables w')) with (@nil ClickModel.t);
      [reflexivity|].
    rewrite (clicks_of_same _ (tables w) (tables w')) by now rewrite Ht.
    rewrite Hrow. cbn [URLModel.id]. symmetry. now apply clicks_of_fresh. }
  cbn. rewrite Hnone, Hresp, Hrow. cbn. now conjs.
Qed.
End ShortenThenUse.

(** ** What [delete_url] leaves *)

Lemma find_filter_kept {A} (p q : A -> bool) (l : list A) :
  (forall x, In x l -> p x = true -> q x = true) ->
  List.find p (List.filter q l) = List.find p l.
Proof.
  induction l as [|x l IH]; intros Hpq; [reflexivity|]. cbn.
  assert (IH' := IH (fun y Hy => Hpq y (or_intror Hy))).
  destruct (p x) eqn:Hp.
  - rewrite (Hpq x (or_introl eq_refl) Hp). cbn. now rewrite Hp.
  - destruct (q x); cbn; [rewrite Hp|]; exact IH'.
Qed.

Lemma filter_filter_kept {A} (p q : A -> bool) (l : list A) :
  (forall x, In x l -> p x = true -> q x = true) ->
  List.filter p (List.filter q l) = List.filter p l.
Proof.
  induction l as [|x l IH]; intros Hpq; [reflexivity|]. cbn.
  assert (IH' := IH (fun y Hy => Hpq y (or_intror Hy))).
  destruct (p x) eqn:Hp.
  - rewrite (Hpq x (or_introl eq_refl) Hp). cbn. now rewrite Hp, IH'.
  - destruct (q x); cbn; [rewrite Hp|]; exact IH'.
Qed.

Lemma filter_split_length {A} (p : A -> bool) (l : list A) :
  length l = (length (List.filter (fun x => negb (p x)) l) + length (List.filter p l))%nat.
Proof.
  induction l as [|x l IH]; [reflexivity|]. cbn. destruct (p x); cbn; lia.
Qed.

Lemma filter_out_one {B} (f : URLModel.t -> B) (eqb : B -> B -> bool)
    (l : list URLModel.t) (u : URLModel.t) :
  (forall a b, eqb a b = true <-> a = b) ->
  NoDup (map f l) -> In u l ->
  length l = S (length (List.filter (fun x => negb (eqb (f x) (f u))) l)).
Proof.
  intros Heqb Hnd Hin. induction l as [|x l IH]; [destruct Hin|].
  cbn [map] in Hnd. apply NoDup_cons in Hnd as [Hx Hnd]. cbn.
  destruct Hin as [->|Hin].
  - replace (eqb (f u) (f u)) with true by (symmetry; now apply Heqb). cbn.
    f_equal. clear IH. induction l as [|y l IH]; [reflexivity|]. cbn.
    cbn [map] in *. apply NoDup_cons in Hnd as [_ Hnd].
    destruct (eqb (f y) (f u)) eqn:E.
    + exfalso. apply Hx. apply Heqb in E. rewrite <- E. now left.
    + cbn. f_equal. apply IH; [|assumption]. intros F. apply Hx. now right.
  - destruct (eqb (f x) (f u)) eqn:E.
    + exfalso. apply Hx. apply Heqb in E. rewrite E. apply list_elem_of_In.
      now apply in_map.
    + cbn. f_equal. now apply IH.
Qed.

(** What a call of [delete_url] on a stored code does. *)
Lemma delete_url_effect (code : str) (w : World) (u : URLModel.t) :
  lookup code (tables w) = Some u ->
  delete_url code w =
    (Return 204,
     after_statements [SelectUrlByCode code; DeleteUrl (URLModel.id u)]
       (set_tables w
          {| urls := List.filter (fun x => negb (URLModel.id x =? URLModel.id u))
                       (urls (tables w));
             clicks := List.filter (fun c => negb (ClickModel.url_id c =? URLModel.id u))
                         (clicks (tables w));
             next_url_id := next_url_id (tables w);
             next_click_id := next_click_id (tables w) |})).
Proof.
  intros Hl. unfold delete_url. unfold bind at 1. rewrite query_url_by_code_run, Hl.
  unfold bind, delete_commit, ret, after_statements, log, set_tables. cbn.
  now rewrite <- app_assoc.
Qed.

Lemma delete_url_gone (code : str) (w : World) (u : URLModel.t) :
  db_ok (tables w) ->
  lookup code (tables w) = Some u ->
  taken (tables (snd (delete_url code w))) code = false.
Proof.
  intros Hok Hl. rewrite (delete_url_effect _ _ _ Hl).
  cbn [snd tables after_statements set_tables]. rewrite taken_lookup.
  match goal with |- match ?o with _ => _ end = _ => destruct o as [x|] eqn:Hx end;
    [|reflexivity].
  exfalso. apply lookup_some in Hx as [Hin Hcode]. cbn [urls] in Hin.
  apply filter_In in Hin as [Hin Hne]. apply negb_true_iff, Z.eqb_neq in Hne.
  apply Hne. f_equal. apply (lookup_unique code (tables w)); auto. apply Hok.
Qed.

(** X10: a successful [delete_url] sends one lookup and one delete;
    every other code still resolves to the row it resolved to, the
    table of records is one row shorter, the clicks of every other
    record are as they were, and the table of clicks is shorter by the
    clicks of the deleted record, as many as its counter said. *)
Theorem delete_touches_one_record (code : str) (w w' : World) (u : URLModel.t)
    (status : Z) :
  db_ok (tables w) ->
  counts_ok (tables w) ->
  lookup code (tables w) = Some u ->
  delete_url code w = (Return status, w') ->
  status = 204 /\
  journal w' = journal w ++ [SelectUrlByCode code; DeleteUrl (URLModel.id u)] /\
  (forall other, other <> code ->
     lookup other (tables w') = lookup other (tables w)) /\
  length (urls (tables w)) = S (length (urls (tables w'))) /\
  (forall key, key <> URLModel.id u ->
     clicks_of key (tables w') = clicks_of key (tables w)) /\
  Z.of_nat (length (clicks (tables w)))
    = Z.of_nat (length (clicks (tables w'))) + URLModel.click_count u.
Proof.
  intros Hok Hcounts Hl E. rewrite (delete_url_effect _ _ _ Hl) in E.
  injection E as <- <-. cbn [tables set_tables after_statements journal urls clicks].
  pose proof (lookup_some _ _ _ Hl) as [Hin Hcode].
  conjs; try reflexivity.
  - intros other Hne. unfold lookup. cbn [urls]. apply find_filter_kept.
    intros x Hx Hp. apply str_eqb_eq in Hp. apply negb_true_iff, Z.eqb_neq.
    intros Eid. apply Hne. rewrite <- Hp, <- Hcode. f_equal. symmetry.
    apply (unique_by_key URLModel.id (urls (tables w))); auto. apply Hok.
  - apply (filter_out_one URLModel.id Z.eqb); [apply Z.eqb_eq | apply Hok | assumption].
  - intros key Hne. unfold clicks_of. cbn [clicks]. apply filter_filter_kept.
    intros c _ Hp. apply Z.eqb_eq in Hp. apply negb_true_iff, Z.eqb_neq. congruence.
  - unfold counts_ok in Hcounts. rewrite List.Forall_forall in Hcounts.
    rewrite (Hcounts u Hin). unfold clicks_of.
    rewrite (filter_split_length (fun c => ClickModel.url_id c =? URLModel.id u)
               (clicks (tables w))) at 1.
    lia.
Qed.

Section AliasReuse.
Context `{PyLib}.

(** X11: once a record is deleted its code is free again: a request
    for the same alias, of 3 to 20 characters and with a valid URL,
    succeeds, and the new record starts at zero, with none of the
    clicks of the old one. *)
Theorem deleted_alias_can_be_taken_again (alias : str) (url_data : URLCreate.t)
    (request : Request) (w w1 : World) (u : URLModel.t) :
  db_ok (tables w) ->
  lookup alias (tables w) = Some u ->
  delete_url alias w = (Return 204, w1) ->
  URLCreate.custom_alias url_data = Some alias ->
  (3 <= length alias <= 20)%nat ->
  is_valid_url (URLCreate.original_url url_data) = true ->
  exists resp w2 stats w3,
    create_short_url url_data request w1 = (Return resp, w2) /\
    URLResponse.short_code resp = alias /\
    get_url_stats alias w2 = (Return stats, w3) /\
    URLStats.original_url stats = URLCreate.original_url url_data /\
    URLStats.click_count stats = 0 /\
    URLStats.recent_clicks stats = [].
Proof.
  intros Hok Hl Hdel Ha Hlen Hvalid.
  assert (Hok1 : db_ok (tables w1)) by exact (db_ok_delete_url _ _ _ _ Hok Hdel).
  assert (Hfree : taken (tables w1) alias = false).
  { pose proof (delete_url_gone alias w u Hok Hl) as G. now rewrite Hdel in G. }
  destruct alias as [|c a]; [cbn in Hlen; lia|].
  destruct (create_short_url url_data request w1) as [[resp|e] w2] eqn:E.
  - pose proof E as E'.
    apply create_short_url_success in E'
      as (db_url & Hrow & _ & Ht & _ & _ & Hresp & _ & Halias).
    destruct (Halias c a Ha) as (Hcode & _).
    assert (Hlk : lookup (c :: a) (tables w2) = Some db_url).
    { apply (lookup_appended _ (tables w1)); try assumption.
      - now rewrite Ht.
      - now rewrite Hrow. }
    exists resp, w2. rewrite (get_url_stats_run _ _ _ Hlk). eexists _, _.
    conjs; try reflexivity; try assumption.
    + now rewrite Hrow.
    + now rewrite Hrow.
    + cbn. unfold recent.
      replace (clicks_of (URLModel.id db_url) (tables w2)) with (@nil ClickModel.t);
        [reflexivity|].
      rewrite (clicks_of_same _ (tables w1) (tables w2)) by now rewrite Ht.
      rewrite Hrow. cbn [URLModel.id]. symmetry. now apply clicks_of_fresh.
  - exfalso. revert E. unfold create_short_url. rewrite Hvalid, Ha. cbn [negb].
    replace ((length (c :: a) <? 3)%nat || (20 <? length (c :: a))%nat) with false
      by (symmetry; apply orb_false_iff; rewrite !Nat.ltb_ge; lia).
    unfold bind at 1. unfold bind at 1. rewrite query_url_by_code_run.
    rewrite taken_lookup in Hfree.
    destruct (lookup (c :: a) (tables w1)) eqn:Hl1; [discriminate|].
    unfold ret at 1.
    destruct (add_commit_refresh_run (URLCreate.original_url url_data) (c :: a)
                (URLCreate.expires_at url_data) (log (SelectUrlByCode (c :: a)) w1))
      as (db_url & w' & Hadd & _).
    { cbn. now rewrite taken_lookup, Hl1. }
    unfold bind at 1. rewrite Hadd. discriminate.
Qed.
End AliasReuse.

(** X12: expiry stops a record from being served and nothing else:
    once the expiry has passed, every visit is refused with the 410
    error and leaves the tables alone, while the statistics are still
    returned, the record is still listed, and it is still there to be
    deleted. *)
Theorem expired_record_is_kept_and_reported {store : Store} (code : str) (w : World)
    (u : URLModel.t) (e : datetime) :
  lookup code (tables w) = Some u ->
  URLModel.expires_at u = Some e ->
  instant e < clock w (clock_reads w) ->
  (forall visit, exists w',
     redirect_to_url code visit w
       = (Raise (HTTPException 410 "Short URL has expired"), w') /\
     tables w' = tables w) /\
  (exists stats w',
     get_url_stats code w = (Return stats, w') /\
     URLStats.expires_at stats = Some e /\
     URLStats.click_count stats = URLModel.click_count u) /\
  (exists page w',
     list_urls 0 (Z.of_nat (length (urls (tables w)))) w = (Return page, w') /\
     In code (map URLResponse.short_code page)) /\
  (exists w', delete_url code w = (Return 204, w') /\ lookup code (tables w') <> Some u).
Proof.
  intros Hl He Hlt. pose proof (lookup_some _ _ _ Hl) as [Hin Hcode]. conjs.
  - intros visit.
    destruct (redirect_to_url_cases code visit w)
      as [(Hl' & _)|[(u' & x & w1 & _ & _ & _ & E' & Ht' & _)
         |[(u' & w1 & Hl' & Hu & _)|(u' & host' & w1 & Hl' & Hu & _)]]];
      try congruence.
    + now exists w1.
    + rewrite Hl in Hl'. injection Hl' as <-. unfold unexpired_at in Hu.
      rewrite He in Hu. lia.
    + rewrite Hl in Hl'. injection Hl' as <-. unfold unexpired_at in Hu.
      rewrite He in Hu. lia.
  - rewrite (get_url_stats_run _ _ _ Hl). eexists _, _. split; [reflexivity|].
    cbn. now split.
  - unfold list_urls, bind.
    rewrite (query_url_page_natural 0 (length (urls (tables w))) w).
    unfold ret. eexists _, _. split; [reflexivity|].
    rewrite drop_0, firstn_all, map_map. cbn. rewrite <- Hcode. now apply in_map.
  - rewrite (delete_url_effect _ _ _ Hl). eexists. split; [reflexivity|].
    cbn [tables after_statements set_tables]. intros F.
    apply lookup_some in F as [F _]. cbn [urls] in F.
    apply filter_In in F as [_ F]. now rewrite Z.eqb_refl in F.
Qed.

(** ** Listing and statistics *)

Section Listing.
Context `{PyLib} {store : Store}.


(** X14: for a stored code [get_url_stats] returns the record's
    counter and, of the clicks that belong to the record, the ten
    newest, or all of them if there are fewer: every click returned
    is a stored click of this record, and no click of the record that
    is left out is newer than one that is returned.  For a code that
    is not stored it raises the 404 error after the lookup, without
    asking for clicks. *)
Theorem stats_show_the_newest_clicks (code : str) (w : World) :
  match lookup code (tables w) with
  | Some u =>
      exists stats w' shown,
        get_url_stats code w = (Return stats, w') /\
        URLStats.click_count stats = URLModel.click_count u /\
        URLStats.recent_clicks stats = map click_response shown /\
        length shown = Nat.min 10 (length (clicks_of (URLModel.id u) (tables w))) /\
        (forall r, In r shown ->
           In r (clicks (tables w)) /\ ClickModel.url_id r = URLModel.id u) /\
        (forall c r,
           In c (clicks (tables w)) -> ClickModel.url_id c = URLModel.id u ->
           ~ In c shown -> In r shown ->
           ticks (ClickModel.clicked_at c) <= ticks (ClickModel.clicked_at r))
  | None =>
      get_url_stats code w
        = (Raise (HTTPException 404 "Short URL not found"),
           after_statements [SelectUrlByCode code] w)
  end.
Proof.
  destruct (lookup code (tables w)) as [u|] eqn:Hl.
  - rewrite (get_url_stats_run _ _ _ Hl).
    eexists _, _, (recent (URLModel.id u) (tables w)). split; [reflexivity|].
    cbn [URLStats.click_count URLStats.recent_clicks]. conjs; try reflexivity.
    + unfold recent. rewrite length_take. f_equal.
      apply Permutation_length, merge_sort_Permutation.
    + intros r Hr. now apply recent_owned.
    + intros c r Hc Hk Hout Hr. apply (recent_newest (URLModel.id u) (tables w));
        try assumption.
      unfold clicks_of. apply filter_In. split; [assumption|]. now apply Z.eqb_eq.
  - now rewrite (get_url_stats_absent _ _ Hl).
Qed.
End Listing.

(** ** The worlds the service can reach *)

Section Reachable.
Context `{PyLib} {store : Store}.

Lemma alphabet_alias_chars (code : str) :
  (forall c, In c code -> In c alphabet) -> alias_chars_ok code = true.
Proof.
  intros Hin. unfold alias_chars_ok. apply forallb_forall. intros c Hc.
  apply Hin, alphabet_alphanumeric in Hc. apply orb_true_iff. left.
  unfold isalnum.
  assert (Hascii : isascii c = true).
  { unfold isascii. apply N.ltb_lt.
    destruct Hc as [Hc|Hc];
      [apply ascii_letter_spec in Hc | apply ascii_digit_spec in Hc]; lia. }
  rewrite Hascii. now apply orb_true_iff.
Qed.

Lemma validate_URLCreate_inv (body url_data : URLCreate.t) :
  validate_URLCreate body = Return url_data ->
  url_data = body /\
  (1 <= length (URLCreate.original_url body) <= 2048)%nat /\
  match URLCreate.custom_alias body with
  | Some a => (3 <= length a <= 20)%nat /\ alias_chars_ok a = true
  | None => True
  end.
Proof.
  unfold validate_URLCreate, original_url_errors, custom_alias_errors,
    validate_custom_alias.
  destruct (length (URLCreate.original_url body) <? 1)%nat eqn:H1; [discriminate|].
  destruct (2048 <? length (URLCreate.original_url body))%nat eqn:H2; [discriminate|].
  apply Nat.ltb_ge in H1. apply Nat.ltb_ge in H2. cbn [app].
  destruct (URLCreate.custom_alias body) as [a|].
  - destruct (length a <? 3)%nat eqn:H3; [discriminate|].
    destruct (20 <? length a)%nat eqn:H4; [discriminate|].
    apply Nat.ltb_ge in H3. apply Nat.ltb_ge in H4.
    destruct (alias_chars_ok a) eqn:Hc; cbn [negb]; [|discriminate].
    intros [= <-]. now conjs.
  - intros [= <-]. now conjs.
Qed.

Lemma generated_code_chars (url_data : URLCreate.t) (request : Request)
    (w w' : World) (resp : URLResponse.t) :
  URLCreate.custom_alias url_data = None ->
  create_short_url url_data request w = (Return resp, w') ->
  length (URLResponse.short_code resp) = 6%nat /\
  forall c, In c (URLResponse.short_code resp) -> In c alphabet.
Proof.
  intros Ha E.
  destruct (create_short_url_inv _ _ _ _ _ E)
    as (code & w1 & db_url & Hadd & Hgen & Hcode & _).
  apply add_commit_refresh_inv in Hadd as (Hsc & _).
  apply Hgen, generate_unique_returns in Ha as (i & _ & ->).
  rewrite Hcode, Hsc. split; [apply candidate_length | apply candidate_alphabet].
Qed.

Lemma record_ok_post_shorten (body : URLCreate.t) (request : Request) (w : World) :
  Forall record_ok (urls (tables w)) ->
  Forall record_ok (urls (tables (snd (post_shorten body request w)))).
Proof.
  intros Hall. unfold post_shorten, bind, lift.
  destruct (validate_URLCreate body) as [url_data|e] eqn:Hv; [|exact Hall].
  apply validate_URLCreate_inv in Hv as (-> & Hlen & Halias).
  destruct (create_short_url body request w) as [[resp|e] w'] eqn:E; cbn [snd].
  - pose proof E as E'.
    apply create_short_url_success in E'
      as (db_url & Hrow & _ & Ht & _ & _ & _ & Hvalid & Hcode).
    rewrite Ht. cbn [urls]. apply Forall_app. split; [exact Hall|].
    constructor; [|constructor]. rewrite Hrow. unfold record_ok. cbn.
    split; [exact Hvalid|]. split; [lia|].
    destruct (URLCreate.custom_alias body) as [[|c a]|] eqn:Ha.
    + cbn in Halias. lia.
    + destruct (Hcode c a eq_refl) as (-> & _). now conjs.
    + destruct (generated_code_chars body request w w' resp Ha E) as [H6 Hchars].
      rewrite H6. conjs; try lia; try reflexivity. now apply alphabet_alias_chars.
  - apply create_short_url_tables in E. now rewrite E.
Qed.

Lemma record_ok_served (w w' : World) :
  Forall record_ok (urls (tables w)) -> served w w' ->
  Forall record_ok (urls (tables w')).
Proof.
  intros Hall [body request|code request|code|skip limit|code].
  - now apply record_ok_post_shorten.
  - destruct (redirect_to_url code request w) as [[r|e] w1] eqn:E; cbn [snd].
    + apply redirect_to_url_inv in E as (u & _ & _ & Hl & _ & _ & Hurls & _).
      rewrite Hurls. unfold write_back. apply Forall_map.
      apply lookup_some in Hl as [Hin _].
      rewrite List.Forall_forall in Hall. apply List.Forall_forall. intros x Hx. cbn.
      destruct (URLModel.id x =? URLModel.id u); [|now apply Hall].
      exact (Hall u Hin).
    + apply redirect_to_url_failure in E. now rewrite E.
  - destruct (get_url_stats code w) as [o w1] eqn:E; cbn [snd].
    apply get_url_stats_tables in E. now rewrite E.
  - rewrite list_urls_world. exact Hall.
  - unfold delete_url, bind. rewrite query_url_by_code_run.
    destruct (lookup code (tables w)) as [u|]; [|exact Hall].
    cbn. now apply Forall_filter.
Qed.

(** X15: in every world the service reaches from an empty store,
    whatever the requests, every stored record holds a URL the
    validator accepts, of at most 2048 characters, under a code of 3
    to 20 characters, each a letter, a digit, [-] or [_]; no record
    has an access time, so the statistics of every code report none. *)
Theorem reachable_records_are_well_formed (w w' : World) :
  tables w = empty_db ->
  rtc served w w' ->
  (forall u, In u (urls (tables w')) ->
     is_valid_url (URLModel.original_url u) = true /\
     (length (URLModel.original_url u) <= 2048)%nat /\
     (3 <= length (URLModel.short_code u) <= 20)%nat /\
     (forall c, In c (URLModel.short_code u) ->
        isalnum c = true \/ c = ch "-" \/ c = ch "_")) /\
  (forall code stats w'',
     get_url_stats code w' = (Return stats, w'') ->
     URLStats.last_accessed stats = None).
Proof.
  intros Hempty Hreach.
  assert (Hall : Forall record_ok (urls (tables w'))).
  { assert (H0 : Forall record_ok (urls (tables w))) by (rewrite Hempty; constructor).
    clear Hempty. induction Hreach as [|w w1 w2 Hstep _ IH]; [assumption|].
    apply IH. now apply (record_ok_served w). }
  rewrite List.Forall_forall in Hall. split.
  - intros u Hu. destruct (Hall u Hu) as (Hvalid & Hlen & Hcode & Hchars & _).
    conjs; try assumption; try lia.
    intros c Hc. unfold alias_chars_ok in Hchars. rewrite forallb_forall in Hchars.
    specialize (Hchars c Hc). apply orb_true_iff in Hchars as [Hal|Hin]; [now left|].
    right. apply char_in_In in Hin. destruct Hin as [<-|[<-|[]]]; [now left | now right].
  - intros code stats w'' E.
    destruct (lookup code (tables w')) as [u|] eqn:Hl.
    + rewrite (get_url_stats_run _ _ _ Hl) in E. injection E as <- _. cbn.
      apply lookup_some in Hl as [Hin _]. now destruct (Hall u Hin) as (_ & _ & _ & _ & ?).
    + rewrite (get_url_stats_absent _ _ Hl) in E. discriminate.
Qed.

(** X16: in every world the service reaches from an empty store, a
    code belongs to at most one record, and the counter the statistics
    report for it is the number of click records stored for that
    record, of which the statistics show ten or, if there are fewer,
    all. *)
Theorem reachable_counters_count_clicks (w w' : World) (code : str) (u : URLModel.t) :
  tables w = empty_db ->
  rtc served w w' ->
  lookup code (tables w') = Some u ->
  (forall x, In x (urls (tables w')) -> URLModel.short_code x = code -> x = u) /\
  exists stats w'',
    get_url_stats code w' = (Return stats, w'') /\
    URLStats.click_count stats
      = Z.of_nat (length (List.filter (fun c => ClickModel.url_id c =? URLModel.id u)
                            (clicks (tables w')))) /\
    length (URLStats.recent_clicks stats)
      = Nat.min 10 (Z.to_nat (URLStats.click_count stats)).
Proof.
  intros Hempty Hreach Hl.
  destruct (reachable_consistent w w' Hempty Hreach) as [Hok Hcounts].
  pose proof (lookup_some _ _ _ Hl) as [Hin _].
  unfold counts_ok in Hcounts. rewrite List.Forall_forall in Hcounts.
  specialize (Hcounts u Hin). unfold clicks_of in Hcounts. split.
  - intros x Hx Hc. apply (lookup_unique code (tables w')); auto. apply Hok.
  - rewrite (get_url_stats_run _ _ _ Hl). eexists _, _. split; [reflexivity|].
    cbn [URLStats.click_count URLStats.recent_clicks].
    split; [exact Hcounts|]. rewrite Hcounts, Nat2Z.id, length_map.
    unfold recent, clicks_of. rewrite length_take.
    now rewrite (Permutation_length (merge_sort_Permutation newest_first _)).
Qed.
End Reachable.

(** ** The schema and the errors of the shorten endpoint *)

Section ShortenErrors.
Context `{PyLib}.

Lemma original_url_errors_cases (v : str) :
  (original_url_errors v = [] /\ (1 <= length v <= 2048)%nat) \/
  (exists kind, original_url_errors v = [("original_url"%string, kind)] /\
                ~ (1 <= length v <= 2048)%nat).
Proof.
  unfold original_url_errors.
  destruct (length v <? 1)%nat eqn:H1.
  { apply Nat.ltb_lt in H1. right. eexists. split; [reflexivity | lia]. }
  destruct (2048 <? length v)%nat eqn:H2.
  { apply Nat.ltb_lt in H2. right. eexists. split; [reflexivity | lia]. }
  apply Nat.ltb_ge in H1. apply Nat.ltb_ge in H2. left. split; [reflexivity | lia].
Qed.

Lemma custom_alias_errors_cases (v : option str) :
  (custom_alias_errors v = [] /\
   match v with
   | Some a => (3 <= length a <= 20)%nat /\ alias_chars_ok a = true
   | None => True
   end) \/
  (exists kind a, v = Some a /\ custom_alias_errors v = [("custom_alias"%string, kind)] /\
                  ~ ((3 <= length a <= 20)%nat /\ alias_chars_ok a = true)).
Proof.
  unfold custom_alias_errors, validate_custom_alias. destruct v as [a|]; [|now left].
  destruct (length a <? 3)%nat eqn:H3.
  { apply Nat.ltb_lt in H3. right. eexists _, a. conjs; try reflexivity. lia. }
  destruct (20 <? length a)%nat eqn:H4.
  { apply Nat.ltb_lt in H4. right. eexists _, a. conjs; try reflexivity. lia. }
  apply Nat.ltb_ge in H3. apply Nat.ltb_ge in H4.
  destruct (alias_chars_ok a) eqn:Hc; cbn [negb].
  - left. split; [reflexivity|]. split; [lia | reflexivity].
  - right. eexists _, a. conjs; try reflexivity. intros [_ F]. congruence.
Qed.

Lemma alias_chars_ok_spec (a : str) :
  alias_chars_ok a = true <->
  forall c, In c a -> isalnum c = true \/ c = ch "-" \/ c = ch "_".
Proof.
  unfold alias_chars_ok. rewrite forallb_forall. split.
  - intros F c Hc. specialize (F c Hc). apply orb_true_iff in F as [F|F]; [now left|].
    right. apply char_in_In in F. destruct F as [<-|[<-|[]]]; [now left | now right].
  - intros F c Hc. apply orb_true_iff. destruct (F c Hc) as [F'|[->| ->]];
      [now left | right | right]; apply char_in_In; cbn; tauto.
Qed.

(** X17: validation against [URLCreate] returns the body as it came
    exactly when the URL has 1 to 2048 characters and the alias, if
    there is one, has 3 to 20 characters, each a letter, a digit, [-]
    or [_]; every other body raises a validation error that lists one
    entry per offending field, URL first, and no other exception. *)
Theorem schema_admits_exactly (body : URLCreate.t) :
  (validate_URLCreate body = Return body <->
   (1 <= length (URLCreate.original_url body) <= 2048)%nat /\
   match URLCreate.custom_alias body with
   | Some a =>
       (3 <= length a <= 20)%nat /\
       forall c, In c a -> isalnum c = true \/ c = ch "-" \/ c = ch "_"
   | None => True
   end) /\
  (validate_URLCreate body = Return body \/
   exists errors,
     validate_URLCreate body = Raise (RequestValidationError errors) /\
     (map fst errors = ["original_url"%string] \/
      map fst errors = ["custom_alias"%string] \/
      map fst errors = ["original_url"%string; "custom_alias"%string])).
Proof.
  unfold validate_URLCreate.
  destruct (original_url_errors_cases (URLCreate.original_url body))
    as [[-> Hlen]|(k1 & -> & Hlen)];
    destruct (custom_alias_errors_cases (URLCreate.custom_alias body))
      as [[-> Halias]|(k2 & a & Ha & -> & Halias)]; cbn [app].
  - split; [|now left]. split; [intros _|reflexivity]. split; [exact Hlen|].
    destruct (URLCreate.custom_alias body) as [a|]; [|exact I].
    now rewrite <- alias_chars_ok_spec.
  - split.
    + split; [discriminate|]. intros [_ F]. rewrite Ha in F.
      rewrite <- alias_chars_ok_spec in F. contradiction.
    + right. eexists. split; [reflexivity|]. cbn. tauto.
  - split.
    + split; [discriminate|]. intros [F _]. contradiction.
    + right. eexists. split; [reflexivity|]. cbn. tauto.
  - split.
    + split; [discriminate|]. intros [F _]. contradiction.
    + right. eexists. split; [reflexivity|]. cbn. tauto.
Qed.

Lemma generate_unique_raises (n : nat) (w w' : World) (e : Exn) :
  generate_unique n w = (Raise e, w') ->
  e = HTTPException 500 "Failed to generate unique short code".
Proof.
  revert w. induction n as [|n IH]; intros w E.
  - cbn in E. unfold raise in E. now injection E as <- _.
  - rewrite generate_unique_step in E.
    destruct (lookup (candidate w 0) (tables w)); [now apply IH in E | discriminate].
Qed.

(** Every way [create_short_url] can fail. *)
Lemma create_short_url_raises (url_data : URLCreate.t) (request : Request)
    (w w' : World) (e : Exn) :
  create_short_url url_data request w = (Raise e, w') ->
  (e = HTTPException 400 "Invalid URL format" /\
   is_valid_url (URLCreate.original_url url_data) = false /\ w' = w) \/
  (e = HTTPException 400 "Custom alias must be between 3 and 20 characters" /\
   w' = w /\
   exists a, URLCreate.custom_alias url_data = Some a /\ a <> [] /\
             ((length a < 3)%nat \/ (20 < length a)%nat)) \/
  (e = HTTPException 409 "Custom alias already exists" /\
   exists a, URLCreate.custom_alias url_data = Some a /\
             taken (tables w) a = true /\
             w' = after_statements [SelectUrlByCode a] w) \/
  (e = HTTPException 500 "Failed to generate unique short code" /\
   (URLCreate.custom_alias url_data = None \/ URLCreate.custom_alias url_data = Some [])).
Proof.
  unfold create_short_url.
  destruct (is_valid_url (URLCreate.original_url url_data)) eqn:Hvalid; cbn [negb].
  2:{ unfold raise. intros [= <- <-]. now left. }
  intros E. right.
  unfold bind at 1 in E.
  match type of E with
  | match ?m w with _ => _ end = _ => destruct (m w) as [[code|e0] w1] eqn:Hcode
  end.
  - exfalso.
    assert (Hfree : taken (tables w1) code = false).
    { destruct (URLCreate.custom_alias url_data) as [[|c a]|].
      - rewrite (generate_unique_tables _ _ _ _ Hcode).
        now apply (generate_unique_free _ _ _ _ Hcode).
      - destruct ((length (c :: a) <? 3)%nat || (20 <? length (c :: a))%nat);
          [discriminate|].
        unfold bind in Hcode. rewrite query_url_by_code_run in Hcode.
        destruct (lookup (c :: a) (tables w)) eqn:Hl; [discriminate|].
        unfold ret in Hcode. injection Hcode as <- <-. cbn.
        now rewrite taken_lookup, Hl.
      - rewrite (generate_unique_tables _ _ _ _ Hcode).
        now apply (generate_unique_free _ _ _ _ Hcode). }
    destruct (add_commit_refresh_run (URLCreate.original_url url_data) code
                (URLCreate.expires_at url_data) w1 Hfree) as (db_url & w2 & Hadd & _).
    unfold bind at 1 in E. rewrite Hadd in E. discriminate.
  - injection E as <- <-.
    destruct (URLCreate.custom_alias url_data) as [[|c a]|].
    + right. right. split; [|now right]. now apply generate_unique_raises in Hcode.
    + destruct ((length (c :: a) <? 3)%nat || (20 <? length (c :: a))%nat) eqn:Hlen.
      * left. unfold raise in Hcode. injection Hcode as <- <-. conjs; try reflexivity.
        exists (c :: a). conjs; [reflexivity | discriminate |].
        apply orb_true_iff in Hlen. now rewrite !Nat.ltb_lt in Hlen.
      * right. left. unfold bind in Hcode. rewrite query_url_by_code_run in Hcode.
        destruct (lookup (c :: a) (tables w)) eqn:Hl; [|discriminate].
        unfold raise in Hcode. injection Hcode as <- <-. split; [reflexivity|].
        exists (c :: a). conjs; try reflexivity. now rewrite taken_lookup, Hl.
    + right. right. split; [|now left]. now apply generate_unique_raises in Hcode.
Qed.

(** X18: the shorten endpoint fails in four ways only, each leaving
    the tables as they were: the validation error of the schema,
    raised before anything else happens; the 400 error for a URL the
    validator rejects; the 409 error for an alias in use; the 500
    error when no free code was generated.  The length check of the
    handler never fires behind the schema, and the insert is never
    refused by the store. *)
Theorem shorten_endpoint_fails_in_four_ways (body : URLCreate.t) (request : Request)
    (w w' : World) (e : Exn) :
  post_shorten body request w = (Raise e, w') ->
  tables w' = tables w /\
  ((exists errors, e = RequestValidationError errors /\ errors <> [] /\ w' = w) \/
   (e = HTTPException 400 "Invalid URL format" /\
    is_valid_url (URLCreate.original_url body) = false /\ w' = w) \/
   (e = HTTPException 409 "Custom alias already exists" /\
    exists a, URLCreate.custom_alias body = Some a /\ taken (tables w) a = true) \/
   (e = HTTPException 500 "Failed to generate unique short code" /\
    URLCreate.custom_alias body = None)).
Proof.
  unfold post_shorten, bind, lift.
  destruct (validate_URLCreate body) as [url_data|e0] eqn:Hv.
  - apply validate_URLCreate_inv in Hv as (-> & _ & Halias).
    destruct (create_short_url body request w) as [[resp|e1] w1] eqn:E; [discriminate|].
    intros [= <- <-]. split.
    { apply create_short_url_tables in E. exact E. }
    destruct (create_short_url_raises _ _ _ _ _ E)
      as [(-> & Hinv & ->)|[(-> & -> & a & Ha & Hne & Hlen)
         |[(-> & a & Ha & Htaken & _)|(-> & [Ha|Ha])]]].
    + right. left. now conjs.
    + rewrite Ha in Halias. lia.
    + right. right. left. split; [reflexivity|]. now exists a.
    + right. right. right. now split.
    + rewrite Ha in Halias. cbn in Halias. lia.
  - intros [= <- <-]. split; [reflexivity|]. left.
    unfold validate_URLCreate in Hv.
    destruct (original_url_errors _ ++ custom_alias_errors _) as [|x l];
      [discriminate|].
    injection Hv as <-. eexists. now conjs.
Qed.

(** X19: called with a body that did not pass the schema,
    [create_short_url] takes an empty alias for no alias at all and
    generates a code, and answers an alias of 1, 2 or more than 20
    characters with the 400 error before it touches the store. *)
Theorem handler_checks_the_alias_itself (url_data : URLCreate.t) (request : Request)
    (w : World) :
  is_valid_url (URLCreate.original_url url_data) = true ->
  (URLCreate.custom_alias url_data = Some [] ->
   create_short_url url_data request w
   = create_short_url
       {| URLCreate.original_url := URLCreate.original_url url_data;
          URLCreate.custom_alias := None;
          URLCreate.expires_at := URLCreate.expires_at url_data |} request w) /\
  (forall a,
     URLCreate.custom_alias url_data = Some a -> a <> [] ->
     (length a < 3)%nat \/ (20 < length a)%nat ->
     create_short_url url_data request w
     = (Raise (HTTPException 400 "Custom alias must be between 3 and 20 characters"), w)).
Proof.
  intros Hvalid. split.
  - intros Ha. unfold create_short_url.
    cbn [URLCreate.original_url URLCreate.custom_alias URLCreate.expires_at].
    now rewrite Hvalid, Ha.
  - intros a Ha Hne Hlen. now apply (create_short_url_alias_length url_data request w a).
Qed.
End ShortenErrors.

(** ** The short URL *)

Lemma rstrip_spec (c : N) (s : str) :
  exists n, s = rstrip c s ++ repeat c n /\ last (rstrip c s) <> Some c.
Proof.
  induction s as [|x t (n & Ht & Hlast)]; cbn.
  - exists 0%nat. now split.
  - destruct (rstrip c t) as [|y t'] eqn:Er.
    + destruct (N.eqb_spec x c) as [->|Hne].
      * exists (S n). cbn in *. split; [now rewrite Ht | discriminate].
      * exists n. cbn in *. split; [now rewrite Ht | congruence].
    + exists n. split; [now rewrite Ht at 1|]. exact Hlast.
Qed.

Section ShortUrlShape.
Context `{PyLib}.

(** X20: the short URL [create_short_url] returns is the base URL of
    the request without any of the slashes it ends in, then one
    slash, then the code; so it is the same however many slashes the
    base URL ends in, and it ends in the code. *)
Theorem short_url_has_one_slash_before_code (url_data : URLCreate.t)
    (request : Request) (w w' : World) (resp : URLResponse.t) :
  create_short_url url_data request w = (Return resp, w') ->
  exists stem n,
    base_url request = stem ++ repeat (ch "/") n /\
    last stem <> Some (ch "/") /\
    URLResponse.short_url resp = stem ++ ch "/" :: URLResponse.short_code resp.
Proof.
  intros E. apply create_short_url_short_url in E.
  destruct (rstrip_spec (ch "/") (base_url request)) as (n & Hb & Hlast).
  exists (rstrip (ch "/") (base_url request)), n. now conjs.
Qed.
End ShortUrlShape.

(** ** The parser on the strings the pattern matches *)

Lemma lstrip_kept (chars : str) (x : N) (t : str) :
  char_in x chars = false -> lstrip chars (x :: t) = x :: t.
Proof. intros E. cbn. now rewrite E. Qed.

Lemma remove_chars_kept (chars s : str) :
  (forall x, In x s -> char_in x chars = false) -> remove_chars chars s = s.
Proof.
  intros Hs. unfold remove_chars. induction s as [|x s IH]; [reflexivity|]. cbn.
  rewrite (Hs x (or_introl eq_refl)). cbn. f_equal. apply IH.
  intros y Hy. apply Hs. now right.
Qed.

Lemma remove_chars_app (chars a b : str) :
  remove_chars chars (a ++ b) = remove_chars chars a ++ remove_chars chars b.
Proof. unfold remove_chars. apply List.filter_app. Qed.

Lemma find_char_app (c : N) (a b : str) :
  (forall x, In x a -> x <> c) ->
  find_char c (a ++ b) = option_map (Nat.add (length a)) (find_char c b).
Proof.
  intros Ha. induction a as [|x a IH]; cbn.
  - now destruct (find_char c b).
  - destruct (N.eqb_spec x c) as [E|_]; [now destruct (Ha x (or_introl eq_refl))|].
    rewrite IH by (intros y Hy; apply Ha; now right).
    now destruct (find_char c b).
Qed.

Lemma drop_past {A} (a : list A) (c : A) (rest : list A) :
  drop (S (length a)) (a ++ c :: rest) = rest.
Proof. induction a as [|x a IH]; [reflexivity | exact IH]. Qed.

Lemma splitnetloc_spec (n rest : str) :
  (forall x, In x n -> x <> ch "/" /\ x <> ch "?" /\ x <> ch "#") ->
  rest = [] \/ (exists d r, rest = d :: r /\ (d = ch "/" \/ d = ch "?" \/ d = ch "#")) ->
  splitnetloc (py "//" ++ n ++ rest) 2 = (n, rest).
Proof.
  intros Hn Hrest. unfold splitnetloc.
  change (py "//" ++ n ++ rest) with (ch "/" :: ch "/" :: n ++ rest).
  change (py "/?#") with [ch "/"; ch "?"; ch "#"].
  cbn [drop fold_left length].
  rewrite !(find_char_app _ n rest) by (intros x Hx; now apply Hn).
  rewrite length_app.
  assert (Hcut : forall delim,
             delim = (2 + length n)%nat ->
             (take (delim - 2) (n ++ rest), drop delim (ch "/" :: ch "/" :: n ++ rest))
             = (n, rest)).
  { intros delim ->. replace (2 + length n - 2)%nat with (length n) by lia.
    cbn [drop Nat.add]. now rewrite take_app_length, drop_app_length. }
  apply Hcut. destruct Hrest as [->|(d & r & -> & Hd)].
  - cbn. lia.
  - cbn [find_char length].
    destruct Hd as [->|[->| ->]]; ch_eval; cbn [N.eqb Pos.eqb option_map];
      repeat match goal with
             | |- context [find_char ?c r] => destruct (find_char c r)
             end; cbn [option_map]; lia.
Qed.

Section ParserOnPattern.
Context `{PyLib}.

Lemma netloc_char_plain (x : N) :
  netloc_char x = true ->
  ~ In x [ch "/"; ch "?"; ch "#"; ch "["; ch "]"; 9; 10; 13; ch "@"]%N.
Proof.
  intros Hx Hin. cbn [In] in Hin.
  repeat (destruct Hin as [<-|Hin]; [vm_compute in Hx; discriminate|]).
  exact Hin.
Qed.

Lemma pattern_letter_netloc (x : N) : pattern_letter x = true -> netloc_char x = true.
Proof.
  intros Hx. unfold netloc_char, pattern_alnum_hyphen, pattern_alnum. now rewrite Hx.
Qed.

Lemma caseless_letter (p x : N) :
  ascii_lower p = true -> caseless p x = true -> pattern_letter x = true.
Proof.
  intros Hp. unfold caseless, pattern_letter. rewrite Hp. cbn [andb].
  intros Hx. repeat (apply orb_true_iff in Hx as [Hx|Hx]).
  - apply N.eqb_eq in Hx as ->. unfold ascii_letter. now rewrite Hp.
  - apply N.eqb_eq in Hx. unfold ascii_lower in Hp. revert Hp. ch_eval.
    rewrite in_range_spec. intros Hp.
    assert (Hu : ascii_upper x = true).
    { unfold ascii_upper. ch_eval. apply in_range_spec. lia. }
    unfold ascii_letter. rewrite Hu. now rewrite orb_true_r.
  - apply andb_true_iff in Hx as [_ Hx]. rewrite Hx. now rewrite !orb_true_r.
  - apply andb_true_iff in Hx as [_ Hx]. apply orb_true_iff in Hx as [Hx|Hx];
      rewrite Hx; now rewrite !orb_true_r.
  - apply andb_true_iff in Hx as [_ Hx]. rewrite Hx. now rewrite !orb_true_r.
Qed.

Lemma caseless_str_letters (lit s : str) :
  forallb ascii_lower lit = true -> caseless_str lit s ->
  length s = length lit /\ forallb pattern_letter s = true.
Proof.
  intros Hlit Hs. unfold caseless_str in Hs.
  induction Hs as [|p x lit s Hpx Hs IH]; [now split|].
  cbn in Hlit. apply andb_true_iff in Hlit as [Hp Hlit].
  destruct (IH Hlit) as [Hlen Hall]. cbn. split; [now rewrite Hlen|].
  now rewrite (caseless_letter p x Hp Hpx).
Qed.

Lemma host_chars (h : str) : url_host h -> h <> [] /\ forallb netloc_char h = true.
Proof.
  assert (Hup : forall (p : N -> bool) s,
             (forall x, p x = true -> netloc_char x = true) ->
             forallb p s = true -> forallb netloc_char s = true).
  { intros p s Hp Hs. rewrite forallb_forall in *. intros x Hx. now apply Hp, Hs. }
  assert (Hhy : forall x, pattern_alnum_hyphen x = true -> netloc_char x = true).
  { intros x Hx. unfold netloc_char. now rewrite Hx. }
  assert (Hdg : forall x, digit_ok x = true -> netloc_char x = true).
  { intros x Hx. unfold netloc_char. rewrite Hx. now rewrite orb_true_r. }
  assert (Hdot : forallb netloc_char (py ".") = true).
  { vm_compute. reflexivity. }
  intros [(labels & tld & dot & Hne & Hlabels & Hlen & Htld & Hdot' & ->)
         |[Hlocal|(a & b & c & d & Ha & Hb & Hc & Hd & ->)]].
  - split.
    + destruct labels as [|l labels]; [contradiction|]. cbn.
      apply Forall_cons in Hlabels as [(Hl & _) _]. destruct l; cbn in *; [lia|discriminate].
    + rewrite !forallb_app. apply andb_true_iff. split.
      * clear Hne. induction Hlabels as [|l labels Hl _ IH]; [reflexivity|].
        cbn [map concat]. rewrite !forallb_app, IH, Hdot.
        destruct Hl as (_ & Hl & _). now rewrite (Hup _ _ Hhy Hl).
      * rewrite (Hup _ _ pattern_letter_netloc Htld). destruct Hdot' as [->| ->];
          [reflexivity | exact Hdot].
  - apply caseless_str_letters in Hlocal as [Hlen Hall]; [|reflexivity]. split.
    + destruct h; [discriminate | discriminate].
    + exact (Hup _ _ pattern_letter_netloc Hall).
  - destruct Ha as [Hla Ha], Hb as [_ Hb], Hc as [_ Hc], Hd as [_ Hd]. split.
    + destruct a; cbn in *; [lia | discriminate].
    + rewrite !forallb_app, Hdot, (Hup _ _ Hdg Ha), (Hup _ _ Hdg Hb),
        (Hup _ _ Hdg Hc), (Hup _ _ Hdg Hd). reflexivity.
Qed.

Lemma port_chars (p : str) : url_port p -> forallb netloc_char p = true.
Proof.
  intros [->|(ds & _ & Hds & ->)]; [reflexivity|].
  rewrite forallb_app. apply andb_true_iff. split.
  - vm_compute. reflexivity.
  - rewrite forallb_forall in *. intros x Hx. unfold netloc_char.
    rewrite (Hds x Hx). now rewrite orb_true_r.
Qed.

Lemma tail_chars (t : str) :
  url_tail t ->
  (forall x, In x t -> char_in x unsafe_url_bytes = false) /\
  (t = [] \/ exists d r, t = d :: r /\ (d = ch "/" \/ d = ch "?" \/ d = ch "#")).
Proof.
  intros [->|[->|(c & rest & Hc & _ & Hrest & ->)]].
  - split; [intros x []|now left].
  - split; [intros x [<-|[]]; reflexivity|]. right. exists (ch "/"), []. split; auto.
  - split.
    + intros x [<-|Hx].
      * destruct Hc as [->| ->]; reflexivity.
      * rewrite forallb_forall in Hrest. specialize (Hrest x Hx).
        unfold notspace_ok in Hrest. apply negb_true_iff in Hrest.
        destruct (char_in x unsafe_url_bytes) eqn:E; [|reflexivity].
        apply char_in_In in E. cbn in E.
        destruct E as [<-|[<-|[<-|[]]]]; discriminate.
    + right. exists c, rest. split; [reflexivity|]. tauto.
Qed.

Lemma scheme_chars_of (sch : str) :
  http_scheme sch ->
  (exists c0 t, sch = c0 :: t /\ (isascii c0 && ascii_letter c0 = true)
                /\ char_in c0 c0_control_or_space = false) /\
  forallb pattern_letter sch = true /\
  (4 <= length sch)%nat.
Proof.
  intros Hs.
  assert (Hl : (length sch = 4 \/ length sch = 5)%nat /\ forallb pattern_letter sch = true).
  { destruct Hs as [Hs|Hs]; apply caseless_str_letters in Hs as [Hlen Hall];
      try reflexivity; split; try assumption; [now left | now right]. }
  destruct Hl as [Hlen Hall]. conjs; [|assumption|lia].
  assert (Hh : exists c0 t, sch = c0 :: t /\ caseless (ch "h") c0 = true).
  { destruct Hs as [Hs|Hs]; inversion Hs; subst; eauto. }
  destruct Hh as (c0 & t & -> & Hc0). exists c0, t. split; [reflexivity|].
  unfold caseless in Hc0. revert Hc0. ch_eval. cbn [N.eqb Pos.eqb andb orb].
  rewrite !orb_false_r.
  intros Hc0. apply orb_true_iff in Hc0 as [Hc0|Hc0]; apply N.eqb_eq in Hc0.
  - subst c0. split; reflexivity.
  - assert (c0 = 72%N) as -> by lia. split; reflexivity.
Qed.

Lemma split_scheme_spec (sch rest : str) (c0 : N) (t : str) :
  sch = c0 :: t ->
  isascii c0 && ascii_letter c0 = true ->
  (forall x, In x sch -> x <> ch ":") ->
  split_scheme (sch ++ ch ":" :: rest)
  = if forallb (fun c => char_in c scheme_chars) sch
    then (ascii_lower_str sch, rest)
    else ([], sch ++ ch ":" :: rest).
Proof.
  intros -> Hc0 Hcolon. unfold split_scheme.
  rewrite (find_char_app (ch ":") (c0 :: t) (ch ":" :: rest) Hcolon).
  cbn [find_char]. rewrite N.eqb_refl. cbn [option_map length Nat.add].
  rewrite Nat.add_0_r. cbn [app]. rewrite Hc0.
  change (c0 :: t ++ ch ":" :: rest) with ((c0 :: t) ++ ch ":" :: rest).
  replace (S (length t)) with (length (c0 :: t)) by reflexivity.
  rewrite take_app_length.
  now rewrite drop_past.
Qed.

(** What [urlparse] makes of a string the pattern matches, by its
    parts. *)
Lemma urlparse_on_pattern (sch host port tail nl : str) :
  http_scheme sch -> url_host host -> url_port port -> url_tail tail ->
  nl = [] \/ nl = [10%N] ->
  urlparse (sch ++ py "://" ++ host ++ port ++ tail ++ nl)
  = if forallb (fun c => char_in c scheme_chars) sch
    then
      match checknetloc (host ++ port) with
      | Return _ =>
          Return {| scheme := ascii_lower_str sch; netloc := host ++ port;
                    remainder := tail |}
      | Raise e => Raise e
      end
    else
      Return {| scheme := []; netloc := [];
                remainder := sch ++ py "://" ++ host ++ port ++ tail |}.
Proof.
  intros Hsch Hhost Hport Htail Hnl.
  destruct (scheme_chars_of sch Hsch) as ((c0 & t & Hcons & Hc0 & Hctl) & Hletters & Hlen).
  destruct (host_chars host Hhost) as [Hne Hhc].
  pose proof (port_chars port Hport) as Hpc.
  destruct (tail_chars tail Htail) as [Htc Hthead].
  assert (Hnet : forall x, In x (host ++ port) -> netloc_char x = true).
  { intros x Hx. apply in_app_or in Hx as [Hx|Hx];
      [rewrite forallb_forall in Hhc; now apply Hhc
      |rewrite forallb_forall in Hpc; now apply Hpc]. }
  assert (Hsl : forall x, In x sch -> netloc_char x = true).
  { intros x Hx. apply pattern_letter_netloc. rewrite forallb_forall in Hletters.
    now apply Hletters. }
  assert (Hsafe : forall x, netloc_char x = true -> char_in x unsafe_url_bytes = false).
  { intros x Hx. destruct (char_in x unsafe_url_bytes) eqn:E; [|reflexivity].
    exfalso. apply (netloc_char_plain x Hx). apply char_in_In in E. cbn in E. cbn.
    intuition. }
  unfold urlparse.
  rewrite Hcons at 1. cbn [app]. rewrite (lstrip_kept _ _ _ Hctl).
  change (c0 :: t ++ py "://" ++ host ++ port ++ tail ++ nl)
    with ((c0 :: t) ++ py "://" ++ host ++ port ++ tail ++ nl).
  rewrite <- Hcons.
  replace (remove_chars unsafe_url_bytes (sch ++ py "://" ++ host ++ port ++ tail ++ nl))
    with (sch ++ ch ":" :: py "//" ++ (host ++ port) ++ tail).
  2:{ rewrite !remove_chars_app.
      rewrite (remove_chars_kept _ sch) by (intros x Hx; now apply Hsafe, Hsl).
      rewrite (remove_chars_kept _ host)
        by (intros x Hx; apply Hsafe, Hnet, in_or_app; now left).
      rewrite (remove_chars_kept _ port)
        by (intros x Hx; apply Hsafe, Hnet, in_or_app; now right).
      rewrite (remove_chars_kept _ tail) by exact Htc.
      replace (remove_chars unsafe_url_bytes nl) with (@nil N)
        by (destruct Hnl as [->| ->]; reflexivity).
      rewrite app_nil_r, <- app_assoc. reflexivity. }
  rewrite (split_scheme_spec sch _ c0 t Hcons Hc0).
  2:{ intros x Hx ->. specialize (Hsl _ Hx). rewrite forallb_forall in Hletters.
      specialize (Hletters _ Hx). discriminate. }
  destruct (forallb (fun c => char_in c scheme_chars) sch).
  - change (take 2 (py "//" ++ (host ++ port) ++ tail)) with (py "//").
    rewrite str_eqb_refl.
    rewrite splitnetloc_spec.
    + assert (Hb : forall c, In c [ch "["; ch "]"] -> char_in c (host ++ port) = false).
      { intros c Hc. destruct (char_in c (host ++ port)) eqn:E; [|reflexivity].
        exfalso. apply char_in_In in E. apply (netloc_char_plain c (Hnet c E)).
        cbn in Hc. cbn. intuition. }
      rewrite (Hb (ch "[")) by (cbn; tauto). rewrite (Hb (ch "]")) by (cbn; tauto).
      cbn [andb orb negb]. reflexivity.
    + intros x Hx. pose proof (netloc_char_plain x (Hnet x Hx)) as Hp. cbn in Hp.
      intuition.
    + exact Hthead.
  - assert (Hnot : str_eqb (take 2 (sch ++ ch ":" :: py "//" ++ (host ++ port) ++ tail))
                    (py "//") = false).
    { apply str_eqb_neq. rewrite Hcons. cbn [app]. intros E.
      destruct t as [|c1 t']; cbn [app take] in E; injection E as E _; subst c0;
        vm_compute in Hc0; discriminate. }
    rewrite Hnot.
    remember (sch ++ ch ":" :: py "//" ++ (host ++ port) ++ tail) as url eqn:Hu.
    cbn. subst url. now rewrite <- app_assoc.
Qed.
End ParserOnPattern.

Section ValidatorStages.
Context `{PyLib}.

Lemma accepted_parts (url : str) :
  re_match url_pattern url = true ->
  exists sch host port tail nl,
    url = sch ++ py "://" ++ host ++ port ++ tail ++ nl /\
    (nl = [] \/ nl = [10%N]) /\
    http_scheme sch /\ url_host host /\ url_port port /\ url_tail tail.
Proof.
  intros Hm. apply re_match_spec in Hm.
  destruct Hm as [Hl|(u' & -> & Hl)]; apply lang_url_pattern in Hl;
    destruct Hl as (sch & host & port & tail & Hsch & Hhost & Hport & Htail & ->);
    exists sch, host, port, tail.
  - exists []. rewrite app_nil_r. conjs; try assumption; [reflexivity | now left].
  - exists [10%N]. rewrite <- !app_assoc. conjs; try assumption; [reflexivity | now right].
Qed.

Lemma ascii_letter_scheme_char (x : N) :
  pattern_letter x = true -> isascii x = true -> char_in x scheme_chars = true.
Proof.
  intros Hl Ha. unfold isascii in Ha. apply N.ltb_lt in Ha.
  assert (Hall : forallb (fun x => implb (pattern_letter x) (char_in x scheme_chars))
                   (codepoints 0 127) = true) by (vm_compute; reflexivity).
  pose proof (checked_upto _ _ Hall x ltac:(lia)) as Hx. cbn beta in Hx.
  now rewrite Hl in Hx.
Qed.

Lemma caseless_lowered (p x : N) :
  ascii_lower p = true -> caseless p x = true -> char_in x scheme_chars = true ->
  (if ascii_upper x then (x + 32)%N else x) = p.
Proof.
  intros Hp Hx Hs. unfold caseless in Hx. rewrite Hp in Hx. cbn [andb] in Hx.
  pose proof Hp as Hp'. unfold ascii_lower in Hp'. revert Hp'. ch_eval.
  rewrite in_range_spec. intros Hp'.
  repeat (apply orb_true_iff in Hx as [Hx|Hx]).
  - apply N.eqb_eq in Hx as ->.
    replace (ascii_upper p) with false; [reflexivity|].
    symmetry. unfold ascii_upper. ch_eval. apply not_true_is_false.
    rewrite in_range_spec. lia.
  - apply N.eqb_eq in Hx.
    replace (ascii_upper x) with true; [exact Hx|].
    symmetry. unfold ascii_upper. ch_eval. apply in_range_spec. lia.
  - apply andb_true_iff in Hx as [_ Hx]. apply N.eqb_eq in Hx as ->. discriminate.
  - apply andb_true_iff in Hx as [_ Hx]. apply orb_true_iff in Hx as [Hx|Hx];
      apply N.eqb_eq in Hx as ->; discriminate.
  - apply andb_true_iff in Hx as [_ Hx]. apply N.eqb_eq in Hx as ->. discriminate.
Qed.

Lemma caseless_str_lowered (lit s : str) :
  forallb ascii_lower lit = true -> caseless_str lit s ->
  forallb (fun c => char_in c scheme_chars) s = true ->
  ascii_lower_str s = lit.
Proof.
  intros Hlit Hs. unfold caseless_str in Hs.
  induction Hs as [|p x lit s Hpx Hs IH]; [reflexivity|].
  cbn in Hlit. apply andb_true_iff in Hlit as [Hp Hlit].
  cbn [forallb]. intros Hall. apply andb_true_iff in Hall as [Hx Hall].
  cbn [ascii_lower_str map]. f_equal.
  - now apply caseless_lowered.
  - now apply IH.
Qed.

(** X21: on a string of ASCII characters the validator is its
    pattern: whenever the pattern matches, the parser finds a scheme
    and a host, so the second stage rejects nothing. *)
Theorem ascii_url_valid_iff_pattern_matches (url : str) :
  forallb isascii url = true ->
  is_valid_url url = re_match url_pattern url.
Proof.
  intros Hascii. unfold is_valid_url.
  destruct (re_match url_pattern url) eqn:Hm; cbn [negb]; [|reflexivity].
  destruct (accepted_parts url Hm)
    as (sch & host & port & tail & nl & -> & Hnl & Hsch & Hhost & Hport & Htail).
  rewrite (urlparse_on_pattern sch host port tail nl) by assumption.
  rewrite !forallb_app in Hascii.
  apply andb_true_iff in Hascii as [Hasch Hascii].
  apply andb_true_iff in Hascii as [_ Hascii].
  apply andb_true_iff in Hascii as [Hahost Hascii].
  apply andb_true_iff in Hascii as [Haport _].
  destruct (scheme_chars_of sch Hsch) as ((c0 & t & Hcons & _) & Hletters & _).
  replace (forallb (fun c => char_in c scheme_chars) sch) with true.
  2:{ symmetry. apply forallb_forall. intros x Hx. rewrite forallb_forall in Hletters, Hasch.
      apply ascii_letter_scheme_char; auto. }
  unfold checknetloc. rewrite forallb_app, Hahost, Haport, orb_true_r.
  cbn [forallb scheme netloc]. unfold truthy.
  destruct (host_chars host Hhost) as [Hne _].
  rewrite Hcons. destruct host as [|h0 host']; [contradiction|]. reflexivity.
Qed.

(** X22: an accepted URL is read by the parser the way the pattern
    reads it: the scheme, lowered, is [http] or [https]; the network
    location is the host the pattern matched (dotted name,
    [localhost] or dotted quad) followed by the port, with no user
    part; what follows is the path and query of the pattern.  Only a
    final newline is dropped. *)
Theorem accepted_url_parses_as_the_pattern_reads_it (url : str) :
  is_valid_url url = true ->
  exists sch host port tail nl parsed,
    url = sch ++ py "://" ++ host ++ port ++ tail ++ nl /\
    (nl = [] \/ nl = [10%N]) /\
    url_host host /\ url_port port /\ url_tail tail /\
    urlparse url = Return parsed /\
    (scheme parsed = py "http" \/ scheme parsed = py "https") /\
    length (scheme parsed) = length sch /\
    netloc parsed = host ++ port /\
    remainder parsed = tail /\
    ~ In (ch "@") (netloc parsed).
Proof.
  unfold is_valid_url.
  destruct (re_match url_pattern url) eqn:Hm; cbn [negb]; [|discriminate].
  destruct (accepted_parts url Hm)
    as (sch & host & port & tail & nl & -> & Hnl & Hsch & Hhost & Hport & Htail).
  rewrite (urlparse_on_pattern sch host port tail nl) by assumption.
  destruct (forallb (fun c => char_in c scheme_chars) sch) eqn:Hsc.
  2:{ cbn. discriminate. }
  destruct (checknetloc (host ++ port)) as [[]|e]; [|discriminate].
  intros _. exists sch, host, port, tail, nl. eexists.
  conjs; try reflexivity; try assumption; cbn [scheme netloc remainder].
  - destruct Hsch as [Hs|Hs]; [left | right];
      apply caseless_str_lowered; auto.
  - unfold ascii_lower_str. now rewrite length_map.
  - intros Hin. assert (Hc : netloc_char (ch "@") = true).
    { destruct (host_chars host Hhost) as [_ Hhc]. pose proof (port_chars port Hport) as Hpc.
      rewrite forallb_forall in Hhc, Hpc. apply in_app_or in Hin as [Hin|Hin]; auto. }
    vm_compute in Hc. discriminate.
Qed.

Lemma netloc_char_not_space (x : N) :
  netloc_char x = true -> isascii x = true -> isspace x = false.
Proof.
  intros Hn Ha. unfold isascii in Ha. apply N.ltb_lt in Ha.
  assert (Hall : forallb (fun x => implb (netloc_char x) (negb (isspace x)))
                   (codepoints 0 127) = true) by (vm_compute; reflexivity).
  pose proof (checked_upto _ _ Hall x ltac:(lia)) as Hx. cbn beta in Hx.
  rewrite Hn in Hx. now apply negb_true_iff in Hx.
Qed.

(** X23: an accepted URL holds no ASCII white space (space, tab,
    newline and the like), except for one newline at its very end. *)
Theorem accepted_url_has_no_white_space (url : str) :
  is_valid_url url = true ->
  exists u nl,
    url = u ++ nl /\ (nl = [] \/ nl = [10%N]) /\
    forall x, In x u -> isascii x = true -> isspace x = false.
Proof.
  unfold is_valid_url.
  destruct (re_match url_pattern url) eqn:Hm; cbn [negb]; [|discriminate].
  intros _.
  destruct (accepted_parts url Hm)
    as (sch & host & port & tail & nl & -> & Hnl & Hsch & Hhost & Hport & Htail).
  exists (sch ++ py "://" ++ host ++ port ++ tail), nl.
  split; [now rewrite <- !app_assoc|]. split; [assumption|].
  destruct (scheme_chars_of sch Hsch) as (_ & Hletters & _).
  destruct (host_chars host Hhost) as [_ Hhc]. pose proof (port_chars port Hport) as Hpc.
  rewrite forallb_forall in Hletters, Hhc, Hpc.
  intros x Hx Ha.
  apply in_app_or in Hx as [Hx|Hx];
    [apply netloc_char_not_space; auto; now apply pattern_letter_netloc, Hletters|].
  apply in_app_or in Hx as [Hx|Hx].
  { cbn in Hx. destruct Hx as [<-|[<-|[<-|[]]]]; reflexivity. }
  apply in_app_or in Hx as [Hx|Hx]; [apply netloc_char_not_space; auto|].
  apply in_app_or in Hx as [Hx|Hx]; [apply netloc_char_not_space; auto|].
  destruct Htail as [->|[->|(c & rest & Hc & _ & Hrest & ->)]].
  - destruct Hx.
  - destruct Hx as [<-|[]]. reflexivity.
  - destruct Hx as [<-|Hx].
    + destruct Hc as [->| ->]; reflexivity.
    + rewrite forallb_forall in Hrest. specialize (Hrest x Hx).
      unfold notspace_ok in Hrest. now apply negb_true_iff in Hrest.
Qed.
End ValidatorStages.

(** ** The further properties at work on the example deployment *)

Lemma counts_ok_world_after_visits : counts_ok (tables world_after_visits).
Proof. unfold counts_ok. cbn. repeat constructor. Qed.

Lemma world_with_blog_reachable : rtc (served (H := ascii_only) (store := sqlite_store)) example_world world_with_blog.
Proof.
  rewrite <- world_with_blog_built.
  eapply rtc_l; [apply serve_shorten|]. apply rtc_once. apply serve_shorten.
Qed.

Lemma world_after_visits_reachable :
  rtc (served (H := ascii_only) (store := sqlite_store)) example_world world_after_visits.
Proof.
  transitivity world_with_blog; [apply world_with_blog_reachable|].
  assert (E : snd (redirect_to_url (py "blog") example_request
                     (snd (redirect_to_url (py "blog") example_request
                             (snd (redirect_to_url (py "blog") example_request
                                     world_with_blog)))))
              = world_after_visits) by (vm_compute; reflexivity).
  rewrite <- E.
  eapply rtc_l; [apply serve_redirect|].
  eapply rtc_l; [apply serve_redirect|].
  apply rtc_once. apply serve_redirect.
Qed.

(** [zoned_body] on the empty store: one row, under the key 1, its
    expiry without the zone. *)
Lemma shorten_appends_one_fresh_row_witness :
  db_ok (tables example_world) /\
  create_short_url (H := ascii_only) zoned_body example_request example_world
    = (Return later_response,
       snd (create_short_url (H := ascii_only) zoned_body example_request example_world)) /\
  exists db_url,
    urls (tables (snd (create_short_url (H := ascii_only) zoned_body example_request
                         example_world)))
      = urls (tables example_world) ++ [db_url] /\
    clicks (tables (snd (create_short_url (H := ascii_only) zoned_body example_request
                           example_world)))
      = clicks (tables example_world) /\
    (forall x, In x (urls (tables example_world)) ->
       URLModel.short_code x <> URLModel.short_code db_url /\
       URLModel.id x < URLModel.id db_url) /\
    URLModel.original_url db_url = URLCreate.original_url zoned_body /\
    URLModel.expires_at db_url
      = match URLCreate.expires_at zoned_body with
        | Some e => Some {| ticks := ticks e; tzinfo := None |}
        | None => None
        end /\
    tzinfo (URLModel.created_at db_url) = None /\
    URLModel.click_count db_url = 0 /\
    URLModel.last_checked db_url = None /\
    URLResponse.id later_response = URLModel.id db_url /\
    URLResponse.short_code later_response = URLModel.short_code db_url /\
    URLResponse.expires_at later_response = URLModel.expires_at db_url /\
    URLResponse.created_at later_response = URLModel.created_at db_url /\
    URLResponse.click_count later_response = 0.
Proof.
  assert (E : create_short_url (H := ascii_only) zoned_body example_request example_world
              = (Return later_response,
                 snd (create_short_url (H := ascii_only) zoned_body example_request
                        example_world)))
    by (vm_compute; reflexivity).
  split; [exact db_ok_empty|]. split; [exact E|].
  exact (shorten_appends_one_fresh_row (H := ascii_only) zoned_body example_request
           example_world _ later_response db_ok_empty E).
Defined.

(** The alias [blog] on the empty store. *)
Lemma free_alias_becomes_the_code_witness :
  is_valid_url (H := ascii_only) (URLCreate.original_url blog_body) = true /\
  URLCreate.custom_alias blog_body = Some (py "blog") /\
  (3 <= length (py "blog") <= 20)%nat /\
  taken (tables example_world) (py "blog") = false /\
  exists resp w',
    create_short_url (H := ascii_only) blog_body example_request example_world
      = (Return resp, w') /\
    URLResponse.short_code resp = py "blog" /\
    URLResponse.original_url resp = URLCreate.original_url blog_body /\
    URLResponse.click_count resp = 0 /\
    lookup (py "blog") (tables w') <> None /\
    drawn w' = drawn example_world /\
    journal w' = journal example_world
                 ++ [SelectUrlByCode (py "blog"); InsertUrl (py "blog")].
Proof.
  assert (Hvalid : is_valid_url (H := ascii_only) (URLCreate.original_url blog_body) = true)
    by (vm_compute; reflexivity).
  assert (Hlen : (3 <= length (py "blog") <= 20)%nat) by (cbn; lia).
  split; [exact Hvalid|]. split; [reflexivity|]. split; [exact Hlen|].
  split; [reflexivity|].
  exact (free_alias_becomes_the_code (H := ascii_only) blog_body example_request
           example_world (py "blog") Hvalid eq_refl Hlen eq_refl).
Defined.

(** [blog] asked for a second time, for another URL. *)
Lemma second_use_of_alias_conflicts_witness :
  URLCreate.custom_alias blog_body = Some (py "blog") /\
  create_short_url (H := ascii_only) blog_body example_request example_world
    = (Return blog_response,
       snd (create_short_url (H := ascii_only) blog_body example_request example_world)) /\
  URLCreate.custom_alias blog_again_body = Some (py "blog") /\
  is_valid_url (H := ascii_only) (URLCreate.original_url blog_again_body) = true /\
  exists w'',
    create_short_url (H := ascii_only) blog_again_body browser_request
      (snd (create_short_url (H := ascii_only) blog_body example_request example_world))
      = (Raise (HTTPException 409 "Custom alias already exists"), w'') /\
    tables w''
      = tables (snd (create_short_url (H := ascii_only) blog_body example_request
                       example_world)).
Proof.
  assert (E : create_short_url (H := ascii_only) blog_body example_request example_world
              = (Return blog_response,
                 snd (create_short_url (H := ascii_only) blog_body example_request
                        example_world)))
    by (vm_compute; reflexivity).
  assert (Hvalid : is_valid_url (H := ascii_only)
                     (URLCreate.original_url blog_again_body) = true)
    by (vm_compute; reflexivity).
  split; [reflexivity|]. split; [exact E|]. split; [reflexivity|]. split; [exact Hvalid|].
  exact (second_use_of_alias_conflicts (H := ascii_only) blog_body blog_again_body
           example_request browser_request example_world _ blog_response
           (ch "b") (py "log") eq_refl E eq_refl Hvalid).
Defined.

(** [blog] visited by a request without a client address. *)
Lemma resolve_fails_in_three_ways_witness :
  redirect_to_url (py "blog") anonymous_request world_with_blog
    = (Raise AttributeError,
       snd (redirect_to_url (py "blog") anonymous_request world_with_blog)) /\
  tables (snd (redirect_to_url (py "blog") anonymous_request world_with_blog))
    = tables world_with_blog /\
  journal (snd (redirect_to_url (py "blog") anonymous_request world_with_blog))
    = journal world_with_blog ++ [SelectUrlByCode (py "blog")] /\
  ((AttributeError = HTTPException 404 "Short URL not found" /\
    lookup (py "blog") (tables world_with_blog) = None) \/
   (AttributeError = HTTPException 410 "Short URL has expired" /\
    exists u x, lookup (py "blog") (tables world_with_blog) = Some u /\
                URLModel.expires_at u = Some x /\
                instant x < clock world_with_blog (clock_reads world_with_blog)) \/
   (AttributeError = AttributeError /\ client anonymous_request = None /\
    exists u, lookup (py "blog") (tables world_with_blog) = Some u /\
              unexpired_at u (clock world_with_blog (clock_reads world_with_blog)))).
Proof.
  assert (E : redirect_to_url (py "blog") anonymous_request world_with_blog
              = (Raise AttributeError,
                 snd (redirect_to_url (py "blog") anonymous_request world_with_blog)))
    by (vm_compute; reflexivity).
  split; [exact E|].
  exact (resolve_fails_in_three_ways (py "blog") anonymous_request world_with_blog _
           AttributeError E).
Defined.

(** [stale] expired at 500; the clock of the example stands at 1002. *)
Lemma record_served_through_its_expiry_instant_witness :
  lookup (py "stale") (tables world_with_blog) = Some stale_row /\
  URLModel.expires_at stale_row = Some {| ticks := 500; tzinfo := None |} /\
  client example_request = Some (py "203.0.113.7") /\
  ((exists w',
      redirect_to_url (py "stale") example_request world_with_blog
        = (Return {| url := URLModel.original_url stale_row; status_code := 307 |}, w'))
   <-> clock world_with_blog (clock_reads world_with_blog)
       <= ticks {| ticks := 500; tzinfo := None |}
          - default 0 (tzinfo {| ticks := 500; tzinfo := None |})) /\
  ((exists w',
      redirect_to_url (py "stale") example_request world_with_blog
        = (Raise (HTTPException 410 "Short URL has expired"), w'))
   <-> ticks {| ticks := 500; tzinfo := None |}
       - default 0 (tzinfo {| ticks := 500; tzinfo := None |})
       < clock world_with_blog (clock_reads world_with_blog)).
Proof.
  split; [reflexivity|]. split; [reflexivity|]. split; [reflexivity|].
  exact (record_served_through_its_expiry_instant (py "stale") example_request
           world_with_blog stale_row {| ticks := 500; tzinfo := None |}
           (py "203.0.113.7") eq_refl eq_refl eq_refl).
Defined.

(** [blog] visited from a browser that followed a link. *)
Lemma click_records_the_request_witness :
  redirect_to_url (py "blog") browser_request world_with_blog
    = (Return {| url := py "https://example.com/a"; status_code := 307 |},
       snd (redirect_to_url (py "blog") browser_request world_with_blog)) /\
  exists u click,
    lookup (py "blog") (tables world_with_blog) = Some u /\
    clicks (tables (snd (redirect_to_url (py "blog") browser_request world_with_blog)))
      = clicks (tables world_with_blog) ++ [click] /\
    ClickModel.url_id click = URLModel.id u /\
    ClickModel.ip_address click = client browser_request /\
    client browser_request <> None /\
    ClickModel.user_agent click
      = Some (match headers_get browser_request (py "user-agent") with
              | Some agent => agent
              | None => py "Unknown"
              end) /\
    ClickModel.referer click = headers_get browser_request (py "referer") /\
    tzinfo (ClickModel.clicked_at click) = None /\
    exists k, (clock_reads world_with_blog < k)%nat /\
              ticks (ClickModel.clicked_at click) = clock world_with_blog k.
Proof.
  assert (E : redirect_to_url (py "blog") browser_request world_with_blog
              = (Return {| url := py "https://example.com/a"; status_code := 307 |},
                 snd (redirect_to_url (py "blog") browser_request world_with_blog)))
    by (vm_compute; reflexivity).
  split; [exact E|].
  exact (click_records_the_request (py "blog") browser_request world_with_blog _ _ E).
Defined.

(** The same visit leaves [stale] and its clicks alone. *)
Lemma resolve_touches_one_record_witness :
  db_ok (tables world_with_blog) /\
  lookup (py "blog") (tables world_with_blog) = Some blog_row /\
  redirect_to_url (py "blog") browser_request world_with_blog
    = (Return {| url := py "https://example.com/a"; status_code := 307 |},
       snd (redirect_to_url (py "blog") browser_request world_with_blog)) /\
  (exists u',
     lookup (py "blog")
       (tables (snd (redirect_to_url (py "blog") browser_request world_with_blog)))
       = Some u' /\
     URLModel.id u' = URLModel.id blog_row /\
     URLModel.original_url u' = URLModel.original_url blog_row /\
     URLModel.short_code u' = URLModel.short_code blog_row /\
     URLModel.created_at u' = URLModel.created_at blog_row /\
     URLModel.expires_at u' = URLModel.expires_at blog_row /\
     URLModel.last_checked u' = URLModel.last_checked blog_row) /\
  (forall other, other <> py "blog" ->
     lookup other
       (tables (snd (redirect_to_url (py "blog") browser_request world_with_blog)))
     = lookup other (tables world_with_blog)) /\
  map URLModel.short_code
    (urls (tables (snd (redirect_to_url (py "blog") browser_request world_with_blog))))
    = map URLModel.short_code (urls (tables world_with_blog)) /\
  (forall key, key <> URLModel.id blog_row ->
     clicks_of key
       (tables (snd (redirect_to_url (py "blog") browser_request world_with_blog)))
     = clicks_of key (tables world_with_blog)).
Proof.
  assert (E : redirect_to_url (py "blog") browser_request world_with_blog
              = (Return {| url := py "https://example.com/a"; status_code := 307 |},
                 snd (redirect_to_url (py "blog") browser_request world_with_blog)))
    by (vm_compute; reflexivity).
  split; [exact db_ok_world_with_blog|]. split; [reflexivity|]. split; [exact E|].
  exact (resolve_touches_one_record (py "blog") browser_request world_with_blog _ _
           blog_row db_ok_world_with_blog eq_refl E).
Defined.

(** [later] names an instant before the clock of the example and is
    served all the same, by its reading 2000; [stale], with the
    reading 500, is refused from its first visit on. *)
Lemma shortened_code_resolves_to_its_url_witness :
  (create_short_url (H := ascii_only) zoned_body example_request example_world
     = (Return later_response,
        snd (create_short_url (H := ascii_only) zoned_body example_request example_world)) /\
   client browser_request = Some (py "198.51.100.4") /\
   URLCreate.expires_at zoned_body = Some {| ticks := 2000; tzinfo := Some 1500 |} /\
   instant {| ticks := 2000; tzinfo := Some 1500 |}
     < clock (snd (create_short_url (H := ascii_only) zoned_body example_request
                     example_world))
         (clock_reads (snd (create_short_url (H := ascii_only) zoned_body example_request
                              example_world))) /\
   exists w'',
     redirect_to_url (URLResponse.short_code later_response) browser_request
       (snd (create_short_url (H := ascii_only) zoned_body example_request example_world))
       = (Return {| url := URLCreate.original_url zoned_body; status_code := 307 |}, w'')) /\
  (create_short_url (H := ascii_only) stale_body example_request example_world
     = (Return stale_response,
        snd (create_short_url (H := ascii_only) stale_body example_request example_world)) /\
   client browser_request = Some (py "198.51.100.4") /\
   URLCreate.expires_at stale_body = Some {| ticks := 500; tzinfo := None |} /\
   exists w'',
     redirect_to_url (URLResponse.short_code stale_response) browser_request
       (snd (create_short_url (H := ascii_only) stale_body example_request example_world))
       = (Raise (HTTPException 410 "Short URL has expired"), w'')).
Proof.
  split.
  - assert (E : create_short_url (H := ascii_only) zoned_body example_request
                  example_world
                = (Return later_response,
                   snd (create_short_url (H := ascii_only) zoned_body example_request
                          example_world)))
      by (vm_compute; reflexivity).
    split; [exact E|]. split; [reflexivity|]. split; [reflexivity|].
    split; [vm_compute; reflexivity|].
    apply (proj1 (proj2 (shortened_code_resolves_to_its_url (H := ascii_only) zoned_body
                           example_request browser_request example_world _
                           later_response (py "198.51.100.4") E eq_refl)
                    {| ticks := 2000; tzinfo := Some 1500 |} eq_refl)).
    vm_compute. discriminate.
  - assert (E : create_short_url (H := ascii_only) stale_body example_request
                  example_world
                = (Return stale_response,
                   snd (create_short_url (H := ascii_only) stale_body example_request
                          example_world)))
      by (vm_compute; reflexivity).
    split; [exact E|]. split; [reflexivity|]. split; [reflexivity|].
    apply (proj2 (proj2 (shortened_code_resolves_to_its_url (H := ascii_only) stale_body
                           example_request browser_request example_world _
                           stale_response (py "198.51.100.4") E eq_refl)
                    {| ticks := 500; tzinfo := None |} eq_refl)).
    vm_compute. reflexivity.
Defined.

(** The statistics of [later] right after it was shortened. *)
Lemma fresh_record_has_empty_stats_witness :
  db_ok (tables example_world) /\
  create_short_url (H := ascii_only) zoned_body example_request example_world
    = (Return later_response,
       snd (create_short_url (H := ascii_only) zoned_body example_request example_world)) /\
  exists stats w'',
    get_url_stats (URLResponse.short_code later_response)
      (snd (create_short_url (H := ascii_only) zoned_body example_request example_world))
      = (Return stats, w'') /\
    URLStats.id stats = URLResponse.id later_response /\
    URLStats.short_code stats = URLResponse.short_code later_response /\
    URLStats.original_url stats = URLCreate.original_url zoned_body /\
    URLStats.expires_at stats
      = match URLCreate.expires_at zoned_body with
        | Some e => Some {| ticks := ticks e; tzinfo := None |}
        | None => None
        end /\
    URLStats.expires_at stats = URLResponse.expires_at later_response /\
    URLStats.created_at stats = URLResponse.created_at later_response /\
    URLStats.click_count stats = 0 /\
    URLStats.recent_clicks stats = [] /\
    URLStats.last_accessed stats = None.
Proof.
  assert (E : create_short_url (H := ascii_only) zoned_body example_request example_world
              = (Return later_response,
                 snd (create_short_url (H := ascii_only) zoned_body example_request
                        example_world)))
    by (vm_compute; reflexivity).
  split; [exact db_ok_empty|]. split; [exact E|].
  exact (fresh_record_has_empty_stats (H := ascii_only) zoned_body example_request
           example_world _ later_response db_ok_empty E).
Defined.

(** Deleting [blog] after its three visits. *)
Lemma delete_touches_one_record_witness :
  db_ok (tables world_after_visits) /\
  counts_ok (tables world_after_visits) /\
  lookup (py "blog") (tables world_after_visits) = Some visited_row /\
  delete_url (py "blog") world_after_visits
    = (Return 204, snd (delete_url (py "blog") world_after_visits)) /\
  204 = 204 /\
  journal (snd (delete_url (py "blog") world_after_visits))
    = journal world_after_visits
      ++ [SelectUrlByCode (py "blog"); DeleteUrl (URLModel.id visited_row)] /\
  (forall other, other <> py "blog" ->
     lookup other (tables (snd (delete_url (py "blog") world_after_visits)))
     = lookup other (tables world_after_visits)) /\
  length (urls (tables world_after_visits))
    = S (length (urls (tables (snd (delete_url (py "blog") world_after_visits))))) /\
  (forall key, key <> URLModel.id visited_row ->
     clicks_of key (tables (snd (delete_url (py "blog") world_after_visits)))
     = clicks_of key (tables world_after_visits)) /\
  Z.of_nat (length (clicks (tables world_after_visits)))
    = Z.of_nat (length (clicks (tables (snd (delete_url (py "blog") world_after_visits)))))
      + URLModel.click_count visited_row.
Proof.
  assert (E : delete_url (py "blog") world_after_visits
              = (Return 204, snd (delete_url (py "blog") world_after_visits)))
    by (vm_compute; reflexivity).
  split; [exact db_ok_world_after_visits|].
  split; [exact counts_ok_world_after_visits|].
  split; [reflexivity|]. split; [exact E|].
  exact (delete_touches_one_record (py "blog") world_after_visits _ visited_row 204
           db_ok_world_after_visits counts_ok_world_after_visits eq_refl E).
Defined.

(** [blog] deleted and asked for again. *)
Lemma deleted_alias_can_be_taken_again_witness :
  db_ok (tables world_after_visits) /\
  lookup (py "blog") (tables world_after_visits) = Some visited_row /\
  delete_url (py "blog") world_after_visits
    = (Return 204, snd (delete_url (py "blog") world_after_visits)) /\
  URLCreate.custom_alias blog_again_body = Some (py "blog") /\
  (3 <= length (py "blog") <= 20)%nat /\
  is_valid_url (H := ascii_only) (URLCreate.original_url blog_again_body) = true /\
  exists resp w2 stats w3,
    create_short_url (H := ascii_only) blog_again_body example_request
      (snd (delete_url (py "blog") world_after_visits)) = (Return resp, w2) /\
    URLResponse.short_code resp = py "blog" /\
    get_url_stats (py "blog") w2 = (Return stats, w3) /\
    URLStats.original_url stats = URLCreate.original_url blog_again_body /\
    URLStats.click_count stats = 0 /\
    URLStats.recent_clicks stats = [].
Proof.
  assert (E : delete_url (py "blog") world_after_visits
              = (Return 204, snd (delete_url (py "blog") world_after_visits)))
    by (vm_compute; reflexivity).
  assert (Hvalid : is_valid_url (H := ascii_only)
                     (URLCreate.original_url blog_again_body) = true)
    by (vm_compute; reflexivity).
  assert (Hlen : (3 <= length (py "blog") <= 20)%nat) by (cbn; lia).
  split; [exact db_ok_world_after_visits|]. split; [reflexivity|]. split; [exact E|].
  split; [reflexivity|]. split; [exact Hlen|]. split; [exact Hvalid|].
  exact (deleted_alias_can_be_taken_again (H := ascii_only) (py "blog") blog_again_body
           example_request world_after_visits _ visited_row db_ok_world_after_visits
           eq_refl E eq_refl Hlen Hvalid).
Defined.

(** [stale] is refused, and still reported, listed and deletable. *)
Lemma expired_record_is_kept_and_reported_witness :
  lookup (py "stale") (tables world_with_blog) = Some stale_row /\
  URLModel.expires_at stale_row = Some {| ticks := 500; tzinfo := None |} /\
  instant {| ticks := 500; tzinfo := None |}
    < clock world_with_blog (clock_reads world_with_blog) /\
  (forall visit, exists w',
     redirect_to_url (py "stale") visit world_with_blog
       = (Raise (HTTPException 410 "Short URL has expired"), w') /\
     tables w' = tables world_with_blog) /\
  (exists stats w',
     get_url_stats (py "stale") world_with_blog = (Return stats, w') /\
     URLStats.expires_at stats = Some {| ticks := 500; tzinfo := None |} /\
     URLStats.click_count stats = URLModel.click_count stale_row) /\
  (exists page w',
     list_urls (store := sqlite_store) 0 (Z.of_nat (length (urls (tables world_with_blog))))
       world_with_blog
       = (Return page, w') /\
     In (py "stale") (map URLResponse.short_code page)) /\
  (exists w', delete_url (py "stale") world_with_blog = (Return 204, w') /\
              lookup (py "stale") (tables w') <> Some stale_row).
Proof.
  assert (Hlt : instant {| ticks := 500; tzinfo := None |}
                < clock world_with_blog (clock_reads world_with_blog))
    by (vm_compute; reflexivity).
  split; [reflexivity|]. split; [reflexivity|]. split; [exact Hlt|].
  exact (expired_record_is_kept_and_reported (store := sqlite_store) (py "stale")
           world_with_blog stale_row
           {| ticks := 500; tzinfo := None |} eq_refl eq_refl Hlt).
Defined.

(** The records of the example deployment. *)
Lemma reachable_records_are_well_formed_witness :
  tables example_world = empty_db /\
  rtc (served (H := ascii_only) (store := sqlite_store)) example_world world_after_visits /\
  (forall u, In u (urls (tables world_after_visits)) ->
     is_valid_url (H := ascii_only) (URLModel.original_url u) = true /\
     (length (URLModel.original_url u) <= 2048)%nat /\
     (3 <= length (URLModel.short_code u) <= 20)%nat /\
     (forall c, In c (URLModel.short_code u) ->
        isalnum (H := ascii_only) c = true \/ c = ch "-" \/ c = ch "_")) /\
  (forall code stats w'',
     get_url_stats code world_after_visits = (Return stats, w'') ->
     URLStats.last_accessed stats = None).
Proof.
  split; [reflexivity|]. split; [exact world_after_visits_reachable|].
  exact (reachable_records_are_well_formed (H := ascii_only) (store := sqlite_store) example_world
           world_after_visits eq_refl world_after_visits_reachable).
Defined.

(** [blog] after its three visits: a counter of 3 for 3 clicks. *)
Lemma reachable_counters_count_clicks_witness :
  tables example_world = empty_db /\
  rtc (served (H := ascii_only) (store := sqlite_store)) example_world world_after_visits /\
  lookup (py "blog") (tables world_after_visits) = Some visited_row /\
  (forall x, In x (urls (tables world_after_visits)) ->
     URLModel.short_code x = py "blog" -> x = visited_row) /\
  exists stats w'',
    get_url_stats (py "blog") world_after_visits = (Return stats, w'') /\
    URLStats.click_count stats
      = Z.of_nat (length (List.filter
                            (fun c => ClickModel.url_id c =? URLModel.id visited_row)
                            (clicks (tables world_after_visits)))) /\
    length (URLStats.recent_clicks stats)
      = Nat.min 10 (Z.to_nat (URLStats.click_count stats)).
Proof.
  split; [reflexivity|]. split; [exact world_after_visits_reachable|].
  split; [reflexivity|].
  exact (reachable_counters_count_clicks (H := ascii_only) (store := sqlite_store) example_world
           world_after_visits (py "blog") visited_row eq_refl
           world_after_visits_reachable eq_refl).
Defined.

(** [blog] is taken in the example deployment. *)
Lemma shorten_endpoint_fails_in_four_ways_witness :
  post_shorten (H := ascii_only) blog_again_body example_request world_with_blog
    = (Raise (HTTPException 409 "Custom alias already exists"),
       snd (post_shorten (H := ascii_only) blog_again_body example_request
              world_with_blog)) /\
  tables (snd (post_shorten (H := ascii_only) blog_again_body example_request
                 world_with_blog))
    = tables world_with_blog /\
  ((exists errors,
      HTTPException 409 "Custom alias already exists" = RequestValidationError errors /\
      errors <> [] /\
      snd (post_shorten (H := ascii_only) blog_again_body example_request world_with_blog)
        = world_with_blog) \/
   (HTTPException 409 "Custom alias already exists"
      = HTTPException 400 "Invalid URL format" /\
    is_valid_url (H := ascii_only) (URLCreate.original_url blog_again_body) = false /\
    snd (post_shorten (H := ascii_only) blog_again_body example_request world_with_blog)
      = world_with_blog) \/
   (HTTPException 409 "Custom alias already exists"
      = HTTPException 409 "Custom alias already exists" /\
    exists a, URLCreate.custom_alias blog_again_body = Some a /\
              taken (tables world_with_blog) a = true) \/
   (HTTPException 409 "Custom alias already exists"
      = HTTPException 500 "Failed to generate unique short code" /\
    URLCreate.custom_alias blog_again_body = None)).
Proof.
  assert (E : post_shorten (H := ascii_only) blog_again_body example_request
                world_with_blog
              = (Raise (HTTPException 409 "Custom alias already exists"),
                 snd (post_shorten (H := ascii_only) blog_again_body example_request
                        world_with_blog)))
    by (vm_compute; reflexivity).
  split; [exact E|].
  exact (shorten_endpoint_fails_in_four_ways (H := ascii_only) blog_again_body
           example_request world_with_blog _ _ E).
Defined.

(** The handler, called with an alias of two characters. *)
Lemma handler_checks_the_alias_itself_witness :
  is_valid_url (H := ascii_only) (URLCreate.original_url short_alias_body) = true /\
  create_short_url (H := ascii_only) short_alias_body example_request world_with_blog
    = (Raise (HTTPException 400 "Custom alias must be between 3 and 20 characters"),
       world_with_blog).
Proof.
  assert (Hvalid : is_valid_url (H := ascii_only)
                     (URLCreate.original_url short_alias_body) = true)
    by (vm_compute; reflexivity).
  assert (Hne : py "ab" <> []) by discriminate.
  assert (Hlen : (length (py "ab") < 3)%nat \/ (20 < length (py "ab"))%nat)
    by (left; cbn; lia).
  split; [exact Hvalid|].
  exact (proj2 (handler_checks_the_alias_itself (H := ascii_only) short_alias_body
                  example_request world_with_blog Hvalid)
           (py "ab") eq_refl Hne Hlen).
Defined.

(** The base URL of the test server ends in one slash. *)
Lemma short_url_has_one_slash_before_code_witness :
  create_short_url (H := ascii_only) plain_body example_request example_world
    = (Return plain_response,
       snd (create_short_url (H := ascii_only) plain_body example_request example_world)) /\
  exists stem n,
    base_url example_request = stem ++ repeat (ch "/") n /\
    last stem <> Some (ch "/") /\
    URLResponse.short_url plain_response
      = stem ++ ch "/" :: URLResponse.short_code plain_response.
Proof.
  assert (E : create_short_url (H := ascii_only) plain_body example_request example_world
              = (Return plain_response,
                 snd (create_short_url (H := ascii_only) plain_body example_request
                        example_world)))
    by (vm_compute; reflexivity).
  split; [exact E|].
  exact (short_url_has_one_slash_before_code (H := ascii_only) plain_body example_request
           example_world _ plain_response E).
Defined.

(** Upper case, with a port. *)
Lemma ascii_url_valid_iff_pattern_matches_witness :
  forallb isascii (py "HTTP://LOCALHOST:8000") = true /\
  is_valid_url (H := ascii_only) (py "HTTP://LOCALHOST:8000")
    = re_match (H := ascii_only) url_pattern (py "HTTP://LOCALHOST:8000").
Proof.
  assert (Hascii : forallb isascii (py "HTTP://LOCALHOST:8000") = true)
    by (vm_compute; reflexivity).
  split; [exact Hascii|].
  exact (ascii_url_valid_iff_pattern_matches (H := ascii_only) _ Hascii).
Defined.

(** The example URL of the schema. *)
Lemma accepted_url_parses_as_the_pattern_reads_it_witness :
  is_valid_url (H := ascii_only) (py "https://www.example.com/very/long/url/path") = true /\
  exists sch host port tail nl parsed,
    py "https://www.example.com/very/long/url/path"
      = sch ++ py "://" ++ host ++ port ++ tail ++ nl /\
    (nl = [] \/ nl = [10%N]) /\
    url_host (H := ascii_only) host /\ url_port (H := ascii_only) port /\
    url_tail tail /\
    urlparse (H := ascii_only) (py "https://www.example.com/very/long/url/path")
      = Return parsed /\
    (scheme parsed = py "http" \/ scheme parsed = py "https") /\
    length (scheme parsed) = length sch /\
    netloc parsed = host ++ port /\
    remainder parsed = tail /\
    ~ In (ch "@") (netloc parsed).
Proof.
  assert (E : is_valid_url (H := ascii_only)
                (py "https://www.example.com/very/long/url/path") = true)
    by (vm_compute; reflexivity).
  split; [exact E|].
  exact (accepted_url_parses_as_the_pattern_reads_it (H := ascii_only) _ E).
Defined.

(** A query string, and no white space in it. *)
Lemma accepted_url_has_no_white_space_witness :
  is_valid_url (H := ascii_only) (py "http://127.0.0.1:8000/?q=1") = true /\
  exists u nl,
    py "http://127.0.0.1:8000/?q=1" = u ++ nl /\ (nl = [] \/ nl = [10%N]) /\
    forall x, In x u -> isascii x = true -> isspace x = false.
Proof.
  assert (E : is_valid_url (H := ascii_only) (py "http://127.0.0.1:8000/?q=1") = true)
    by (vm_compute; reflexivity).
  split; [exact E|].
  exact (accepted_url_has_no_white_space (H := ascii_only) _ E).
Defined.
